(** * Marathi numeral, amount and transliteration core of the invoice front end

    A shallow embedding of the pure functions of the repository:
    - utils/marathiDigits       (digit mapper, [parseMarathiNumber]),
    - components/InvoicePreview (amount in words, GST derivation),
    - app/create-invoice/page   (row totals, total sales, expenses, balance),
    - utils/transliterate       (dictionary + Aksharamukha orchestration),
    - the phonetic transducer   ([phoneticTransliterate], also word by word),
    - utils/marathiTransliteration (digits in running text, the converters),
    - the later create-invoice page (fields in Devanagari digits,
      [formatAmount], [parseDecimalAmount], the totals it saves),
    - the readers of amounts of the preview, its dates and day columns,
    - app/reports/page          ([getGrandTotalFromInvoice]).

    Conventions of the embedding.
    - A JavaScript string is the list of its UTF-16 code units ([jsstring]);
      [split('')], indexing and [length] all work on code units.  Literals
      are written as UTF-8 text and decoded by [u].
    - A JavaScript number is [NaN], an infinity, or a finite value kept as an
      exact rational in lowest terms ([number]), and arithmetic is carried
      out exactly.  IEEE doubles round, so the two agree where no rounding
      takes place: on whole numbers below 2^53 and on their sums, products,
      quotients by 100 rounded down and remainders.  A statement that
      holds of the doubles only in a range carries that range as a
      hypothesis: 2^53 for whole numbers of paise, less where amounts with
      decimals are added up or printed, and a text read as a number is
      short enough not to overflow.  A statement about a rounded value
      allows for the rounding error of the doubles in its bound.
    - A JavaScript object used as a dictionary with string keys is a
      [gmap string _]; reading an absent key gives [None] ([undefined]).
      The names that an object literal inherits are listed apart
      ([inheritedNames]), and a statement about a word looked up in the
      dictionary assumes that the word is none of them.
    - An [async] function returns an [Outcome]: the value it settles with
      and the state it leaves, or [Pending] when it never settles.  Calls
      run one after another. *)

From Stdlib Require Import ZArith NArith QArith Qround Qreduction Qabs Qpower.
From Stdlib Require Import String Ascii List Bool Lia Lqa.
From stdpp Require Import base option list strings pretty gmap.

Local Open Scope N_scope.

(** ** Strings *)

Module JsString.

(** UTF-16 code units. *)
Abbreviation jsstring := (list N).

(** Decoder for UTF-8 text: one to three bytes give one code unit, four bytes
    give a surrogate pair. *)
Fixpoint utf8_decode (bs : list N) : jsstring :=
  match bs with
  | [] => []
  | b0 :: r0 =>
    if b0 <? 0x80 then b0 :: utf8_decode r0
    else if b0 <? 0xE0 then
      match r0 with
      | b1 :: r1 =>
        N.lor (N.shiftl (N.land b0 0x1F) 6) (N.land b1 0x3F) :: utf8_decode r1
      | [] => [0xFFFD]
      end
    else if b0 <? 0xF0 then
      match r0 with
      | b1 :: b2 :: r2 =>
        N.lor (N.shiftl (N.land b0 0x0F) 12)
              (N.lor (N.shiftl (N.land b1 0x3F) 6) (N.land b2 0x3F))
          :: utf8_decode r2
      | _ => [0xFFFD]
      end
    else
      match r0 with
      | b1 :: b2 :: b3 :: r3 =>
        let cp := N.lor (N.shiftl (N.land b0 0x07) 18)
                  (N.lor (N.shiftl (N.land b1 0x3F) 12)
                  (N.lor (N.shiftl (N.land b2 0x3F) 6) (N.land b3 0x3F))) in
        let v := cp - 0x10000 in
        (0xD800 + N.shiftr v 10) :: (0xDC00 + N.land v 0x3FF) :: utf8_decode r3
      | _ => [0xFFFD]
      end
  end.

Definition u (s : string) : jsstring :=
  utf8_decode (map (fun a => N_of_ascii a) (list_ascii_of_string s)).

(** One-character literal. *)
Definition ch (s : string) : N := hd 0 (u s).

(** [s === t] on strings. *)
Fixpoint str_eqb (s t : jsstring) : bool :=
  match s, t with
  | [], [] => true
  | a :: s', b :: t' => (a =? b) && str_eqb s' t'
  | _, _ => false
  end.

(** No unit of [s] is [c]. *)
Definition lacks (c : N) (s : jsstring) : bool := forallb (fun x => negb (x =? c)) s.

(** [/[ऀ-ॿ]/]: a code unit of the Devanagari block. *)
Definition isDevanagari (c : N) : bool := (0x0900 <=? c) && (c <=? 0x097F).

(** [/[ऀ-ॿ]/.test(s)] *)
Definition hasDevanagari (s : jsstring) : bool := existsb isDevanagari s.

(** [(s.match(/[ऀ-ॿ]/g) || []).length] *)
Definition countDevanagari (s : jsstring) : nat :=
  length (List.filter isDevanagari s).

(** [\s] of ECMAScript regular expressions: white space and line
    terminators. *)
Definition isSpace (c : N) : bool :=
  (c =? 0x09) || (c =? 0x0A) || (c =? 0x0B) || (c =? 0x0C) || (c =? 0x0D)
  || (c =? 0x20) || (c =? 0xA0) || (c =? 0x1680)
  || ((0x2000 <=? c) && (c <=? 0x200A))
  || (c =? 0x2028) || (c =? 0x2029) || (c =? 0x202F) || (c =? 0x205F)
  || (c =? 0x3000) || (c =? 0xFEFF).

(** [\d] *)
Definition isDigit (c : N) : bool := (0x30 <=? c) && (c <=? 0x39).

Fixpoint trimStart (s : jsstring) : jsstring :=
  match s with
  | c :: r => if isSpace c then trimStart r else s
  | [] => []
  end.

(** [String.prototype.trim] *)
Definition trim (s : jsstring) : jsstring :=
  rev (trimStart (rev (trimStart s))).

(** The string begins, or ends, with a unit that is not white space. *)
Definition startsTight (s : jsstring) : bool :=
  match s with
  | c :: _ => negb (isSpace c)
  | [] => false
  end.

Definition endsTight (s : jsstring) : bool := startsTight (rev s).

(** [String.prototype.toLowerCase], exact on ASCII text: [A]-[Z] go to
    [a]-[z].  Code units above U+007F are left as they are; the statements
    below that depend on lower-casing are about ASCII words. *)
Definition lowerUnit (c : N) : N :=
  if (0x41 <=? c) && (c <=? 0x5A) then c + 0x20 else c.

Definition toLowerCase (s : jsstring) : jsstring := map lowerUnit s.

Definition isAscii (c : N) : bool := c <? 0x80.

(** An ASCII letter. *)
Definition isLetter (c : N) : bool :=
  ((0x41 <=? c) && (c <=? 0x5A)) || ((0x61 <=? c) && (c <=? 0x7A)).

End JsString.

Import JsString.

(** ** utils/marathiDigits: the digit mapper *)

Module MarathiDigits.

(** [MARATHI_TO_ENGLISH]: the ten own keys of the table. *)
Definition MARATHI_TO_ENGLISH : list (N * jsstring) :=
  [ (ch "०", u "0"); (ch "१", u "1"); (ch "२", u "2"); (ch "३", u "3");
    (ch "४", u "4"); (ch "५", u "5"); (ch "६", u "6"); (ch "७", u "7");
    (ch "८", u "8"); (ch "९", u "9") ].

(** [ENGLISH_TO_MARATHI] *)
Definition ENGLISH_TO_MARATHI : list (N * jsstring) :=
  [ (ch "0", u "०"); (ch "1", u "१"); (ch "2", u "२"); (ch "3", u "३");
    (ch "4", u "४"); (ch "5", u "५"); (ch "6", u "६"); (ch "7", u "७");
    (ch "8", u "८"); (ch "9", u "९") ].

(** [table[char]] for a one-unit key. *)
Fixpoint tableGet (t : list (N * jsstring)) (c : N) : option jsstring :=
  match t with
  | [] => None
  | (k, v) :: r => if k =? c then Some v else tableGet r c
  end.

(** [table[char] || char]: an absent key or an empty value gives [char]. *)
Definition mapUnit (t : list (N * jsstring)) (c : N) : jsstring :=
  match tableGet t c with
  | Some ((_ :: _) as v) => v
  | _ => [c]
  end.

(** [text.split('').map(char => table[char] || char).join('')] *)
Definition mapUnits (t : list (N * jsstring)) (text : jsstring) : jsstring :=
  concat (map (mapUnit t) text).

Definition marathiToEnglish (text : jsstring) : jsstring :=
  match text with
  | [] => text
  | _ => mapUnits MARATHI_TO_ENGLISH text
  end.

Definition englishToMarathi (text : jsstring) : jsstring :=
  match text with
  | [] => text
  | _ => mapUnits ENGLISH_TO_MARATHI text
  end.

(** [/[०-९]/] *)
Definition isMarathiDigit (c : N) : bool := (0x0966 <=? c) && (c <=? 0x096F).

Definition containsMarathiDigits (text : jsstring) : bool :=
  existsb isMarathiDigit text.

(** What each table does to one code unit. *)
Definition toLatinUnit (c : N) : N := if isMarathiDigit c then c - 0x0966 + 0x30 else c.
Definition toDevanagariUnit (c : N) : N := if isDigit c then c - 0x30 + 0x0966 else c.

End MarathiDigits.

Import MarathiDigits.

(** ** Numbers *)

Module JsNumber.

Inductive number : Type :=
  | NaN
  | PInf
  | NInf
  | Fin (q : Q).

(** Finite values are stored in lowest terms, so that equal values are equal
    terms. *)
Definition fin (q : Q) : number := Fin (Qred q).
Definition ofZ (z : Z) : number := Fin (inject_Z z).
Definition ofNat (n : nat) : number := ofZ (Z.of_nat n).

Definition isNaN (x : number) : bool :=
  match x with NaN => true | _ => false end.

(** Truthiness of a number: every value but [NaN] and zero. *)
Definition truthy (x : number) : bool :=
  match x with
  | NaN => false
  | Fin q => negb (Qeq_bool q 0)
  | _ => true
  end.

Definition Qltb (a b : Q) : bool := negb (Qle_bool b a).

(** [x < y] *)
Definition jlt (x y : number) : bool :=
  match x, y with
  | NaN, _ | _, NaN => false
  | _, NInf => false
  | NInf, _ => true
  | PInf, _ => false
  | Fin _, PInf => true
  | Fin a, Fin b => Qltb a b
  end.

(** [x > y] *)
Definition jgt (x y : number) : bool := jlt y x.

(** [x >= y] *)
Definition jge (x y : number) : bool :=
  match x, y with
  | NaN, _ | _, NaN => false
  | _, _ => negb (jlt x y)
  end.

(** [x === y] *)
Definition jeq (x y : number) : bool :=
  match x, y with
  | PInf, PInf | NInf, NInf => true
  | Fin a, Fin b => Qeq_bool a b
  | _, _ => false
  end.

Definition jneg (x : number) : number :=
  match x with
  | NaN => NaN
  | PInf => NInf
  | NInf => PInf
  | Fin q => fin (- q)
  end.

Definition jadd (x y : number) : number :=
  match x, y with
  | NaN, _ | _, NaN => NaN
  | PInf, NInf | NInf, PInf => NaN
  | PInf, _ | _, PInf => PInf
  | NInf, _ | _, NInf => NInf
  | Fin a, Fin b => fin (a + b)
  end.

Definition jsub (x y : number) : number := jadd x (jneg y).

(** An infinity with the sign of [s] ([s] is not zero). *)
Definition inf_of_sign (s : Z) : number := if (0 <? s)%Z then PInf else NInf.

Definition jsign (x : number) : Z :=
  match x with
  | NaN => 0
  | PInf => 1
  | NInf => -1
  | Fin q => Z.sgn (Qnum q)
  end.

Definition jmul (x y : number) : number :=
  match x, y with
  | NaN, _ | _, NaN => NaN
  | Fin a, Fin b => fin (a * b)
  | _, _ => if (jsign x * jsign y =? 0)%Z then NaN else inf_of_sign (jsign x * jsign y)
  end.

(** Division; a zero divisor counts as [+0]. *)
Definition jdiv (x y : number) : number :=
  match x, y with
  | NaN, _ | _, NaN => NaN
  | Fin a, Fin b =>
    if Qeq_bool b 0
    then (if Qeq_bool a 0 then NaN else inf_of_sign (jsign x))
    else fin (a / b)
  | Fin _, _ => ofZ 0
  | _, Fin b => inf_of_sign (jsign x * (if Qltb b 0 then -1 else 1))
  | _, _ => NaN
  end.

(** Integer part, rounding toward zero. *)
Definition Qtrunc (q : Q) : Z :=
  if Qle_bool 0 q then Qfloor q else Qceiling q.

(** [x % y]: the remainder takes the sign of the dividend. *)
Definition jrem (x y : number) : number :=
  match x, y with
  | NaN, _ | _, NaN => NaN
  | PInf, _ | NInf, _ => NaN
  | Fin _, PInf | Fin _, NInf => x
  | Fin a, Fin b =>
    if Qeq_bool b 0 then NaN
    else fin (a - b * inject_Z (Qtrunc (a / b)))
  end.

(** [Math.floor] *)
Definition Math_floor (x : number) : number :=
  match x with
  | Fin q => ofZ (Qfloor q)
  | _ => x
  end.

(** [Math.round]: the nearest integer, a tie going up. *)
Definition Math_round (x : number) : number :=
  match x with
  | Fin q => ofZ (Qfloor (q + (1 # 2)))
  | _ => x
  end.

(** [Math.abs] *)
Definition Math_abs (x : number) : number :=
  match x with
  | NaN => NaN
  | PInf | NInf => PInf
  | Fin q => fin (Qabs q)
  end.

(** [+x.toFixed(2)]: [toFixed] picks the integer [n] with [n / 100] nearest
    to [x], the larger one on a tie, after setting the sign of a negative
    [x] aside; for a magnitude of 1e21 or more it prints [x] itself.  The
    unary plus reads the printed digits back. *)
Definition toFixed2 (x : number) : number :=
  match x with
  | Fin q =>
    if Qle_bool (inject_Z (10 ^ 21)) (Qabs q) then x
    else
      let n := Qfloor (Qabs q * 100 + (1 # 2)) in
      if Qle_bool 0 q then fin (inject_Z n / 100) else fin (- (inject_Z n / 100))
  | _ => x
  end.

(** [x || y] on numbers. *)
Definition orElse (x y : number) : number := if truthy x then x else y.

(** The value is a whole number. *)
Definition isInteger (x : number) : bool :=
  match x with
  | Fin q => Qeq_bool q (inject_Z (Qfloor q))
  | _ => false
  end.

Declare Scope js_scope.
Delimit Scope js_scope with js.
Bind Scope js_scope with number.
Infix "+" := jadd : js_scope.
Infix "-" := jsub : js_scope.
Infix "*" := jmul : js_scope.
Infix "/" := jdiv : js_scope.
Infix "%%" := jrem (at level 40, left associativity) : js_scope.
Infix "<" := jlt : js_scope.
Infix ">" := jgt : js_scope.
Infix "===" := jeq (at level 70, no associativity) : js_scope.

(** *** parseFloat *)

Fixpoint takeDigits (s : jsstring) : jsstring * jsstring :=
  match s with
  | c :: r =>
    if isDigit c then let '(d, r') := takeDigits r in (c :: d, r') else ([], s)
  | [] => ([], [])
  end.

Definition digitsValue (d : jsstring) : Z :=
  fold_left (fun acc c => (acc * 10 + (Z.of_N c - 48))%Z) d 0%Z.

Fixpoint startsWith (p s : jsstring) : bool :=
  match p, s with
  | [], _ => true
  | a :: p', b :: s' => (a =? b) && startsWith p' s'
  | _ :: _, [] => false
  end.

(** The exponent part [e], [e+] or [e-] followed by at least one digit;
    otherwise no exponent is read. *)
Definition parseExponent (s : jsstring) : Z :=
  match s with
  | c :: r =>
    if (c =? ch "e") || (c =? ch "E") then
      match r with
      | sg :: r' =>
        if sg =? ch "-" then
          (match fst (takeDigits r') with [] => 0 | d => - digitsValue d end)%Z
        else if sg =? ch "+" then digitsValue (fst (takeDigits r'))
        else digitsValue (fst (takeDigits r))
      | [] => 0%Z
      end
    else 0%Z
  | [] => 0%Z
  end.

(** The unsigned part of a decimal literal. *)
Definition parseUnsigned (s : jsstring) : number :=
  if startsWith (u "Infinity") s then PInf
  else
    let '(ip, r1) := takeDigits s in
    let '(fp, r2) :=
      match r1 with
      | c :: r => if c =? ch "." then takeDigits r else ([], r1)
      | [] => ([], r1)
      end in
    match ip ++ fp with
    | [] => NaN
    | ds =>
      fin (inject_Z (digitsValue ds)
           * Qpower 10 (parseExponent r2 - Z.of_nat (length fp)))
    end.

(** [parseFloat(s)]: leading white space is skipped, the longest prefix
    that is a decimal literal is read, and [NaN] is returned when there is
    none. *)
Definition parseFloat (s : jsstring) : number :=
  match trimStart s with
  | c :: r =>
    if c =? ch "-" then jneg (parseUnsigned r)
    else if c =? ch "+" then parseUnsigned r
    else parseUnsigned (c :: r)
  | [] => NaN
  end.

End JsNumber.

Import JsNumber.

(** [s.replace(/,/g, '')] *)
Definition stripCommas (s : jsstring) : jsstring :=
  List.filter (fun c => negb (c =? ch ",")) s.

(** [parseMarathiNumber] of utils/marathiDigits. *)
Definition parseMarathiNumber (text : jsstring) : number :=
  match text with
  | [] => ofZ 0
  | _ =>
    let englishText := marathiToEnglish (trim text) in
    let parsed := parseFloat (stripCommas englishText) in
    if isNaN parsed then ofZ 0 else parsed
  end.

(** ** components/InvoicePreview: amount in words and GST *)

Module InvoicePreview.

Local Open Scope js_scope.

(** [arr[x]] appended to a string: an element for a whole, in-range [x],
    the text [undefined] otherwise. *)
Definition idx (arr : list jsstring) (x : number) : jsstring :=
  match x with
  | Fin q =>
    if isInteger x && Qle_bool 0 q
    then nth (Z.to_nat (Qfloor q)) arr (u "undefined")
    else u "undefined"
  | _ => u "undefined"
  end.

Definition a : list jsstring :=
  [] :: map u ["One"; "Two"; "Three"; "Four"; "Five"; "Six"; "Seven"; "Eight";
         "Nine"; "Ten"; "Eleven"; "Twelve"; "Thirteen"; "Fourteen"; "Fifteen";
         "Sixteen"; "Seventeen"; "Eighteen"; "Nineteen"]%string.

Definition b : list jsstring :=
  [] :: [] :: map u ["Twenty"; "Thirty"; "Forty"; "Fifty"; "Sixty"; "Seventy";
         "Eighty"; "Ninety"]%string.

Definition inWords (n : number) : jsstring :=
  if n > ofZ 19 then
    idx b (Math_floor (n / ofZ 10))
    ++ (if truthy (n %% ofZ 10) then u " " ++ idx a (n %% ofZ 10) else [])
  else if n > ofZ 0 then idx a n
  else [].

Definition numberToWords (num : number) : jsstring :=
  if isNaN num then []
  else if num === ofZ 0 then u "Zero"
  else if num > ofZ 999999999 then u "Amount too large"
  else
    let crore := Math_floor (num / ofZ 10000000) in
    let lakh := Math_floor ((num / ofZ 100000) %% ofZ 100) in
    let thousand := Math_floor ((num / ofZ 1000) %% ofZ 100) in
    let hundred := Math_floor ((num / ofZ 100) %% ofZ 10) in
    let rest := Math_floor (num %% ofZ 100) in
    let result : jsstring := [] in
    let result := if truthy crore then result ++ inWords crore ++ u " Crore " else result in
    let result := if truthy lakh then result ++ inWords lakh ++ u " Lakh " else result in
    let result := if truthy thousand then result ++ inWords thousand ++ u " Thousand " else result in
    let result := if truthy hundred then result ++ idx a hundred ++ u " Hundred " else result in
    let result :=
      if truthy rest then
        (match result with [] => result | _ => result ++ u "and " end)
        ++ inWords rest ++ u " "
      else result in
    trim result.

(** The two numbers [amountToWordsWithPaise] splits its argument into. *)
Definition rupeesOf (amount : number) : number := Math_floor amount.
Definition paiseOf (amount : number) : number :=
  Math_round ((amount - rupeesOf amount) * ofZ 100).

Definition amountToWordsWithPaise (amount : number) : jsstring :=
  let rupees := rupeesOf amount in
  let paise := paiseOf amount in
  let words := numberToWords rupees in
  let words := match words with [] => words | _ => words ++ u " Rupees" end in
  let words :=
    if paise > ofZ 0 then words ++ u " and " ++ numberToWords paise ++ u " Paise"
    else words in
  words ++ u " only".

(** The tax block of the component: [gstType] selects IGST or the
    CGST/SGST split of the rate [gstRate] applied to [taxableAmount]. *)
Inductive GstType := CGST_SGST | IGST.

Record GstAmounts := {
  cgstRateNum : number; sgstRateNum : number; igstRateNum : number;
  cgstVal : number; sgstVal : number; igstVal : number;
  netAmountVal : number
}.

Definition gstAmounts (gstType : GstType) (gstRate taxableAmount : number) : GstAmounts :=
  match gstType with
  | IGST =>
    let igstRateNum := gstRate in
    let igstVal := toFixed2 (taxableAmount * (igstRateNum / ofZ 100)) in
    let netAmountVal := toFixed2 (taxableAmount + igstVal) in
    {| cgstRateNum := ofZ 0; sgstRateNum := ofZ 0; igstRateNum := igstRateNum;
       cgstVal := ofZ 0; sgstVal := ofZ 0; igstVal := igstVal;
       netAmountVal := netAmountVal |}
  | CGST_SGST =>
    let cgstRateNum := gstRate / ofZ 2 in
    let sgstRateNum := gstRate / ofZ 2 in
    let cgstVal := toFixed2 (taxableAmount * (cgstRateNum / ofZ 100)) in
    let sgstVal := toFixed2 (taxableAmount * (sgstRateNum / ofZ 100)) in
    let netAmountVal := toFixed2 (taxableAmount + cgstVal + sgstVal) in
    {| cgstRateNum := cgstRateNum; sgstRateNum := sgstRateNum; igstRateNum := ofZ 0;
       cgstVal := cgstVal; sgstVal := sgstVal; igstVal := ofZ 0;
       netAmountVal := netAmountVal |}
  end.

End InvoicePreview.

Import InvoicePreview.

(** ** app/create-invoice/page: the invoice calculation model *)

Module CreateInvoice.

Local Open Scope js_scope.

(** [parseFloat(invoiceData[key] || '0') || 0]: an absent or empty field
    reads as ['0'], and a text that parses to [NaN] or zero gives [0]. *)
Definition numField (invoiceData : gmap string jsstring) (key : string) : number :=
  orElse
    (parseFloat match invoiceData !! key with
                | Some ((_ :: _) as v) => v
                | _ => u "0"
                end)
    (ofZ 0).

(** A rupee/paise pair; [null] components are [None]. *)
Record MonetaryAmount := { rs : option number; paise : option number }.

Definition blank : MonetaryAmount := {| rs := None; paise := None |}.

Definition calculateTotalExpenses (invoiceData : gmap string jsstring) : MonetaryAmount :=
  let totalPaise := ofZ 0 in
  let totalPaise :=
    fold_left (fun totalPaise i =>
      let rs := numField invoiceData ("expense" +:+ pretty i +:+ "_rs") in
      let paise := numField invoiceData ("expense" +:+ pretty i +:+ "_paise") in
      totalPaise + ((rs * ofZ 100) + paise)) (seq 0 8) totalPaise in
  let totalPaise :=
    fold_left (fun totalPaise i =>
      let rs := numField invoiceData ("empty" +:+ pretty i +:+ "_rs") in
      let paise := numField invoiceData ("empty" +:+ pretty i +:+ "_paise") in
      totalPaise + ((rs * ofZ 100) + paise)) (seq 0 5) totalPaise in
  let totalRs := Math_floor (totalPaise / ofZ 100) in
  let remainingPaise := totalPaise %% ofZ 100 in
  {| rs := Some totalRs; paise := Some remainingPaise |}.

(** The quantity a row is billed for: Piece when positive, else Crates. *)
Definition rowQuantity (invoiceData : gmap string jsstring) (rowIndex : nat) : number :=
  let piece := numField invoiceData ("row" +:+ pretty rowIndex +:+ "_item") in
  let crates := numField invoiceData ("row" +:+ pretty rowIndex +:+ "_piece") in
  if piece > ofZ 0 then piece else crates.

Definition rowPrice (invoiceData : gmap string jsstring) (rowIndex : nat) : number :=
  numField invoiceData ("row" +:+ pretty rowIndex +:+ "_price").

Definition calculateRowTotal (invoiceData : gmap string jsstring) (rowIndex : nat) : MonetaryAmount :=
  let quantity := rowQuantity invoiceData rowIndex in
  let perUnitPrice := rowPrice invoiceData rowIndex in
  if (quantity === ofZ 0) || (perUnitPrice === ofZ 0) then blank
  else
    let totalPaise := Math_round (quantity * perUnitPrice * ofZ 100) in
    let totalRs := Math_floor (totalPaise / ofZ 100) in
    let remainingPaise := totalPaise %% ofZ 100 in
    {| rs := Some totalRs; paise := Some remainingPaise |}.

(** The running sum of [calculateTotalSales] after its loop over the
    thirteen rows. *)
Definition salesPaiseSum (invoiceData : gmap string jsstring) : number :=
  fold_left (fun totalPaise i =>
    let rowTotal := calculateRowTotal invoiceData i in
    match rs rowTotal, paise rowTotal with
    | Some r, Some p => totalPaise + ((r * ofZ 100) + p)
    | _, _ => totalPaise
    end) (seq 0 13) (ofZ 0).

Definition calculateTotalSales (invoiceData : gmap string jsstring) : MonetaryAmount :=
  let totalPaise := salesPaiseSum invoiceData in
  if totalPaise === ofZ 0 then blank
  else
    let totalRs := Math_floor (totalPaise / ofZ 100) in
    let remainingPaise := totalPaise %% ofZ 100 in
    {| rs := Some totalRs; paise := Some remainingPaise |}.

Record NetBalance := {
  netRs : option number; netPaise : option number; isNegative : bool
}.

(** The body of [calculateNetBalance] after its two calls. *)
Definition netBalanceOf (totalSales totalExpenses : MonetaryAmount) : NetBalance :=
  match rs totalSales, paise totalSales with
  | Some sRs, Some sPaise =>
    let salesPaise := (sRs * ofZ 100) + sPaise in
    let expensesPaise :=
      (default (ofZ 0) (rs totalExpenses) * ofZ 100)
      + default (ofZ 0) (paise totalExpenses) in
    let netPaise := salesPaise - expensesPaise in
    let netRs := Math_floor (Math_abs netPaise / ofZ 100) in
    let netRemainingPaise := Math_abs netPaise %% ofZ 100 in
    {| netRs := Some netRs; netPaise := Some netRemainingPaise;
       isNegative := netPaise < ofZ 0 |}
  | _, _ => {| netRs := None; netPaise := None; isNegative := false |}
  end.

Definition calculateNetBalance (invoiceData : gmap string jsstring) : NetBalance :=
  let totalSales := calculateTotalSales invoiceData in
  let totalExpenses := calculateTotalExpenses invoiceData in
  netBalanceOf totalSales totalExpenses.

(** The value of a rupee/paise pair in paise; a [null] component counts as
    zero, as it does under [*] and [+]. *)
Definition inPaise (m : MonetaryAmount) : number :=
  (default (ofZ 0) (rs m) * ofZ 100) + default (ofZ 0) (paise m).

(** Whole rupees and paise, the paise from 0 to 99. *)
Definition inRange (m : MonetaryAmount) : Prop :=
  exists zr zp : Z,
    m = {| rs := Some (ofZ zr); paise := Some (ofZ zp) |}
    /\ (0 <= zr)%Z /\ (0 <= zp <= 99)%Z.

End CreateInvoice.

Import CreateInvoice.

(** ** The phonetic transducer *)

Module Phonetic.

(** The two-letter rules of the loop, in source order.  [atEnd] is
    [i + 2 >= lowerText.length]. *)
Definition digraph (char nextChar : N) (atEnd : bool) : option jsstring :=
  if (char =? ch "m") && (nextChar =? ch "b") then Some (u "म्ब")
  else if (char =? ch "a") && (nextChar =? ch "i") && atEnd then Some (u "ई")
  else if (char =? ch "a") && (nextChar =? ch "i") then Some (u "ऐ")
  else if (char =? ch "l") && (nextChar =? ch "l") then Some (u "ल्ल")
  else if (char =? ch "s") && (nextChar =? ch "k") then Some (u "स्क")
  else if (char =? ch "s") && (nextChar =? ch "h") then Some (u "श")
  else if (char =? ch "c") && (nextChar =? ch "h") then Some (u "च")
  else if (char =? ch "t") && (nextChar =? ch "h") then Some (u "थ")
  else if (char =? ch "k") && (nextChar =? ch "h") then Some (u "ख")
  else if (char =? ch "g") && (nextChar =? ch "h") then Some (u "घ")
  else if (char =? ch "b") && (nextChar =? ch "h") then Some (u "भ")
  else if (char =? ch "p") && (nextChar =? ch "h") then Some (u "फ")
  else if (char =? ch "d") && (nextChar =? ch "h") then Some (u "ध")
  else if (char =? ch "j") && (nextChar =? ch "h") then Some (u "झ")
  else None.

(** The one-letter rules: vowels, then consonants. *)
Definition monograph (char : N) : option jsstring :=
  if char =? ch "a" then Some (u "अ")
  else if char =? ch "i" then Some (u "इ")
  else if char =? ch "u" then Some (u "उ")
  else if char =? ch "e" then Some (u "ए")
  else if char =? ch "o" then Some (u "ओ")
  else if char =? ch "m" then Some (u "म")
  else if char =? ch "b" then Some (u "ब")
  else if char =? ch "d" then Some (u "द")
  else if char =? ch "l" then Some (u "ल")
  else if char =? ch "h" then Some (u "ह")
  else if char =? ch "k" then Some (u "क")
  else if char =? ch "r" then Some (u "र")
  else if char =? ch "s" then Some (u "स")
  else if char =? ch "c" then Some (u "च")
  else if char =? ch "t" then Some (u "त")
  else if char =? ch "p" then Some (u "प")
  else if char =? ch "g" then Some (u "ग")
  else if char =? ch "j" then Some (u "ज")
  else if char =? ch "n" then Some (u "न")
  else if char =? ch "y" then Some (u "य")
  else if (char =? ch "v") || (char =? ch "w") then Some (u "व")
  else None.

(** [result += text[i]] *)
Definition original (text : jsstring) : jsstring :=
  match text with
  | c :: _ => [c]
  | [] => u "undefined"
  end.

(** One step at a position that is not the start of a two-letter rule:
    a one-letter rule, or the character of [text] copied (punctuation,
    white space, digits and letters without a rule alike). *)
Definition single (char : N) (text : jsstring) : jsstring :=
  match monograph char with
  | Some out => out
  | None => original text
  end.

(** The [while] loop.  The position [i] is kept as the pair of suffixes
    [lowerText.slice(i)] and [text.slice(i)]. *)
Fixpoint phoneticLoop (lowerText text : jsstring) : jsstring :=
  match lowerText with
  | [] => []
  | char :: rest =>
    match rest with
    | nextChar :: rest' =>
      match digraph char nextChar (match rest' with [] => true | _ => false end) with
      | Some out => out ++ phoneticLoop rest' (drop 2 text)
      | None => single char text ++ phoneticLoop rest (drop 1 text)
      end
    | [] => single char text ++ phoneticLoop rest (drop 1 text)
    end
  end.

Definition phoneticTransliterate (text : jsstring) : jsstring :=
  match text with
  | [] => text
  | _ =>
    if hasDevanagari text then text
    else phoneticLoop (toLowerCase text) text
  end.

(** The letter, in either case, has a one-letter rule. *)
Definition hasRule (c : N) : bool :=
  match monograph (lowerUnit c) with
  | Some _ => true
  | None => false
  end.

End Phonetic.

Import Phonetic.

(** ** utils/transliterate: dictionary and Aksharamukha orchestration *)

Module Transliterate.

(** [CORRECTION_DICTIONARY], with its own keys. *)
Definition CORRECTION_DICTIONARY : gmap (list N) (list N) :=
  list_to_map
    [ (u "mumbai", u "मुंबई"); (u "Mumbai", u "मुंबई"); (u "MUMBAI", u "मुंबई");
      (u "delhi", u "दिल्ली"); (u "Delhi", u "दिल्ली"); (u "DELHI", u "दिल्ली");
      (u "bhaskar", u "भास्कर"); (u "Bhaskar", u "भास्कर"); (u "BHASKAR", u "भास्कर") ].

(** The dictionary is an object literal, so a subscript also finds what the
    object inherits from [Object.prototype].  These are the inherited
    names; each of them is bound to a function or an object. *)
Definition inheritedNames : list jsstring :=
  [ u "constructor"; u "hasOwnProperty"; u "isPrototypeOf";
    u "propertyIsEnumerable"; u "toLocaleString"; u "toString"; u "valueOf";
    u "__proto__"; u "__defineGetter__"; u "__defineSetter__";
    u "__lookupGetter__"; u "__lookupSetter__" ].

(** The word, lower-cased or as it is, is an inherited name: the subscript
    of the code then yields the inherited member, which is no string. *)
Definition namesInherited (word : jsstring) : bool :=
  existsb (str_eqb (toLowerCase word)) inheritedNames
  || existsb (str_eqb word) inheritedNames.

(** [CORRECTION_DICTIONARY[lowerWord] || CORRECTION_DICTIONARY[word]] among
    the own keys; it is what the code finds for every word with
    [namesInherited word = false]. *)
Definition dictionaryLookup (word : jsstring) : option jsstring :=
  match CORRECTION_DICTIONARY !! toLowerCase word with
  | Some ((_ :: _) as v) => Some v
  | _ =>
    match CORRECTION_DICTIONARY !! word with
    | Some ((_ :: _) as v) => Some v
    | _ => None
    end
  end.

(** The input formats handed to the backend. *)
Inductive Format := IAST | ITRANS | autodetect | Latin.

(** An Aksharamukha instance: [processAsync(format, 'Devanagari', text,
    {nativize})] resolves to a string ([Some]) or rejects ([None]). *)
Record Backend := { processAsync : Format -> jsstring -> bool -> option jsstring }.

(** What an awaited call comes to: it settles with a value, or it never
    settles. *)
Inductive Outcome (A : Type) := Settled (a : A) | Pending.
Arguments Settled {A} a.
Arguments Pending {A}.

(** The script element [script[src*=aksharamukha]] of the document: there is
    none, there is one whose [load] or [error] event is still to come, or
    there is one whose event has fired.  [loadAksharamukhaScript] appends the
    element and nothing removes it. *)
Inductive ScriptTag := NoScript | ScriptLoading | ScriptDone.

(** What one call leaves for the next: the script element, whether the
    class is at hand ([window.Aksharamukha], from which the module variables
    [Aksharamukha] and [loadPromise] are filled), and the module variable
    [aksharamukhaInstance].  Calls run one after another. *)
Record Loader := {
  scriptTag : ScriptTag;
  library : bool;
  aksharamukhaInstance : option Backend }.

(** What the world does during one call.  [scriptLoads]: the global
    [window.Aksharamukha] becomes set while the call loads the script or
    waits for it, in time for its checks.  [newInstance]: what
    [Aksharamukha.new()] resolves to, [None] when it rejects. *)
Record Env := { hasWindow : bool; scriptLoads : bool; newInstance : option Backend }.

(** [loadAksharamukha], with [loadAksharamukhaScript] in it: [true] stands
    for the class, [false] for [null].
    - Outside a browser: [null].
    - The class is at hand ([loadPromise], [Aksharamukha] or the global is
      set): the class.
    - A script element whose event has fired and no global: the code polls
      the global every 100 ms and listens for events that will not come
      again; the promise settles only if the global appears.
    - Otherwise the element is appended (or the one still loading is
      listened to); a failure resets [loadPromise] and gives [null], and the
      element stays in the document. *)
Definition loadAksharamukha (env : Env) (page : Loader) : Outcome (bool * Loader) :=
  if negb (hasWindow env) then Settled (false, page)
  else if library page then Settled (true, page)
  else
    let page' := {| scriptTag := ScriptDone; library := scriptLoads env;
                    aksharamukhaInstance := aksharamukhaInstance page |} in
    match scriptTag page with
    | ScriptDone => if scriptLoads env then Settled (true, page') else Pending
    | NoScript | ScriptLoading => Settled (scriptLoads env, page')
    end.

(** [getAksharamukhaInstance]: the cached instance when there is one,
    otherwise an attempt to load the class and create an instance.  Settles
    with the instance (or [null]) and what the call leaves. *)
Definition getAksharamukhaInstance (env : Env) (page : Loader)
  : Outcome (option Backend * Loader) :=
  match aksharamukhaInstance page with
  | Some b => Settled (Some b, page)
  | None =>
    match loadAksharamukha env page with
    | Pending => Pending
    | Settled (false, page') => Settled (None, page')
    | Settled (true, page') =>
      Settled (newInstance env,
               {| scriptTag := scriptTag page'; library := library page';
                  aksharamukhaInstance := newInstance env |})
    end
  end.

Definition preprocessWordForAksharamukha (word : jsstring) : jsstring :=
  toLowerCase word.

Definition attempts : list (Format * bool) :=
  [ (IAST, true); (ITRANS, true); (autodetect, true); (Latin, true);
    (IAST, false); (ITRANS, false); (autodetect, false) ].

(** The [for] loop over [attempts]; the state is [(transliterated,
    bestResult)], and a [break] ends the recursion. *)
Fixpoint attemptLoop (aksharamukha : Backend) (word preprocessed : jsstring)
    (todo : list (Format * bool)) (transliterated bestResult : jsstring)
  : jsstring * jsstring :=
  match todo with
  | [] => (transliterated, bestResult)
  | (format, nativize) :: todo' =>
    match processAsync aksharamukha format preprocessed nativize with
    | None => attemptLoop aksharamukha word preprocessed todo' transliterated bestResult
    | Some result =>
      if negb (str_eqb result []) && negb (str_eqb result preprocessed)
         && hasDevanagari result then
        let marathiChars := countDevanagari result in
        let bestMarathiChars := countDevanagari bestResult in
        let '(transliterated, bestResult) :=
          if (bestMarathiChars <? marathiChars)%nat || str_eqb bestResult word
          then (result, result) else (transliterated, bestResult) in
        if nativize && (0 <? marathiChars)%nat then (transliterated, bestResult)
        else attemptLoop aksharamukha word preprocessed todo' transliterated bestResult
      else attemptLoop aksharamukha word preprocessed todo' transliterated bestResult
    end
  end.

Definition transliterateWord (word : jsstring) (aksharamukha : option Backend) : jsstring :=
  match dictionaryLookup word with
  | Some v => v
  | None =>
    match aksharamukha with
    | None => word
    | Some ak =>
      let preprocessed := preprocessWordForAksharamukha word in
      let '(transliterated, bestResult) :=
        attemptLoop ak word preprocessed attempts word word in
      if negb (str_eqb bestResult word) && hasDevanagari bestResult
      then bestResult else transliterated
    end
  end.

(** The punctuation class of the splitting pattern: one of
    . , ; : ! ? - _ ( ) [ ] { } ' or the double quote (U+0022). *)
Definition isPunct (c : N) : bool :=
  existsb (N.eqb c) (u ".,;:!?-_()[]{}'" ++ [0x22]).

(** [text.split] on the pattern: a run of white space or one punctuation
    character, captured.  The result alternates words and separators;
    [spaces] holds a white-space run being read. *)
Fixpoint splitLoop (s word : jsstring) (spaces : option jsstring) : list jsstring :=
  match s with
  | [] =>
    match spaces with
    | Some r => [r; []]
    | None => [word]
    end
  | c :: s' =>
    match spaces with
    | Some r =>
      if isSpace c then splitLoop s' [] (Some (r ++ [c]))
      else if isPunct c then r :: [] :: [c] :: splitLoop s' [] None
      else r :: splitLoop s' [c] None
    | None =>
      if isSpace c then word :: splitLoop s' [] (Some [c])
      else if isPunct c then word :: [c] :: splitLoop s' [] None
      else splitLoop s' (word ++ [c]) None
    end
  end.

Definition splitWords (text : jsstring) : list jsstring := splitLoop text [] None.

(** The piece is empty or all white space, or is made of punctuation
    only. *)
Definition isSeparator (word : jsstring) : bool :=
  forallb isSpace word
  || (match word with [] => false | _ => forallb isPunct word end).

(** [/^\d+$/.test(word.trim())] *)
Definition isPureNumber (word : jsstring) : bool :=
  match trim word with
  | [] => false
  | w => forallb isDigit w
  end.

(** The callback mapped over the pieces of the text. *)
Definition transliteratePiece (aksharamukha : Backend) (word : jsstring) : jsstring :=
  if isSeparator word then word
  else if hasDevanagari word then word
  else if isPureNumber word then word
  else transliterateWord (trim word) (Some aksharamukha).

(** [preprocessTextForTransliteration] keeps the text as it is. *)
Definition preprocessTextForTransliteration (text : jsstring) : jsstring := text.

(** The first attempt of [transliterateToMarathiAsync]: the whole phrase,
    lower-cased, as IAST with [nativize]; the result is kept when it is not
    empty, differs from what was sent and has a Devanagari unit. *)
Definition wholePhrase (aksharamukha : Backend) (preprocessed : jsstring) : option jsstring :=
  match processAsync aksharamukha IAST (toLowerCase preprocessed) true with
  | Some wholePhraseResult =>
    if negb (str_eqb wholePhraseResult [])
       && negb (str_eqb wholePhraseResult (toLowerCase preprocessed))
       && hasDevanagari wholePhraseResult
       && (0 <? length wholePhraseResult)%nat
    then Some wholePhraseResult else None
  | None => None
  end.

(** [transliterateToMarathiAsync]; the awaited steps run in order.  Settles
    with the text and what the call leaves, or never settles. *)
Definition transliterateToMarathiAsync (env : Env) (page : Loader) (text : jsstring)
  : Outcome (jsstring * Loader) :=
  match text with
  | [] => Settled (text, page)
  | _ =>
    if hasDevanagari text then Settled (text, page)
    else if negb (hasWindow env) then Settled (text, page)
    else
      match getAksharamukhaInstance env page with
      | Pending => Pending
      | Settled (None, page') => Settled (text, page')
      | Settled (Some aksharamukha, page') =>
        let preprocessed := preprocessTextForTransliteration text in
        match wholePhrase aksharamukha preprocessed with
        | Some wholePhraseResult => Settled (wholePhraseResult, page')
        | None =>
          let words := splitWords preprocessed in
          Settled (concat (map (transliteratePiece aksharamukha) words), page')
        end
      end
  end.

(** [transliterateEnglishToMarathi] *)
Definition transliterateEnglishToMarathi (env : Env) (page : Loader) (text : jsstring)
  : Outcome (jsstring * Loader) :=
  match text with
  | [] => Settled (text, page)
  | _ =>
    if hasDevanagari text then Settled (text, page)
    else transliterateToMarathiAsync env page text
  end.


(** The page holds a script element of a load that has failed, and the
    class is still missing in a browser: a call that needs the backend
    waits for it. *)
Definition stuck (env : Env) (page : Loader) : Prop :=
  hasWindow env = true /\ aksharamukhaInstance page = None
  /\ library page = false /\ scriptTag page = ScriptDone
  /\ scriptLoads env = false.

(** The text a call settles with, if it settles. *)
Definition settledText (o : Outcome (jsstring * Loader)) : option jsstring :=
  match o with
  | Settled (text, _) => Some text
  | Pending => None
  end.

(** A page as it is first loaded: no script element, no class, no
    instance. *)
Definition freshPage : Loader :=
  {| scriptTag := NoScript; library := false; aksharamukhaInstance := None |}.

End Transliterate.

Import Transliterate.

(** ** The wording of an amount, stated on whole numbers

    A description of the words of an amount that follows the numbering
    scale directly, for comparison with [numberToWords] and
    [amountToWordsWithPaise]. *)

Module WordsSpec.

Local Open Scope Z_scope.

(** A number from 1 to 99: its own word below twenty, else the word of the
    tens and, unless the units are zero, the word of the units. *)
Definition words99 (k : Z) : jsstring :=
  if k <? 20 then nth (Z.to_nat k) a []
  else nth (Z.to_nat (k / 10)) b []
       ++ (if k mod 10 =? 0 then [] else u " " ++ nth (Z.to_nat (k mod 10)) a []).

(** A group of the scale, left out when its count is zero. *)
Definition group (k : Z) (name : jsstring) : list jsstring :=
  if k =? 0 then [] else [words99 k ++ name].

(** The phrases of a positive number, highest group first; the part under
    one hundred is introduced by [and] when a higher group precedes it. *)
Definition phrases (n : Z) : list jsstring :=
  let high :=
    group (n / 10000000) (u " Crore")
    ++ group ((n / 100000) mod 100) (u " Lakh")
    ++ group ((n / 1000) mod 100) (u " Thousand")
    ++ group ((n / 100) mod 10) (u " Hundred") in
  high ++ (if n mod 100 =? 0 then []
           else [(match high with [] => [] | _ => u "and " end) ++ words99 (n mod 100)]).

(** Phrases joined by single spaces. *)
Definition joinSpace (l : list jsstring) : jsstring :=
  match l with
  | [] => []
  | p :: ps => p ++ concat (map (fun q => u " " ++ q) ps)
  end.

Definition rupeeWords (n : Z) : jsstring :=
  if n =? 0 then u "Zero" else joinSpace (phrases n).

(** The sentence for [rupees] rupees and [paise] paise. *)
Definition amountInWords (rupees paise : Z) : jsstring :=
  rupeeWords rupees ++ u " Rupees"
  ++ (if 0 <? paise then u " and " ++ rupeeWords paise ++ u " Paise" else [])
  ++ u " only".

End WordsSpec.

Import WordsSpec.

(** ** Further functions of the same files *)

(** *** utils/marathiTransliteration: digits in running text *)

Module MarathiText.

(** [normalizeInputForCalculation] of utils/marathiDigits. *)
Definition normalizeInputForCalculation (text : jsstring) : jsstring :=
  marathiToEnglish text.

(** [isMarathi] *)
Definition isMarathi (text : jsstring) : bool :=
  match text with
  | [] => false
  | _ => hasDevanagari text
  end.

(** The table [marathiDigits] local to [convertNumbersToMarathi]. *)
Definition marathiDigits : list (N * jsstring) :=
  [ (ch "0", u "०"); (ch "1", u "१"); (ch "2", u "२"); (ch "3", u "३");
    (ch "4", u "४"); (ch "5", u "५"); (ch "6", u "६"); (ch "7", u "७");
    (ch "8", u "८"); (ch "9", u "९") ].

(** [text.replace(/\d/g, digit => marathiDigits[digit] || digit)] *)
Definition convertNumbersToMarathi (text : jsstring) : jsstring :=
  match text with
  | [] => text
  | _ =>
    concat (map (fun c => if isDigit c then mapUnit marathiDigits c else [c]) text)
  end.

(** [transliterateText], the synchronous version. *)
Definition transliterateText (text : jsstring) : jsstring :=
  match text with
  | [] => text
  | _ => if isMarathi text then text else convertNumbersToMarathi text
  end.

(** [convertInputToMarathi] *)
Definition convertInputToMarathi (text : jsstring) : jsstring :=
  match text with
  | [] => text
  | _ => transliterateText text
  end.

(** [transliterateTextAsync]: digits first, then the engine on the result;
    an empty answer of the engine gives the digit-converted text. *)
Definition transliterateTextAsync (env : Env) (page : Loader) (text : jsstring)
  : Outcome (jsstring * Loader) :=
  match text with
  | [] => Settled (text, page)
  | _ =>
    if isMarathi text then Settled (text, page)
    else
      let result := convertNumbersToMarathi text in
      match transliterateEnglishToMarathi env page result with
      | Settled (transliterated, page') =>
        Settled (match transliterated with [] => result | _ => transliterated end, page')
      | Pending => Pending
      end
  end.

(** [convertInputToMarathiAsync] *)
Definition convertInputToMarathiAsync (env : Env) (page : Loader) (text : jsstring)
  : Outcome (jsstring * Loader) :=
  match text with
  | [] => Settled (text, page)
  | _ => transliterateTextAsync env page text
  end.

(** [convertToMarathi] on a string ([Some]) or on [null] or [undefined]
    ([None]); a number argument is outside the model. *)
Definition convertToMarathi (value : option jsstring) : jsstring :=
  match value with
  | None => []
  | Some str =>
    if isMarathi str then convertNumbersToMarathi str
    else transliterateText str
  end.

(** [convertToMarathiAsync], on the same arguments. *)
Definition convertToMarathiAsync (env : Env) (page : Loader) (value : option jsstring)
  : Outcome (jsstring * Loader) :=
  match value with
  | None => Settled ([], page)
  | Some str =>
    if isMarathi str then Settled (convertNumbersToMarathi str, page)
    else transliterateTextAsync env page str
  end.

End MarathiText.

Import MarathiText.

(** *** The phonetic transducer, word by word *)

Module PhoneticWords.

(** The callback of [transliterateEnglishToMarathiPhonetic]. *)
Definition phoneticPiece (word : jsstring) : jsstring :=
  if isSeparator word then word
  else if hasDevanagari word then word
  else if isPureNumber word then word
  else phoneticTransliterate word.

Definition transliterateEnglishToMarathiPhonetic (text : jsstring) : jsstring :=
  match text with
  | [] => text
  | _ =>
    if hasDevanagari text then text
    else concat (map phoneticPiece (splitWords text))
  end.

End PhoneticWords.

Import PhoneticWords.

(** *** utils/transliterate: the rest of the module *)

Module TransliterateMore.

(** [transliterateToMarathi], the synchronous wrapper: the text as it is. *)
Definition transliterateToMarathi (text : jsstring) : jsstring :=
  match text with
  | [] => text
  | _ => if hasDevanagari text then text else text
  end.

(** An answer of the backend that [transliterateWord] accepts: not empty,
    different from what was sent, with a Devanagari unit. *)
Definition accepted (aksharamukha : Backend) (format : Format) (nativize : bool)
    (preprocessed : jsstring) : option jsstring :=
  match processAsync aksharamukha format preprocessed nativize with
  | Some result =>
    if negb (str_eqb result []) && negb (str_eqb result preprocessed)
       && hasDevanagari result
    then Some result else None
  | None => None
  end.

(** The first accepted answer among the four attempts with [nativize], in
    the order of [attempts]. *)
Definition firstNativized (aksharamukha : Backend) (preprocessed : jsstring)
  : option jsstring :=
  match accepted aksharamukha IAST true preprocessed with
  | Some r => Some r
  | None =>
    match accepted aksharamukha ITRANS true preprocessed with
    | Some r => Some r
    | None =>
      match accepted aksharamukha autodetect true preprocessed with
      | Some r => Some r
      | None => accepted aksharamukha Latin true preprocessed
      end
    end
  end.

(** A piece of [splitWords]: free of white space and punctuation, or a run
    of white space, or one punctuation unit. *)
Definition isWordPiece (p : jsstring) : bool :=
  forallb (fun c => negb (isSpace c) && negb (isPunct c)) p.

Definition isSpaceRun (p : jsstring) : bool :=
  match p with
  | [] => false
  | _ => forallb isSpace p
  end.

Definition isPunctUnit (p : jsstring) : bool :=
  match p with
  | [c] => isPunct c
  | _ => false
  end.

(** A list of pieces that starts and ends with a word piece (which may be
    empty) and has one separator between any two neighbouring word
    pieces. *)
Fixpoint wordsAndSeparators (pieces : list jsstring) : bool :=
  match pieces with
  | [] => false
  | [w] => isWordPiece w
  | w :: sep :: pieces' =>
    isWordPiece w && (isSpaceRun sep || isPunctUnit sep) && wordsAndSeparators pieces'
  end.

(** No answer of the backend is one that [transliterateWord] accepts. *)
Definition useless (aksharamukha : Backend) : Prop :=
  forall format nativize preprocessed,
    accepted aksharamukha format nativize preprocessed = None.

(** The piece as the dictionary has it, or as it is. *)
Definition dictionaryOnly (word : jsstring) : jsstring :=
  match dictionaryLookup word with
  | Some v => v
  | None => word
  end.

End TransliterateMore.

Import TransliterateMore.

(** *** components/InvoicePreview: dates *)

Module Dates.

(** [d.replace(/\//g, '-')] *)
Definition slashesToHyphens (d : jsstring) : jsstring :=
  map (fun c => if c =? ch "/" then ch "-" else c) d.

Definition isDateSep (c : N) : bool := (c =? ch "/") || (c =? ch "-").

(** Two digits, a slash or hyphen, two digits, a slash or hyphen, four
    digits, and nothing else. *)
Definition isDayFirst (d : jsstring) : bool :=
  match d with
  | [d1; d2; s1; m1; m2; s2; y1; y2; y3; y4] =>
    isDigit d1 && isDigit d2 && isDateSep s1 && isDigit m1 && isDigit m2
    && isDateSep s2 && isDigit y1 && isDigit y2 && isDigit y3 && isDigit y4
  | _ => false
  end.

(** Four digits, a hyphen, two digits, a hyphen, two digits, and nothing
    else. *)
Definition isYearFirst (d : jsstring) : bool :=
  match d with
  | [y1; y2; y3; y4; s1; m1; m2; s2; d1; d2] =>
    isDigit y1 && isDigit y2 && isDigit y3 && isDigit y4 && (s1 =? ch "-")
    && isDigit m1 && isDigit m2 && (s2 =? ch "-") && isDigit d1 && isDigit d2
  | _ => false
  end.

(** [formatDate] *)
Definition formatDate (d : jsstring) : jsstring :=
  match d with
  | [] => []
  | _ =>
    if isDayFirst d then slashesToHyphens d
    else if isYearFirst d then
      match d with
      | [y1; y2; y3; y4; _; m1; m2; _; d1; d2] =>
        [d1; d2] ++ u "-" ++ [m1; m2] ++ u "-" ++ [y1; y2; y3; y4]
      | _ => d
      end
    else d
  end.

(** [extractDateFromHeader]: the leading day and month of a column header,
    or [null]. *)
Definition extractDateFromHeader (header : jsstring) : option jsstring :=
  match header with
  | d1 :: d2 :: s :: m1 :: m2 :: _ =>
    if isDigit d1 && isDigit d2 && (s =? ch "-") && isDigit m1 && isDigit m2
    then Some [d1; d2; s; m1; m2] else None
  | _ => None
  end.

(** One entry of [dayGroups] in [parseInvoiceExcel]. *)
Record DayGroup := {
  date : jsstring;
  showIdx : nat;
  audIdx : nat;
  collIdx : nat
}.

(** The [for] loop over the header row that collects the day columns; [i]
    is the index of the first header of [headers], and [skip] counts the
    columns still to pass over after [i += 2].  A header cell is a string,
    the empty string for a missing one. *)
Fixpoint dayGroupsLoop (headers : list jsstring) (i skip : nat) : list DayGroup :=
  match headers with
  | [] => []
  | header :: headers' =>
    match skip with
    | S skip' => dayGroupsLoop headers' (S i) skip'
    | O =>
      match extractDateFromHeader header with
      | Some d =>
        {| date := d; showIdx := i; audIdx := i + 1; collIdx := i + 2 |}
          :: dayGroupsLoop headers' (S i) 2
      | None => dayGroupsLoop headers' (S i) 0
      end
    end
  end.

Definition dayGroups (headerRow : list jsstring) : list DayGroup :=
  dayGroupsLoop headerRow 0 0.

(** Each group starts after the three columns of the one before it. *)
Fixpoint apart (groups : list DayGroup) : Prop :=
  match groups with
  | g :: ((g' :: _) as groups') => (collIdx g < showIdx g')%nat /\ apart groups'
  | _ => True
  end.

End Dates.

Import Dates.

(** *** app/create-invoice/page: the page that reads Devanagari digits *)

(** The later version of the page reads every field with
    [parseMarathiNumber]; its calculation functions are otherwise those of
    [CreateInvoice]. *)
Module MarathiPage.

Local Open Scope js_scope.

(** [parseMarathiNumber(invoiceData[key] || '0')] *)
Definition marathiField (invoiceData : gmap string jsstring) (key : string) : number :=
  parseMarathiNumber match invoiceData !! key with
                     | Some ((_ :: _) as v) => v
                     | _ => u "0"
                     end.

Definition calculateTotalExpenses (invoiceData : gmap string jsstring) : MonetaryAmount :=
  let totalPaise := ofZ 0 in
  let totalPaise :=
    fold_left (fun totalPaise i =>
      let rs := marathiField invoiceData ("expense" +:+ pretty i +:+ "_rs") in
      let paise := marathiField invoiceData ("expense" +:+ pretty i +:+ "_paise") in
      totalPaise + ((rs * ofZ 100) + paise)) (seq 0 8) totalPaise in
  let totalPaise :=
    fold_left (fun totalPaise i =>
      let rs := marathiField invoiceData ("empty" +:+ pretty i +:+ "_rs") in
      let paise := marathiField invoiceData ("empty" +:+ pretty i +:+ "_paise") in
      totalPaise + ((rs * ofZ 100) + paise)) (seq 0 5) totalPaise in
  let totalRs := Math_floor (totalPaise / ofZ 100) in
  let remainingPaise := totalPaise %% ofZ 100 in
  {| rs := Some totalRs; paise := Some remainingPaise |}.

Definition calculateRowTotal (invoiceData : gmap string jsstring) (rowIndex : nat)
  : MonetaryAmount :=
  let piece := marathiField invoiceData ("row" +:+ pretty rowIndex +:+ "_item") in
  let crates := marathiField invoiceData ("row" +:+ pretty rowIndex +:+ "_piece") in
  let perUnitPrice := marathiField invoiceData ("row" +:+ pretty rowIndex +:+ "_price") in
  let quantity := if piece > ofZ 0 then piece else crates in
  if (quantity === ofZ 0) || (perUnitPrice === ofZ 0) then blank
  else
    let totalPaise := Math_round (quantity * perUnitPrice * ofZ 100) in
    let totalRs := Math_floor (totalPaise / ofZ 100) in
    let remainingPaise := totalPaise %% ofZ 100 in
    {| rs := Some totalRs; paise := Some remainingPaise |}.

Definition calculateTotalSales (invoiceData : gmap string jsstring) : MonetaryAmount :=
  let totalPaise :=
    fold_left (fun totalPaise i =>
      let rowTotal := calculateRowTotal invoiceData i in
      match rs rowTotal, paise rowTotal with
      | Some r, Some p => totalPaise + ((r * ofZ 100) + p)
      | _, _ => totalPaise
      end) (seq 0 13) (ofZ 0) in
  if totalPaise === ofZ 0 then blank
  else
    let totalRs := Math_floor (totalPaise / ofZ 100) in
    let remainingPaise := totalPaise %% ofZ 100 in
    {| rs := Some totalRs; paise := Some remainingPaise |}.

Definition calculateNetBalance (invoiceData : gmap string jsstring) : NetBalance :=
  let totalSales := calculateTotalSales invoiceData in
  let totalExpenses := calculateTotalExpenses invoiceData in
  match rs totalSales, paise totalSales with
  | Some sRs, Some sPaise =>
    let salesPaise := (sRs * ofZ 100) + sPaise in
    let expensesPaise :=
      (default (ofZ 0) (rs totalExpenses) * ofZ 100)
      + default (ofZ 0) (paise totalExpenses) in
    let netPaise := salesPaise - expensesPaise in
    let netRs := Math_floor (Math_abs netPaise / ofZ 100) in
    let netRemainingPaise := Math_abs netPaise %% ofZ 100 in
    {| netRs := Some netRs; netPaise := Some netRemainingPaise;
       isNegative := netPaise < ofZ 0 |}
  | _, _ => {| netRs := None; netPaise := None; isNegative := false |}
  end.

(** A field with its digits in ASCII and its commas removed. *)
Definition plainDigits (text : jsstring) : jsstring :=
  stripCommas (marathiToEnglish text).

End MarathiPage.

(** *** Numbers as text *)

Module NumberText.

Local Open Scope Z_scope.

(** The code unit of the decimal digit [d]. *)
Definition digitUnit (d : Z) : N := Z.to_N (48 + d).

(** The decimal digits of a whole number that is not negative, last digit
    first into [acc]; [fuel] bounds the number of digits. *)
Fixpoint decimalLoop (fuel : nat) (n : Z) (acc : jsstring) : jsstring :=
  match fuel with
  | O => acc
  | S fuel' =>
    let acc' := digitUnit (n mod 10) :: acc in
    if n / 10 =? 0 then acc' else decimalLoop fuel' (n / 10) acc'
  end.

Definition decimal (n : Z) : jsstring :=
  decimalLoop (S (Z.to_nat (Z.log2 n))) n [].

(** The separators of the grouping used for India, on the digits in
    reverse after the last three: one before every further pair. *)
Fixpoint commaPairs (r : jsstring) : jsstring :=
  match r with
  | x :: r' =>
    match r' with
    | y :: r'' => ch "," :: x :: y :: commaPairs r''
    | [] => [ch ","; x]
    end
  | [] => []
  end.

Definition groupIndian (digits : jsstring) : jsstring :=
  let r := rev digits in
  rev (take 3 r ++ commaPairs (drop 3 r)).

(** [x.toLocaleString('en-IN', {minimumFractionDigits: 2,
    maximumFractionDigits: 2})]: the nearest hundredth, a tie going away
    from zero, the whole part grouped as 12,34,567 and two decimals. *)
Definition toLocaleString (x : number) : jsstring :=
  match x with
  | NaN => u "NaN"
  | PInf => u "∞"
  | NInf => u "-∞"
  | Fin q =>
    let n := Qfloor (Qabs q * 100 + (1 # 2)) in
    (if Qltb q 0 then u "-" else [])
    ++ groupIndian (decimal (n / 100))
    ++ u "." ++ [digitUnit (n mod 100 / 10); digitUnit (n mod 10)]
  end.

(** [formatAmount] of the page. *)
Definition formatAmount (rs paise : option number) (isNegative : bool) : jsstring :=
  match rs, paise with
  | Some rs, Some paise =>
    let totalPaise := jadd (jmul rs (ofZ 100)) paise in
    let amount := jdiv totalPaise (ofZ 100) in
    let amount := if isNegative then jneg (Math_abs amount) else amount in
    if jeq amount (ofZ 0) then []
    else englishToMarathi (toLocaleString amount)
  | _, _ => []
  end.

(** [formatCurrencyValue] of the preview: nothing for [NaN]. *)
Definition formatCurrencyValue (value : number) : jsstring :=
  if negb (truthy value) && negb (jeq value (ofZ 0)) then []
  else englishToMarathi (toLocaleString value).

(** A row of the goods table as the preview reads it: [row.amount],
    [row.rs] and [row.paise], each a string or [undefined]. *)
Record GoodsRow := {
  amount : option jsstring;
  rowRs : option jsstring;
  rowPaise : option jsstring
}.

(** [String(v || '0')] for a string or [undefined]. *)
Definition textOrZero (v : option jsstring) : jsstring :=
  match v with
  | Some ((_ :: _) as s) => s
  | _ => u "0"
  end.

(** [parseAmountToNumber] of the preview. *)
Definition parseAmountToNumber (row : GoodsRow) : number :=
  match amount row with
  | Some ((_ :: _) as a) => parseMarathiNumber a
  | _ =>
    match rowRs row, rowPaise row with
    | None, None => ofZ 0
    | _, _ =>
      let rs := parseMarathiNumber (textOrZero (rowRs row)) in
      let paise := parseMarathiNumber (textOrZero (rowPaise row)) in
      jadd rs (jdiv paise (ofZ 100))
    end
  end.


(** The rows that [prepareInvoiceDataForPreview] hands over as
    [goodsTable]: one for every row of the page with a total, with the
    total formatted as its [amount].  The fields [details], [piece],
    [crates] and [price] of a row, which the readers of amounts do not look
    at, are left out. *)
Definition goodsTable (invoiceData : gmap string jsstring) : list GoodsRow :=
  flat_map (fun i =>
    let rowTotal := MarathiPage.calculateRowTotal invoiceData i in
    match rs rowTotal, paise rowTotal with
    | Some _, Some _ =>
      [ {| amount := Some (formatAmount (rs rowTotal) (paise rowTotal) false);
           rowRs := None; rowPaise := None |} ]
    | _, _ => []
    end) (seq 0 13).

(** [goodsTotalAmount] of the preview. *)
Definition goodsTotalAmount (goodsTable : list GoodsRow) : number :=
  fold_left (fun sum row => jadd sum (parseAmountToNumber row)) goodsTable (ofZ 0).

(** [calculateTotalExpensesFromData] of the preview, for data without an
    [expenses] array: the eight expense fields. *)
Definition calculateTotalExpensesFromData (data : gmap string jsstring) : number :=
  let totalPaise :=
    fold_left (fun totalPaise i =>
      let rs := MarathiPage.marathiField data ("expense" +:+ pretty i +:+ "_rs") in
      let paise := MarathiPage.marathiField data ("expense" +:+ pretty i +:+ "_paise") in
      jadd totalPaise (jadd (jmul rs (ofZ 100)) paise)) (seq 0 8) (ofZ 0) in
  jdiv totalPaise (ofZ 100).

End NumberText.

Import NumberText.

(** *** components/InvoicePreview: reading the tax inputs *)

Module PreviewInputs.

(** What [safeNumber] is handed: a number, a string, or anything else. *)
Inductive jsvalue := VNumber (n : number) | VString (s : jsstring) | VOther.

Definition safeNumber (val : jsvalue) : number :=
  match val with
  | VNumber n => n
  | VString s => orElse (parseFloat (stripCommas s)) (ofZ 0)
  | VOther => ofZ 0
  end.

End PreviewInputs.

Import PreviewInputs.

(** *** app/reports/page: the total an invoice counts for *)

Module Reports.

(** The four fields of [inv.data] that the reports look at; [None] is a
    field that is [undefined] or [null], and a missing [data] object has
    none of them. *)
Record InvoiceTotals := {
  grandTotalRs : option jsvalue;
  grandTotal : option jsvalue;
  netAmount : option jsvalue;
  totalCollection : option jsvalue
}.

(** The class of [/[^0-9.\-]/g] negated: what the cleaning keeps. *)
Definition keptInTotal (c : N) : bool :=
  isDigit c || (c =? ch ".") || (c =? ch "-").

Definition getGrandTotalFromInvoice (data : InvoiceTotals) : number :=
  let raw :=
    match grandTotalRs data with
    | Some v => v
    | None =>
      match grandTotal data with
      | Some v => v
      | None =>
        match netAmount data with
        | Some v => v
        | None =>
          match totalCollection data with
          | Some v => v
          | None => VNumber (ofZ 0)
          end
        end
      end
    end in
  match raw with
  | VNumber n => n
  | VString s =>
    match trim s with
    | [] => ofZ 0
    | _ =>
      let cleaned := List.filter keptInTotal s in
      let parsed := parseFloat cleaned in
      if isNaN parsed then ofZ 0 else parsed
    end
  | VOther => ofZ 0
  end.

(** What [saveInvoice] of the page stores in these four fields:
    [netBalance.rs ?? ''] as [grandTotalRs], and the texts
    [netBalanceValue] and [totalSalesValue], which come from [toFixed(2)]
    and are taken as given. *)
Definition savedTotals (netBalance : NetBalance) (totalSalesValue netBalanceValue : jsstring)
  : InvoiceTotals :=
  {| grandTotalRs := Some match netRs netBalance with
                          | Some r => VNumber r
                          | None => VString []
                          end;
     grandTotal := Some (VString netBalanceValue);
     netAmount := Some (VString netBalanceValue);
     totalCollection := Some (VString totalSalesValue) |}.

End Reports.

Import Reports.

(** *** app/create-invoice/page: typing an expense amount *)

Section ExpenseEntry.

(** [Number.prototype.toString], which the page applies to whole numbers
    only. *)
Variable Number_toString : number -> jsstring.

(** [s.indexOf(c)], counted from [i]. *)
Fixpoint indexOf (s : jsstring) (c : N) (i : Z) : Z :=
  match s with
  | [] => (-1)%Z
  | x :: s' => if x =? c then i else indexOf s' c (i + 1)%Z
  end.

(** [parseDecimalAmount]: the rupee and paise texts stored for an amount
    typed as a decimal number. *)
Definition parseDecimalAmount (amountStr : jsstring) : jsstring * jsstring :=
  match trim amountStr with
  | [] => ([], [])
  | _ =>
    let englishStr :=
      concat (map (fun char =>
                     if isMarathiDigit char
                     then Number_toString (ofZ (indexOf (u "०१२३४५६७८९") char 0))
                     else [char]) amountStr) in
    let amount :=
      parseFloat (List.filter (fun c => isDigit c || (c =? ch ".")) englishStr) in
    if isNaN amount then ([], [])
    else
      let rs := Number_toString (Math_floor amount) in
      let paise :=
        Number_toString (Math_round (jmul (jsub amount (Math_floor amount)) (ofZ 100))) in
      (rs, paise)
  end.

(** [toString] writes a whole number from 0 up to 2^53, where every whole
    number is a value of its own, as its decimal digits. *)
Definition printsWhole : Prop :=
  forall n : Z, (0 <= n < 2 ^ 53)%Z -> Number_toString (ofZ n) = decimal n.

(** [x.toFixed(2)]: [toString] for a value that is not finite or is 1e21 or
    more in magnitude; otherwise the sign of a negative [x], then the
    integer [n] with [n / 100] nearest to the magnitude, the larger one on a
    tie, written with two decimals. *)
Definition toFixedText (x : number) : jsstring :=
  match x with
  | Fin q =>
    if Qle_bool (inject_Z (10 ^ 21)) (Qabs q) then Number_toString x
    else
      let n := Qfloor (Qabs q * 100 + (1 # 2)) in
      (if Qltb q 0 then u "-" else [])
      ++ decimal (n / 100)
      ++ u "." ++ [digitUnit (n mod 100 / 10); digitUnit (n mod 10)]
  | _ => Number_toString x
  end.

(** [numberToMarathi] of utils/marathiDigits; [None] is [null] or
    [undefined]. *)
Definition numberToMarathi (num : option number) : jsstring :=
  match num with
  | None => []
  | Some num => englishToMarathi (Number_toString num)
  end.

(** [formatMarathiNumber] with its default of two decimals. *)
Definition formatMarathiNumber (num : option number) : jsstring :=
  match num with
  | None => []
  | Some num => englishToMarathi (toFixedText num)
  end.

(** [formatMarathiCurrency] *)
Definition formatMarathiCurrency (value : option number) : jsstring :=
  match value with
  | None => []
  | Some v => if jeq v (ofZ 0) then [] else formatMarathiNumber value
  end.

(** [combineAmount] on two texts: the decimal text shown for the stored
    rupees and paise. *)
Definition combineAmount (rs paise : jsstring) : jsstring :=
  let rsNum := parseMarathiNumber rs in
  let paiseNum := parseMarathiNumber paise in
  if jeq rsNum (ofZ 0) && jeq paiseNum (ofZ 0) then []
  else
    let total := jadd rsNum (jdiv paiseNum (ofZ 100)) in
    toFixedText total.

End ExpenseEntry.

Example digits_demo :
  marathiToEnglish (u "१२७") = u "127" /\ englishToMarathi (u "127") = u "१२७"
  /\ u "०" = [0x0966] /\ u "९" = [0x096F].
Proof. vm_compute. repeat split. Qed.

Example parse_demo :
  parseMarathiNumber (u "१२,३४५.६७") = Fin (1234567 # 100)
  /\ parseMarathiNumber (u "abc") = ofZ 0
  /\ parseMarathiNumber [] = ofZ 0
  /\ parseFloat (u "  -12.5e1xyz") = ofZ (-125)
  /\ parseFloat (u ".5") = Fin (1 # 2)
  /\ parseFloat (u "5.") = ofZ 5
  /\ parseFloat (u ".") = NaN
  /\ parseFloat (u "1e") = ofZ 1
  /\ parseFloat (u "-Infinity") = NInf.
Proof. vm_compute. repeat split. Qed.

Example words_demo :
  amountToWordsWithPaise (Fin (12345 # 10))
    = u "One Thousand Two Hundred and Thirty Four Rupees and Fifty Paise only"
  /\ amountToWordsWithPaise (Fin (1023456789 # 100))
    = u "One Crore Two Lakh Thirty Four Thousand Five Hundred and Sixty Seven Rupees and Eighty Nine Paise only"
  /\ amountToWordsWithPaise (ofZ 1000000000) = u "Amount too large Rupees only"
  /\ amountToWordsWithPaise (ofZ 0) = u "Zero Rupees only"
  /\ amountToWordsWithPaise NaN = u " only"
  /\ paiseOf (Fin (999 # 1000)) = ofZ 100
  /\ cgstVal (gstAmounts CGST_SGST (ofZ 18) (ofZ 1000)) = ofZ 90
  /\ netAmountVal (gstAmounts CGST_SGST (ofZ 18) (ofZ 1000)) = ofZ 1180.
Proof. vm_compute. repeat split. Qed.

Example invoice_demo :
  calculateRowTotal {[ "row0_item" := u "5"; "row0_price" := u "10" ]}%string 0
    = {| rs := Some (ofZ 50); paise := Some (ofZ 0) |}
  /\ calculateRowTotal {[ "row0_item" := u "0"; "row0_price" := u "100" ]}%string 0 = blank
  /\ calculateTotalSales ∅ = blank
  /\ calculateTotalExpenses ∅ = {| rs := Some (ofZ 0); paise := Some (ofZ 0) |}
  /\ calculateTotalSales {[ "row0_item" := u "1"; "row0_price" := u "0.001" ]}%string = blank
  /\ calculateRowTotal {[ "row0_item" := u "1"; "row0_price" := u "0.001" ]}%string 0
     = {| rs := Some (ofZ 0); paise := Some (ofZ 0) |}
  /\ calculateNetBalance {[ "row0_item" := u "5"; "row0_price" := u "10"; "expense0_rs" := u "70" ]}%string
     = {| netRs := Some (ofZ 20); netPaise := Some (ofZ 0); isNegative := true |}
  /\ calculateTotalExpenses {[ "expense0_rs" := u "-0.5" ]}%string
     = {| rs := Some (ofZ (-1)); paise := Some (ofZ (-50)) |}
  /\ calculateRowTotal {[ "row12_piece" := u "2"; "row12_price" := u "1.25" ]}%string 12
     = {| rs := Some (ofZ 2); paise := Some (ofZ 50) |}
  /\ calculateTotalSales
       {[ "row0_item" := u "5"; "row0_price" := u "10";
          "row12_piece" := u "2"; "row12_price" := u "1.25" ]}%string
     = {| rs := Some (ofZ 52); paise := Some (ofZ 50) |}.
Proof. vm_compute. repeat split. Qed.

Example phonetic_demo :
  phoneticTransliterate (u "Delhi") = u "दएलहइ"
  /\ phoneticTransliterate (u "Mumbai") = u "मउम्बई"
  /\ phoneticTransliterate (u "fax 12") = u "fअx 12"
  /\ splitWords (u "a, b  c") = [u "a"; u ","; []; u " "; u "b"; u "  "; u "c"]
  /\ transliterateWord (u "MuMbAi") None = u "मुंबई"
  /\ transliterateWord (u "Pune") None = u "Pune".
Proof. vm_compute. repeat split. Qed.

(** * Properties *)

(** ** Digit mapper *)

Section DigitMapper.

Ltac table_cases c :=
  repeat match goal with
  | |- context [N.eqb ?k c] => destruct (N.eqb_spec k c) as [<- | ?]; [reflexivity |]
  end.

Lemma mapUnit_marathi c : mapUnit MARATHI_TO_ENGLISH c = [toLatinUnit c].
Proof.
  unfold mapUnit.
  let t := eval vm_compute in MARATHI_TO_ENGLISH in change MARATHI_TO_ENGLISH with t.
  cbn [tableGet]. table_cases c.
  unfold toLatinUnit, isMarathiDigit.
  destruct (N.leb_spec 0x0966 c), (N.leb_spec c 0x096F); cbn [andb]; try reflexivity; lia.
Qed.

Lemma mapUnit_english c : mapUnit ENGLISH_TO_MARATHI c = [toDevanagariUnit c].
Proof.
  unfold mapUnit.
  let t := eval vm_compute in ENGLISH_TO_MARATHI in change ENGLISH_TO_MARATHI with t.
  cbn [tableGet]. table_cases c.
  unfold toDevanagariUnit, isDigit.
  destruct (N.leb_spec 0x30 c), (N.leb_spec c 0x39); cbn [andb]; try reflexivity; lia.
Qed.

Lemma mapUnits_map t f text :
  (forall c, mapUnit t c = [f c]) -> mapUnits t text = map f text.
Proof.
  intros Hf. unfold mapUnits.
  induction text as [| c r IH]; cbn [map concat]; [reflexivity |].
  rewrite Hf, IH. reflexivity.
Qed.

Lemma marathiToEnglish_map text : marathiToEnglish text = map toLatinUnit text.
Proof.
  destruct text as [| c r]; [reflexivity |].
  unfold marathiToEnglish. apply mapUnits_map, mapUnit_marathi.
Qed.

Lemma englishToMarathi_map text : englishToMarathi text = map toDevanagariUnit text.
Proof.
  destruct text as [| c r]; [reflexivity |].
  unfold englishToMarathi. apply mapUnits_map, mapUnit_english.
Qed.

Lemma toLatinUnit_not_marathi c : isMarathiDigit (toLatinUnit c) = false.
Proof.
  unfold toLatinUnit. destruct (isMarathiDigit c) eqn:E; [| exact E].
  unfold isMarathiDigit in *.
  apply andb_true_iff in E as [H1%N.leb_le H2%N.leb_le].
  apply andb_false_iff. left. apply N.leb_gt. lia.
Qed.

Lemma toDevanagariUnit_not_digit c : isDigit (toDevanagariUnit c) = false.
Proof.
  unfold toDevanagariUnit. destruct (isDigit c) eqn:E; [| exact E].
  unfold isDigit in *.
  apply andb_true_iff in E as [H1%N.leb_le H2%N.leb_le].
  apply andb_false_iff. right. apply N.leb_gt. lia.
Qed.

Lemma toLatinUnit_idem c : toLatinUnit (toLatinUnit c) = toLatinUnit c.
Proof.
  unfold toLatinUnit at 1. rewrite toLatinUnit_not_marathi. reflexivity.
Qed.

Lemma toDevanagariUnit_idem c : toDevanagariUnit (toDevanagariUnit c) = toDevanagariUnit c.
Proof.
  unfold toDevanagariUnit at 1. rewrite toDevanagariUnit_not_digit. reflexivity.
Qed.

Lemma round_trip_unit c :
  toDevanagariUnit (toLatinUnit (toDevanagariUnit c)) = toDevanagariUnit c.
Proof.
  unfold toDevanagariUnit at 2 3. destruct (isDigit c) eqn:E.
  - unfold isDigit in E. apply andb_true_iff in E as [H1%N.leb_le H2%N.leb_le].
    assert (Hm : isMarathiDigit (c - 0x30 + 0x0966) = true).
    { unfold isMarathiDigit. apply andb_true_iff. split; apply N.leb_le; lia. }
    unfold toLatinUnit. rewrite Hm.
    assert (Hd : isDigit (c - 0x30 + 0x0966 - 0x0966 + 0x30) = true).
    { unfold isDigit. apply andb_true_iff. split; apply N.leb_le; lia. }
    unfold toDevanagariUnit. rewrite Hd. lia.
  - unfold toLatinUnit. destruct (isMarathiDigit c) eqn:Em.
    + unfold isMarathiDigit in Em.
      apply andb_true_iff in Em as [H1%N.leb_le H2%N.leb_le].
      assert (Hd : isDigit (c - 0x0966 + 0x30) = true).
      { unfold isDigit. apply andb_true_iff. split; apply N.leb_le; lia. }
      unfold toDevanagariUnit. rewrite Hd. lia.
    + unfold toDevanagariUnit. rewrite E. reflexivity.
Qed.

End DigitMapper.

(** C10.  For every string of ASCII digits the round trip
    [englishToMarathi (marathiToEnglish (englishToMarathi s))] is
    [englishToMarathi s]; [marathiToEnglish] and [englishToMarathi] are
    idempotent on every string; and each maps a string unit by unit, leaving
    every unit that is not a digit of the script it converts from
    unchanged. *)
Theorem digit_mapper_round_trip_idempotent :
  (forall s : jsstring, Forall (fun c => isDigit c = true) s ->
     englishToMarathi (marathiToEnglish (englishToMarathi s)) = englishToMarathi s)
  /\ (forall x : jsstring, marathiToEnglish (marathiToEnglish x) = marathiToEnglish x)
  /\ (forall x : jsstring, englishToMarathi (englishToMarathi x) = englishToMarathi x)
  /\ (forall x : jsstring,
        length (marathiToEnglish x) = length x
        /\ forall i c, x !! i = Some c -> isMarathiDigit c = false ->
                       marathiToEnglish x !! i = Some c)
  /\ (forall x : jsstring,
        length (englishToMarathi x) = length x
        /\ forall i c, x !! i = Some c -> isDigit c = false ->
                       englishToMarathi x !! i = Some c).
Proof.
  repeat split.
  - intros s _. rewrite !englishToMarathi_map, marathiToEnglish_map, !map_map.
    apply map_ext. intros c. apply round_trip_unit.
  - intros x. rewrite !marathiToEnglish_map, map_map.
    apply map_ext. intros c. apply toLatinUnit_idem.
  - intros x. rewrite !englishToMarathi_map, map_map.
    apply map_ext. intros c. apply toDevanagariUnit_idem.
  - rewrite marathiToEnglish_map. apply length_map.
  - intros i c Hi Hc. rewrite marathiToEnglish_map, list_lookup_fmap, Hi.
    cbn. unfold toLatinUnit. rewrite Hc. reflexivity.
  - rewrite englishToMarathi_map. apply length_map.
  - intros i c Hi Hc. rewrite englishToMarathi_map, list_lookup_fmap, Hi.
    cbn. unfold toDevanagariUnit. rewrite Hc. reflexivity.
Qed.

Lemma digit_mapper_round_trip_idempotent_witness :
  Forall (fun c => isDigit c = true) (u "127")
  /\ englishToMarathi (marathiToEnglish (englishToMarathi (u "127"))) = u "१२७".
Proof.
  split.
  - repeat constructor.
  - exact (proj1 digit_mapper_round_trip_idempotent (u "127")
             ltac:(repeat constructor)).
Defined.

(** ** Arithmetic of the number model *)

Section NumberFacts.

Local Open Scope Q_scope.

Lemma inject_Z_pos m : (0 < m)%Z -> 0 < inject_Z m.
Proof. intros H. change (inject_Z 0 < inject_Z m). rewrite <- Zlt_Qlt. exact H. Qed.

Lemma inject_Z_nonneg m : (0 <= m)%Z -> 0 <= inject_Z m.
Proof. intros H. change (inject_Z 0 <= inject_Z m). rewrite <- Zle_Qle. exact H. Qed.

Lemma Qred_inject_Z z : Qred (inject_Z z) = inject_Z z.
Proof.
  unfold Qred, inject_Z.
  generalize (Z.ggcd_gcd z 1) (Z.ggcd_correct_divisors z 1).
  destruct (Z.ggcd z 1) as [g [aa bb]]. cbn [fst snd].
  rewrite Z.gcd_1_r. intros -> [Ha Hb].
  rewrite Z.mul_1_l in Ha, Hb. subst. reflexivity.
Qed.

Lemma fin_eq q q' : q == q' -> fin q = fin q'.
Proof. intros H. unfold fin. f_equal. apply Qred_complete, H. Qed.

Lemma fin_ofZ q z : q == inject_Z z -> fin q = ofZ z.
Proof.
  intros H. unfold fin, ofZ. rewrite (Qred_complete _ _ H), Qred_inject_Z.
  reflexivity.
Qed.

Lemma Qfloor_unique q z : inject_Z z <= q -> q < inject_Z (z + 1) -> Qfloor q = z.
Proof.
  intros H1 H2.
  pose proof (Qfloor_le q) as H3. pose proof (Qlt_floor q) as H4.
  assert (z < Qfloor q + 1)%Z by (rewrite Zlt_Qlt; lra).
  assert (Qfloor q < z + 1)%Z by (rewrite Zlt_Qlt; lra).
  lia.
Qed.

Lemma Qfloor_add_Z q z : Qfloor (q + inject_Z z) = (Qfloor q + z)%Z.
Proof.
  apply Qfloor_unique.
  - rewrite inject_Z_plus. pose proof (Qfloor_le q). lra.
  - pose proof (Qlt_floor q) as H. rewrite !inject_Z_plus in *. lra.
Qed.

(** Dividing by a positive whole number commutes with taking the floor. *)
Lemma Qfloor_div_Z q m :
  (0 < m)%Z -> Qfloor (q / inject_Z m) = (Qfloor q / m)%Z.
Proof.
  intros Hm.
  pose proof (inject_Z_pos m Hm) as Hm'.
  pose proof (Qfloor_le q) as H1. pose proof (Qlt_floor q) as H2.
  pose proof (Z.div_mod (Qfloor q) m ltac:(lia)) as Hdm.
  pose proof (Z.mod_pos_bound (Qfloor q) m Hm) as Hb.
  set (f := Qfloor q) in *. set (k := (f / m)%Z) in *.
  assert (Hk1 : inject_Z m * inject_Z k <= inject_Z f).
  { rewrite <- inject_Z_mult, <- Zle_Qle. lia. }
  assert (Hk2 : inject_Z f + 1 <= inject_Z m * inject_Z (k + 1)).
  { change 1 with (inject_Z 1). rewrite <- inject_Z_plus, <- inject_Z_mult, <- Zle_Qle. lia. }
  apply Qfloor_unique.
  - apply Qle_shift_div_l; [exact Hm' |]. lra.
  - apply Qlt_shift_div_r; [exact Hm' |].
    change (f + 1)%Z with (f + 1)%Z in H2. rewrite inject_Z_plus in H2.
    change (inject_Z 1) with 1 in H2. lra.
Qed.

Lemma Qtrunc_nonneg q : 0 <= q -> Qtrunc q = Qfloor q.
Proof.
  intros H. unfold Qtrunc.
  destruct (Qle_bool 0 q) eqn:E; [reflexivity |].
  apply Qle_bool_iff in H. congruence.
Qed.

Lemma truthy_ofZ z : truthy (ofZ z) = negb (z =? 0)%Z.
Proof.
  unfold truthy, ofZ. f_equal. unfold Qeq_bool, inject_Z. cbn.
  rewrite Z.mul_1_r. reflexivity.
Qed.

Lemma jadd_ofZ x y : jadd (ofZ x) (ofZ y) = ofZ (x + y).
Proof. cbn. apply fin_ofZ. rewrite inject_Z_plus. reflexivity. Qed.

Lemma jmul_ofZ x y : jmul (ofZ x) (ofZ y) = ofZ (x * y).
Proof. cbn. apply fin_ofZ. rewrite inject_Z_mult. reflexivity. Qed.

Lemma jneg_ofZ x : jneg (ofZ x) = ofZ (- x).
Proof. cbn. apply fin_ofZ. rewrite inject_Z_opp. reflexivity. Qed.

Lemma jsub_ofZ x y : jsub (ofZ x) (ofZ y) = ofZ (x - y).
Proof. unfold jsub. rewrite jneg_ofZ, jadd_ofZ. reflexivity. Qed.

Lemma Math_floor_fin q : Math_floor (fin q) = ofZ (Qfloor q).
Proof. cbn. rewrite (Qfloor_comp _ _ (Qred_correct q)). reflexivity. Qed.

Lemma Math_abs_ofZ x : Math_abs (ofZ x) = ofZ (Z.abs x).
Proof.
  cbn. apply fin_ofZ. unfold Qabs, inject_Z. reflexivity.
Qed.

Lemma Qeq_bool_inject_Z_0 m : (m <> 0)%Z -> Qeq_bool (inject_Z m) 0 = false.
Proof.
  intros H. unfold Qeq_bool, inject_Z. cbn. rewrite Z.mul_1_r.
  apply Z.eqb_neq, H.
Qed.

Lemma jdiv_Fin_ofZ q m : (m <> 0)%Z -> jdiv (Fin q) (ofZ m) = fin (q / inject_Z m).
Proof. intros H. cbn. rewrite Qeq_bool_inject_Z_0 by exact H. reflexivity. Qed.

Lemma jrem_Fin_ofZ q m :
  (m <> 0)%Z ->
  jrem (Fin q) (ofZ m) = fin (q - inject_Z m * inject_Z (Qtrunc (q / inject_Z m))).
Proof. intros H. cbn. rewrite Qeq_bool_inject_Z_0 by exact H. reflexivity. Qed.

(** [Math.floor(x / m)] of a finite [x] and a positive whole [m]. *)
Lemma floor_div q m :
  (0 < m)%Z -> Math_floor (jdiv (Fin q) (ofZ m)) = ofZ (Qfloor q / m).
Proof.
  intros H. rewrite jdiv_Fin_ofZ by lia. rewrite Math_floor_fin.
  rewrite Qfloor_div_Z by exact H. reflexivity.
Qed.

(** [Math.floor(x % m)] of a finite [x >= 0] and a positive whole [m]. *)
Lemma floor_rem q m :
  0 <= q -> (0 < m)%Z ->
  Math_floor (jrem (Fin q) (ofZ m)) = ofZ (Qfloor q mod m).
Proof.
  intros Hq Hm.
  pose proof (inject_Z_pos m Hm) as Hm'.
  rewrite jrem_Fin_ofZ by lia. rewrite Math_floor_fin.
  rewrite Qtrunc_nonneg by (apply Qle_shift_div_l; [exact Hm' | lra]).
  rewrite Qfloor_div_Z by exact Hm.
  rewrite <- inject_Z_mult.
  replace (q - inject_Z (m * (Qfloor q / m)))
    with (q + inject_Z (- (m * (Qfloor q / m)))).
  2:{ rewrite inject_Z_opp. reflexivity. }
  rewrite Qfloor_add_Z. f_equal.
  rewrite Z.mod_eq by lia. lia.
Qed.

(** [x % m] of a whole [x >= 0]. *)
Lemma jrem_ofZ z m :
  (0 <= z)%Z -> (0 < m)%Z -> jrem (ofZ z) (ofZ m) = ofZ (z mod m).
Proof.
  intros Hz Hm.
  pose proof (inject_Z_pos m Hm) as Hm'.
  pose proof (inject_Z_nonneg z Hz) as Hz'.
  unfold ofZ at 1. rewrite jrem_Fin_ofZ by lia.
  rewrite Qtrunc_nonneg by (apply Qle_shift_div_l; [exact Hm' | lra]).
  rewrite Qfloor_div_Z by exact Hm. rewrite Qfloor_Z.
  apply fin_ofZ.
  unfold Qminus. rewrite <- inject_Z_mult, <- inject_Z_opp, <- inject_Z_plus.
  rewrite Z.mod_eq by lia. reflexivity.
Qed.

End NumberFacts.

(** Arithmetic on whole numbers, as a rewriting base. *)
Create Rewrite HintDb whole.
#[global] Hint Rewrite jadd_ofZ jmul_ofZ jneg_ofZ jsub_ofZ Math_abs_ofZ truthy_ofZ : whole.

(** ** Invoice calculation model *)

Section Calculation.

Local Open Scope js_scope.

Implicit Types (invoiceData : gmap string jsstring) (key : string).

Lemma numField_unset invoiceData key :
  invoiceData !! key = None -> numField invoiceData key = ofZ 0.
Proof. intros H. unfold numField. rewrite H. vm_compute. reflexivity. Qed.

Lemma numField_text invoiceData key text x :
  invoiceData !! key = Some text -> text <> [] ->
  orElse (parseFloat text) (ofZ 0) = x -> numField invoiceData key = x.
Proof.
  intros H Hne Hx. unfold numField. rewrite H.
  destruct text; [contradiction | exact Hx].
Qed.

Lemma calculateRowTotal_zero invoiceData rowIndex :
  (rowQuantity invoiceData rowIndex === ofZ 0) = true
  \/ (rowPrice invoiceData rowIndex === ofZ 0) = true ->
  calculateRowTotal invoiceData rowIndex = blank.
Proof.
  intros [H | H]; unfold calculateRowTotal; rewrite H;
    [| rewrite orb_true_r]; reflexivity.
Qed.

Lemma jlt_sub_zero x y : (x - y < ofZ 0) = (x < y).
Proof.
  destruct x as [| | | a], y as [| | | b]; try reflexivity.
  cbn. unfold Qltb. f_equal. apply eq_iff_eq_true.
  rewrite !Qle_bool_iff, !Qred_correct. change (inject_Z 0) with 0%Q.
  split; intros H; lra.
Qed.

Lemma netBalanceOf_paise (sRs sPaise : number) (totalExpenses : MonetaryAmount) :
  let totalSales := {| rs := Some sRs; paise := Some sPaise |} in
  let net := Math_abs (inPaise totalSales - inPaise totalExpenses) in
  netBalanceOf totalSales totalExpenses
  = {| netRs := Some (Math_floor (net / ofZ 100));
       netPaise := Some (net %% ofZ 100);
       isNegative := inPaise totalSales < inPaise totalExpenses |}.
Proof.
  cbv zeta. unfold netBalanceOf. cbn [rs paise]. rewrite jlt_sub_zero. reflexivity.
Qed.

Lemma netBalanceOf_whole (sRs sPaise : number) (totalExpenses : MonetaryAmount) (s e : Z) :
  let totalSales := {| rs := Some sRs; paise := Some sPaise |} in
  inPaise totalSales = ofZ s -> inPaise totalExpenses = ofZ e ->
  netBalanceOf totalSales totalExpenses
  = {| netRs := Some (ofZ (Z.abs (s - e) / 100));
       netPaise := Some (ofZ (Z.abs (s - e) mod 100));
       isNegative := (s <? e)%Z |}.
Proof.
  intros totalSales Hs He. subst totalSales.
  rewrite netBalanceOf_paise. cbv zeta. rewrite Hs, He.
  rewrite jsub_ofZ, Math_abs_ofZ.
  unfold ofZ at 1. rewrite floor_div by lia. rewrite Qfloor_Z.
  rewrite jrem_ofZ by lia.
  f_equal. cbn. unfold Qltb, Qle_bool. cbn. rewrite !Z.mul_1_r.
  destruct (Z.leb_spec e s), (Z.ltb_spec s e); try reflexivity; lia.
Qed.

End Calculation.

(** C4.  A row total is blank ([null]) whenever the quantity or the unit
    price is zero or unset, and is 50 rupees 0 paise for quantity 5 at unit
    price 10; total sales is blank when no row is filled in and whenever the
    rows sum to exactly zero; total expenses of an empty form is the zero
    amount, not blank. *)
Theorem blank_and_zero_totals :
  (forall (invoiceData : gmap string jsstring) (rowIndex : nat),
     jeq (rowQuantity invoiceData rowIndex) (ofZ 0) = true
     \/ jeq (rowPrice invoiceData rowIndex) (ofZ 0) = true ->
     calculateRowTotal invoiceData rowIndex = blank)
  /\ (forall (invoiceData : gmap string jsstring) (rowIndex : nat),
     (invoiceData !! ("row" +:+ pretty rowIndex +:+ "_item") = None
      /\ invoiceData !! ("row" +:+ pretty rowIndex +:+ "_piece") = None)
     \/ invoiceData !! ("row" +:+ pretty rowIndex +:+ "_price") = None ->
     calculateRowTotal invoiceData rowIndex = blank)
  /\ (forall (invoiceData : gmap string jsstring) (rowIndex : nat),
     invoiceData !! ("row" +:+ pretty rowIndex +:+ "_item") = Some (u "5") ->
     invoiceData !! ("row" +:+ pretty rowIndex +:+ "_price") = Some (u "10") ->
     calculateRowTotal invoiceData rowIndex
       = {| rs := Some (ofZ 50); paise := Some (ofZ 0) |})
  /\ calculateTotalSales ∅ = blank
  /\ (forall invoiceData : gmap string jsstring,
     jeq (salesPaiseSum invoiceData) (ofZ 0) = true ->
     calculateTotalSales invoiceData = blank)
  /\ calculateTotalExpenses ∅ = {| rs := Some (ofZ 0); paise := Some (ofZ 0) |}.
Proof.
  split; [exact calculateRowTotal_zero |].
  split.
  { intros invoiceData rowIndex [[H1 H2] | H]; apply calculateRowTotal_zero.
    - left. unfold rowQuantity.
      rewrite (numField_unset _ _ H1), (numField_unset _ _ H2). reflexivity.
    - right. unfold rowPrice. rewrite (numField_unset _ _ H). reflexivity. }
  split.
  { intros invoiceData rowIndex H1 H2.
    unfold calculateRowTotal, rowQuantity, rowPrice.
    rewrite (numField_text _ _ _ (ofZ 5) H1) by (try discriminate; reflexivity).
    rewrite (numField_text _ _ _ (ofZ 10) H2) by (try discriminate; reflexivity).
    generalize (numField invoiceData ("row" +:+ pretty rowIndex +:+ "_piece")).
    intros crates. vm_compute. reflexivity. }
  split; [vm_compute; reflexivity |].
  split.
  { intros invoiceData H. unfold calculateTotalSales. rewrite H. reflexivity. }
  vm_compute. reflexivity.
Qed.

Lemma blank_and_zero_totals_witness :
  calculateRowTotal {[ "row0_item" := u "0"; "row0_price" := u "100" ]}%string 0 = blank
  /\ calculateRowTotal {[ "row2_item" := u "5" ]}%string 2 = blank
  /\ calculateRowTotal {[ "row1_item" := u "5"; "row1_price" := u "10" ]}%string 1
     = {| rs := Some (ofZ 50); paise := Some (ofZ 0) |}
  /\ calculateRowTotal {[ "row0_item" := u "1"; "row0_price" := u "0.001" ]}%string 0
     = {| rs := Some (ofZ 0); paise := Some (ofZ 0) |}
  /\ calculateTotalSales {[ "row0_item" := u "1"; "row0_price" := u "0.001" ]}%string = blank.
Proof.
  destruct blank_and_zero_totals as (Hzero & Hunset & Hfifty & _ & Hsum & _).
  split; [apply Hzero; left; vm_compute; reflexivity |].
  split; [apply Hunset; right; vm_compute; reflexivity |].
  split; [apply Hfifty; vm_compute; reflexivity |].
  split; [vm_compute; reflexivity |].
  apply Hsum. vm_compute. reflexivity.
Defined.

(** C6.  The net balance is blank when total sales is blank.  Otherwise,
    with both totals taken in paise, its amount is the absolute value of
    sales minus expenses, split into rupees and paise, and [isNegative]
    holds exactly when sales is less than expenses; for totals that are
    whole numbers of paise below 2^52 in magnitude, where the subtraction is
    exact, the rupees and paise are the quotient and the remainder by 100 of
    that absolute value.  Sales of 50 rupees against expenses of 70 rupees
    give a negative balance of 20 rupees 0 paise. *)
Theorem net_balance_sign_and_magnitude :
  (forall totalSales totalExpenses : MonetaryAmount,
     rs totalSales = None \/ paise totalSales = None ->
     netBalanceOf totalSales totalExpenses
       = {| netRs := None; netPaise := None; isNegative := false |})
  /\ (forall invoiceData : gmap string jsstring,
     calculateTotalSales invoiceData = blank ->
     calculateNetBalance invoiceData
       = {| netRs := None; netPaise := None; isNegative := false |})
  /\ (forall (sRs sPaise : number) (totalExpenses : MonetaryAmount),
     let totalSales := {| rs := Some sRs; paise := Some sPaise |} in
     let net := Math_abs (jsub (inPaise totalSales) (inPaise totalExpenses)) in
     netBalanceOf totalSales totalExpenses
       = {| netRs := Some (Math_floor (jdiv net (ofZ 100)));
            netPaise := Some (jrem net (ofZ 100));
            isNegative := jlt (inPaise totalSales) (inPaise totalExpenses) |})
  /\ (forall (sRs sPaise : number) (totalExpenses : MonetaryAmount) (s e : Z),
     let totalSales := {| rs := Some sRs; paise := Some sPaise |} in
     (Z.abs s < 2 ^ 52)%Z -> (Z.abs e < 2 ^ 52)%Z ->
     inPaise totalSales = ofZ s -> inPaise totalExpenses = ofZ e ->
     netBalanceOf totalSales totalExpenses
       = {| netRs := Some (ofZ (Z.abs (s - e) / 100));
            netPaise := Some (ofZ (Z.abs (s - e) mod 100));
            isNegative := (s <? e)%Z |})
  /\ netBalanceOf {| rs := Some (ofZ 50); paise := Some (ofZ 0) |}
                  {| rs := Some (ofZ 70); paise := Some (ofZ 0) |}
     = {| netRs := Some (ofZ 20); netPaise := Some (ofZ 0); isNegative := true |}.
Proof.
  split.
  { intros [r p] totalExpenses [H | H]; cbn in H; subst; unfold netBalanceOf; cbn [rs paise].
    - reflexivity.
    - destruct r; reflexivity. }
  split.
  { intros invoiceData H. unfold calculateNetBalance. rewrite H. reflexivity. }
  split; [exact netBalanceOf_paise |].
  split.
  { intros sRs sPaise totalExpenses s e totalSales _ _.
    apply netBalanceOf_whole. }
  vm_compute. reflexivity.
Qed.

Lemma net_balance_sign_and_magnitude_witness :
  calculateNetBalance ∅ = {| netRs := None; netPaise := None; isNegative := false |}
  /\ netBalanceOf {| rs := Some (ofZ 12); paise := Some (ofZ 30) |}
                  {| rs := Some (ofZ 40); paise := Some (ofZ 75) |}
     = {| netRs := Some (ofZ 28); netPaise := Some (ofZ 45); isNegative := true |}.
Proof.
  destruct net_balance_sign_and_magnitude as (_ & Hblank & _ & Hint & _).
  split.
  - apply Hblank. vm_compute. reflexivity.
  - apply (Hint (ofZ 12) (ofZ 30) _ 1230%Z 4075%Z); try lia; vm_compute; reflexivity.
Defined.

(** ** GST derivation *)

Lemma toFixed2_nearest_hundredth (q : Q) :
  (Qabs q < inject_Z (10 ^ 21))%Q ->
  exists n : Z,
    toFixed2 (Fin q) = fin (inject_Z n / 100)
    /\ (Qabs (inject_Z n / 100 - q) <= 1 # 200)%Q.
Proof.
  intros Hq. unfold toFixed2.
  destruct (Qle_bool (inject_Z (10 ^ 21)) (Qabs q)) eqn:E.
  { apply Qle_bool_iff in E. lra. }
  clear E.
  pose proof (Qfloor_le (Qabs q * 100 + (1 # 2))) as H1.
  pose proof (Qlt_floor (Qabs q * 100 + (1 # 2))) as H2.
  rewrite inject_Z_plus in H2. change (inject_Z 1) with 1%Q in H2.
  set (n := Qfloor (Qabs q * 100 + (1 # 2))) in *.
  destruct (Qle_bool 0 q) eqn:E0.
  - apply Qle_bool_iff in E0. exists n. split; [reflexivity |].
    rewrite (Qabs_pos q E0) in H1, H2. clearbody n.
    apply Qabs_Qle_condition.
    assert (Hd : (inject_Z n / 100 == inject_Z n * (1 # 100))%Q) by field.
    rewrite Hd. split; lra.
  - assert (Hneg : (q <= 0)%Q).
    { destruct (Qlt_le_dec 0 q) as [Hlt | Hle]; [| exact Hle].
      apply Qlt_le_weak, Qle_bool_iff in Hlt. congruence. }
    exists (- n)%Z. split.
    + apply fin_eq. rewrite inject_Z_opp. field.
    + rewrite (Qabs_neg q Hneg) in H1, H2. clearbody n. rewrite inject_Z_opp.
      apply Qabs_Qle_condition.
      assert (Hd : (- inject_Z n / 100 == - inject_Z n * (1 # 100))%Q) by field.
      rewrite Hd. split; lra.
Qed.

Section Hundredths.

Local Open Scope Q_scope.

Lemma Qabs_inject_Z z : Qabs (inject_Z z) = inject_Z (Z.abs z).
Proof. reflexivity. Qed.

Lemma Qfloor_hundredths n :
  Qfloor (Qabs (Qred (inject_Z n / 100)) * 100 + (1 # 2)) = Z.abs n.
Proof.
  apply Qfloor_unique.
  - rewrite Qred_correct.
    assert (H : Qabs (inject_Z n / 100) * 100 == inject_Z (Z.abs n)).
    { rewrite <- Qabs_inject_Z.
      change 100 with (Qabs 100) at 2. rewrite <- Qabs_Qmult.
      apply Qabs_wd. field. }
    rewrite H. lra.
  - rewrite Qred_correct.
    assert (H : Qabs (inject_Z n / 100) * 100 == inject_Z (Z.abs n)).
    { rewrite <- Qabs_inject_Z.
      change 100 with (Qabs 100) at 2. rewrite <- Qabs_Qmult.
      apply Qabs_wd. field. }
    rewrite H, inject_Z_plus. change (inject_Z 1) with 1. lra.
Qed.

(** A value with two decimals is its own [toFixed(2)]. *)
Lemma toFixed2_hundredth n :
  toFixed2 (fin (inject_Z n / 100)) = fin (inject_Z n / 100).
Proof.
  unfold fin at 1. unfold toFixed2.
  destruct (Qle_bool (inject_Z (10 ^ 21)) (Qabs (Qred (inject_Z n / 100))));
    [reflexivity |].
  rewrite Qfloor_hundredths.
  destruct (Qle_bool 0 (Qred (inject_Z n / 100))) eqn:E.
  - apply fin_eq. apply Qle_bool_iff in E. rewrite Qred_correct in E.
    assert (Hn : (0 <= n)%Z).
    { rewrite Zle_Qle. change (inject_Z 0) with 0.
      assert (Hd : inject_Z n / 100 == inject_Z n * (1 # 100)) by field.
      rewrite Hd in E. lra. }
    rewrite Z.abs_eq by exact Hn. reflexivity.
  - apply fin_eq.
    assert (Hn : (n <= 0)%Z).
    { destruct (Z.le_gt_cases n 0) as [H | H]; [exact H |].
      assert (Hq : 0 <= Qred (inject_Z n / 100)).
      { rewrite Qred_correct.
        assert (Hd : inject_Z n / 100 == inject_Z n * (1 # 100)) by field.
        rewrite Hd. pose proof (inject_Z_pos n H). lra. }
      apply Qle_bool_iff in Hq. congruence. }
    rewrite Z.abs_neq by exact Hn. rewrite inject_Z_opp. field.
Qed.

Lemma jadd_hundredths (x y : Z) :
  jadd (fin (inject_Z x / 100)) (fin (inject_Z y / 100))
  = fin (inject_Z (x + y) / 100).
Proof.
  unfold fin at 1 2. cbn [jadd]. apply fin_eq.
  rewrite !Qred_correct, inject_Z_plus. field.
Qed.

(** The halves of the tax and the net amount, as [toFixed2] of exact
    values. *)
Lemma gst_halves (b r : Q) :
  let g := gstAmounts CGST_SGST (Fin r) (Fin b) in
  cgstVal g = toFixed2 (Fin (Qred (b * Qred (Qred (r / 2) / 100))))
  /\ sgstVal g = cgstVal g
  /\ forall n : Z,
       cgstVal g = fin (inject_Z n / 100) ->
       netAmountVal g
       = toFixed2 (Fin (Qred (Qred (b + Qred (inject_Z n / 100))
                              + Qred (inject_Z n / 100)))).
Proof.
  cbv zeta. unfold gstAmounts. cbn [cgstVal sgstVal netAmountVal].
  assert (E : jmul (Fin b) (jdiv (jdiv (Fin r) (ofZ 2)) (ofZ 100))
              = Fin (Qred (b * Qred (Qred (r / 2) / 100)))).
  { rewrite jdiv_Fin_ofZ by discriminate. unfold fin at 1.
    rewrite jdiv_Fin_ofZ by discriminate. reflexivity. }
  rewrite E. split; [reflexivity |]. split; [reflexivity |].
  intros n Hn. rewrite Hn. reflexivity.
Qed.

Lemma Qabs_bound (x y : Q) : - y <= x -> x <= y -> Qabs x <= y.
Proof. intros H1 H2. apply Qabs_Qle_condition. split; assumption. Qed.

Lemma Qabs_bounds (x y : Q) : Qabs x <= y -> - y <= x /\ x <= y.
Proof. apply Qabs_Qle_condition. Qed.

(** In range, each half is the hundredth nearest to [b * (r / 2) / 100],
    and the net amount the hundredth nearest to the base plus the two
    rounded halves. *)
Lemma gst_nearest (b r : Q) :
  Qabs b <= inject_Z (10 ^ 9) -> 0 <= r -> r <= 100 ->
  let g := gstAmounts CGST_SGST (Fin r) (Fin b) in
  exists n m : Z,
    cgstVal g = fin (inject_Z n / 100)
    /\ Qabs (inject_Z n / 100 - b * (r / 2 / 100)) <= 1 # 200
    /\ netAmountVal g = fin (inject_Z m / 100)
    /\ Qabs (inject_Z m / 100 - (b + inject_Z n / 100 + inject_Z n / 100)) <= 1 # 200.
Proof.
  intros Hb Hr0 Hr1. cbv zeta.
  destruct (gst_halves b r) as (Hc & _ & Hnet). cbv zeta in Hc, Hnet.
  apply Qabs_bounds in Hb. destruct Hb as [Hb1 Hb2].
  change (inject_Z (10 ^ 9)) with 1000000000 in Hb1, Hb2.
  set (h := Qred (b * Qred (Qred (r / 2) / 100))) in *.
  assert (Eh : h == b * (r / 2 / 100)).
  { subst h. rewrite !Qred_correct. reflexivity. }
  assert (Eh' : h == b * r * (1 # 200)).
  { rewrite Eh. field. }
  assert (Hh : - (500000000) <= h /\ h <= 500000000).
  { rewrite Eh'. split; nra. }
  destruct (toFixed2_nearest_hundredth h) as (n & En & Hn).
  { apply Qle_lt_trans with 500000000; [| reflexivity].
    apply Qabs_bound; apply Hh. }
  rewrite <- Hc in En. specialize (Hnet n En).
  set (t := Qred (Qred (b + Qred (inject_Z n / 100)) + Qred (inject_Z n / 100))) in *.
  assert (Et : t == b + inject_Z n / 100 + inject_Z n / 100).
  { subst t. rewrite !Qred_correct. reflexivity. }
  apply Qabs_bounds in Hn. destruct Hn as [Hn1 Hn2].
  destruct (toFixed2_nearest_hundredth t) as (m & Em & Hm).
  { apply Qle_lt_trans with 3000000000; [| reflexivity].
    apply Qabs_bound; rewrite Et; lra. }
  rewrite <- Hnet in Em.
  exists n, m. split; [exact En |]. split.
  { rewrite <- Eh. apply Qabs_bound; assumption. }
  split; [exact Em |].
  rewrite <- Et. exact Hm.
Qed.

(** When the half of the tax is a whole number of paise nothing is
    rounded. *)
Lemma gst_exact (B R : Z) :
  (200 | B * R)%Z ->
  let g := gstAmounts CGST_SGST (ofZ R) (fin (inject_Z B / 100)) in
  cgstVal g = fin (inject_Z (B * R / 200) / 100)
  /\ sgstVal g = fin (inject_Z (B * R / 200) / 100)
  /\ netAmountVal g = fin (inject_Z (B + B * R / 100) / 100).
Proof.
  intros [k Hk]. cbv zeta.
  destruct (gst_halves (Qred (inject_Z B / 100)) (inject_Z R)) as (Hc & Hs & Hnet).
  cbv zeta in Hc, Hs, Hnet. change (Fin (inject_Z R)) with (ofZ R) in *.
  change (Fin (Qred (inject_Z B / 100))) with (fin (inject_Z B / 100)) in *.
  assert (Ek : (B * R / 200 = k)%Z) by (rewrite Hk; apply Z.div_mul; discriminate).
  assert (Ek' : (B + B * R / 100 = B + k + k)%Z).
  { replace (B * R)%Z with ((2 * k) * 100)%Z by lia.
    rewrite Z.div_mul by discriminate. lia. }
  rewrite Ek, Ek'.
  assert (Ec : cgstVal (gstAmounts CGST_SGST (ofZ R) (fin (inject_Z B / 100)))
               = fin (inject_Z k / 100)).
  { rewrite Hc. rewrite <- (toFixed2_hundredth k). f_equal. apply fin_eq.
    rewrite !Qred_correct.
    assert (E : inject_Z B * inject_Z R == inject_Z k * 200).
    { rewrite <- !inject_Z_mult. change 200 with (inject_Z 200).
      rewrite <- inject_Z_mult. rewrite Hk. reflexivity. }
    assert (E' : inject_Z B / 100 * (inject_Z R / 2 / 100)
                 == inject_Z B * inject_Z R * (1 # 20000)) by field.
    rewrite E', E. field. }
  split; [exact Ec |]. split; [rewrite Hs; exact Ec |].
  rewrite (Hnet k Ec). rewrite <- (toFixed2_hundredth (B + k + k)). f_equal.
  apply fin_eq. rewrite !Qred_correct, !inject_Z_plus. field.
Qed.

End Hundredths.

(** C5.  In CGST/SGST mode with taxable base [b] and rate [r], CGST and SGST
    are each [b * ((r / 2) / 100)] rounded to two decimals on its own, and the
    net payable is [b + cgst + sgst] rounded once more after adding the two
    rounded halves.  For a base of up to 1e9 in magnitude and a rate from 0
    to 100: the two halves are equal, each is a hundredth within half a
    hundredth (and 1e-5 for the rounding of the product) of
    [b * (r / 2) / 100], and the net amount is a hundredth within the same
    distance of the base plus the two rounded halves.  When the half tax on
    a base with two decimals is a whole number of paise, the halves are that
    number and the net amount is the base plus the two, with no rounding.
    For [b = 1000] and [r = 18] this gives 90, 90 and 1180; for [b = 1] and
    [r = 1.2] the two halves round up to 0.01 each and the net is 1.02,
    where rounding once at the end would give 1.01. *)
Theorem cgst_sgst_split_rounds_each_half :
  (forall b r : Q,
     (Qabs b <= inject_Z (10 ^ 9))%Q -> (0 <= r)%Q -> (r <= 100)%Q ->
     let g := gstAmounts CGST_SGST (Fin r) (Fin b) in
     cgstVal g = sgstVal g
     /\ exists n m : Z,
          cgstVal g = fin (inject_Z n / 100)
          /\ (Qabs (inject_Z n / 100 - b * (r / 2 / 100))
              <= (1 # 200) + (1 # 100000))%Q
          /\ netAmountVal g = fin (inject_Z m / 100)
          /\ (Qabs (inject_Z m / 100 - (b + inject_Z n / 100 + inject_Z n / 100))
              <= (1 # 200) + (1 # 100000))%Q)
  /\ (forall B R : Z,
      (Z.abs B <= 10 ^ 11)%Z -> (0 <= R <= 100)%Z -> (200 | B * R)%Z ->
      let g := gstAmounts CGST_SGST (ofZ R) (fin (inject_Z B / 100)) in
      cgstVal g = fin (inject_Z (B * R / 200) / 100)
      /\ sgstVal g = fin (inject_Z (B * R / 200) / 100)
      /\ netAmountVal g = fin (inject_Z (B + B * R / 100) / 100))
  /\ (let g := gstAmounts CGST_SGST (ofZ 18) (ofZ 1000) in
      cgstVal g = ofZ 90 /\ sgstVal g = ofZ 90 /\ netAmountVal g = ofZ 1180)
  /\ (let g := gstAmounts CGST_SGST (Fin (6 # 5)) (ofZ 1) in
      cgstVal g = Fin (1 # 100) /\ sgstVal g = Fin (1 # 100)
      /\ netAmountVal g = Fin (51 # 50)
      /\ toFixed2 (jadd (ofZ 1) (jmul (ofZ 1) (jdiv (Fin (6 # 5)) (ofZ 100))))
         = Fin (101 # 100)).
Proof.
  split.
  { intros b r Hb Hr0 Hr1. cbv zeta.
    split; [symmetry; apply (gst_halves b r) |].
    destruct (gst_nearest b r Hb Hr0 Hr1) as (n & m & En & Hn & Em & Hm).
    exists n, m. repeat split; try assumption.
    - eapply Qle_trans; [exact Hn | discriminate].
    - eapply Qle_trans; [exact Hm | discriminate]. }
  split; [intros B R _ _ Hd; apply gst_exact, Hd |].
  split; vm_compute; repeat split.
Qed.

Lemma cgst_sgst_split_rounds_each_half_witness :
  (let g := gstAmounts CGST_SGST (Fin 18) (Fin (201 # 2)) in
   cgstVal g = sgstVal g
   /\ exists n m : Z,
        cgstVal g = fin (inject_Z n / 100)
        /\ (Qabs (inject_Z n / 100 - (201 # 2) * (18 / 2 / 100))
            <= (1 # 200) + (1 # 100000))%Q
        /\ netAmountVal g = fin (inject_Z m / 100)
        /\ (Qabs (inject_Z m / 100
                  - ((201 # 2) + inject_Z n / 100 + inject_Z n / 100))
            <= (1 # 200) + (1 # 100000))%Q)
  /\ (let g := gstAmounts CGST_SGST (ofZ 12) (fin (inject_Z 250050 / 100)) in
      cgstVal g = fin (inject_Z (250050 * 12 / 200) / 100)
      /\ sgstVal g = fin (inject_Z (250050 * 12 / 200) / 100)
      /\ netAmountVal g = fin (inject_Z (250050 + 250050 * 12 / 100) / 100)).
Proof.
  destruct cgst_sgst_split_rounds_each_half as (Hnear & Hexact & _).
  split.
  - apply (Hnear (201 # 2)%Q 18%Q); vm_compute; discriminate.
  - apply (Hexact 250050%Z 12%Z); [vm_compute; discriminate | lia |].
    exists 15003%Z. reflexivity.
Defined.

(** ** Amount in words *)

Section Words.

Lemma str_eqb_eq (s t : jsstring) : str_eqb s t = true <-> s = t.
Proof.
  revert t. induction s as [| a s IH]; intros [| b t]; cbn; try (split; congruence).
  rewrite andb_true_iff, N.eqb_eq, IH. split; [intros [-> ->]; reflexivity |].
  intros [= -> ->]. split; reflexivity.
Qed.

Lemma lacks_app c (s t : jsstring) : lacks c (s ++ t) = lacks c s && lacks c t.
Proof. apply forallb_app. Qed.

Lemma lacks_In c (s : jsstring) : lacks c s = true <-> ~ In c s.
Proof.
  unfold lacks. rewrite forallb_forall. split.
  - intros H Hin. specialize (H c Hin). rewrite N.eqb_refl in H. discriminate.
  - intros H x Hx. apply negb_true_iff, N.eqb_neq. intros ->. exact (H Hx).
Qed.

Lemma In_trimStart c (s : jsstring) : In c (trimStart s) -> In c s.
Proof.
  induction s as [| a s IH]; cbn; [tauto |].
  destruct (isSpace a); [right; apply IH; assumption | tauto].
Qed.

Lemma In_trim c (s : jsstring) : In c (trim s) -> In c s.
Proof.
  unfold trim. intros H.
  apply In_trimStart. rewrite in_rev.
  apply In_trimStart. rewrite in_rev. exact H.
Qed.

Lemma lacks_trim c (s : jsstring) : lacks c s = true -> lacks c (trim s) = true.
Proof. rewrite !lacks_In. intros H Hin. apply H, In_trim, Hin. Qed.

Lemma lacks_nth c (arr : list jsstring) d k :
  forallb (lacks c) arr = true -> lacks c d = true -> lacks c (nth k arr d) = true.
Proof.
  intros Harr Hd. destruct (nth_in_or_default k arr d) as [Hin | ->]; [| exact Hd].
  rewrite forallb_forall in Harr. apply Harr, Hin.
Qed.

Lemma lacks_idx c (arr : list jsstring) x :
  forallb (lacks c) arr = true -> lacks c (u "undefined") = true ->
  lacks c (idx arr x) = true.
Proof.
  intros Harr Hd. unfold idx. destruct x; try exact Hd.
  destruct (_ && _); [apply lacks_nth; assumption | exact Hd].
Qed.

Lemma lacks_nonempty_app c (r t : jsstring) :
  lacks c r = true -> lacks c t = true ->
  lacks c (match r with [] => r | _ :: _ => r ++ t end) = true.
Proof.
  intros Hr Ht. destruct r; [reflexivity |]. rewrite lacks_app, Hr, Ht. reflexivity.
Qed.

(** No word of the expansion contains a capital [A]. *)
Lemma lacks_A_inWords n : lacks (ch "A") (inWords n) = true.
Proof.
  assert (Ha : forall x, lacks (ch "A") (idx a x) = true)
    by (intros x; apply lacks_idx; vm_compute; reflexivity).
  assert (Hb : forall x, lacks (ch "A") (idx b x) = true)
    by (intros x; apply lacks_idx; vm_compute; reflexivity).
  unfold inWords.
  destruct (jgt n (ofZ 19)).
  - rewrite lacks_app, Hb. destruct (truthy _); [| reflexivity].
    rewrite lacks_app, Ha. reflexivity.
  - destruct (jgt n (ofZ 0)); [apply Ha | reflexivity].
Qed.

Lemma numberToWords_below num :
  jgt num (ofZ 999999999) = false ->
  numberToWords num <> u "Amount too large".
Proof.
  intros Hgt. unfold numberToWords.
  destruct (isNaN num); [discriminate |].
  destruct (jeq num (ofZ 0)); [discriminate |].
  rewrite Hgt. cbv zeta.
  intros Heq.
  assert (Hl : lacks (ch "A") (u "Amount too large") = true); [| discriminate Hl].
  rewrite <- Heq. clear Heq. apply lacks_trim.
  assert (Ha : forall x, lacks (ch "A") (idx a x) = true)
    by (intros x; apply lacks_idx; vm_compute; reflexivity).
  repeat match goal with
  | |- lacks _ (if truthy ?x then _ else _) = true => destruct (truthy x)
  | |- lacks _ (_ ++ _) = true => rewrite lacks_app; apply andb_true_intro; split
  | |- lacks _ (match ?r with [] => ?r | _ :: _ => _ end) = true => apply lacks_nonempty_app
  | |- lacks _ (inWords _) = true => apply lacks_A_inWords
  | |- lacks _ (idx a _) = true => apply Ha
  | |- _ => reflexivity
  end.
Qed.

Lemma numberToWords_above num :
  jgt num (ofZ 999999999) = true ->
  numberToWords num = u "Amount too large".
Proof.
  intros Hgt. unfold numberToWords.
  destruct num as [| | | q]; try discriminate; [reflexivity |].
  cbn [isNaN]. destruct (jeq (Fin q) (ofZ 0)) eqn:E.
  - exfalso. cbn in E, Hgt. apply Qeq_bool_iff in E.
    unfold Qltb in Hgt. apply negb_true_iff in Hgt.
    assert (Hle : (q <= inject_Z 999999999)%Q) by (rewrite E; discriminate).
    apply Qle_bool_iff in Hle. congruence.
  - rewrite Hgt. reflexivity.
Qed.

Lemma ends_with_only amount :
  exists words, amountToWordsWithPaise amount = words ++ u " only".
Proof. unfold amountToWordsWithPaise. eexists. reflexivity. Qed.

End Words.

Lemma amountToWordsWithPaise_not_sentinel amount :
  amountToWordsWithPaise amount <> u "Amount too large".
Proof.
  destruct (ends_with_only amount) as [w ->]. intros H.
  apply (f_equal (@rev N)) in H. rewrite rev_app_distr in H.
  vm_compute in H. discriminate H.
Qed.

Lemma amountToWordsWithPaise_above amount :
  jgt (rupeesOf amount) (ofZ 999999999) = true ->
  amountToWordsWithPaise amount
  = u "Amount too large Rupees"
    ++ (if jgt (paiseOf amount) (ofZ 0)
        then u " and " ++ numberToWords (paiseOf amount) ++ u " Paise" else [])
    ++ u " only".
Proof.
  intros H. unfold amountToWordsWithPaise. rewrite (numberToWords_above _ H).
  generalize (numberToWords (paiseOf amount)). intros w.
  destruct (jgt (paiseOf amount) (ofZ 0)); rewrite <- ?app_assoc; reflexivity.
Qed.

(** C7, as amended.  [numberToWords] never returns the text
    [Amount too large] for a number in [0, 999999999], and returns exactly
    that text for every number above 999999999.  [amountToWordsWithPaise]
    never returns the bare text: for an amount in [0, 999999999] it spells
    the amount, and for an amount whose rupee part exceeds 999999999 it
    returns [Amount too large Rupees], the paise if any, and [only]. *)
Theorem too_large_sentinel :
  (forall n : number,
     jge n (ofZ 0) = true -> jgt n (ofZ 999999999) = false ->
     numberToWords n <> u "Amount too large"
     /\ amountToWordsWithPaise n <> u "Amount too large")
  /\ (forall n : number,
     jgt n (ofZ 999999999) = true -> numberToWords n = u "Amount too large")
  /\ (forall amount : number,
     jgt (rupeesOf amount) (ofZ 999999999) = true ->
     amountToWordsWithPaise amount
     = u "Amount too large Rupees"
       ++ (if jgt (paiseOf amount) (ofZ 0)
           then u " and " ++ numberToWords (paiseOf amount) ++ u " Paise" else [])
       ++ u " only").
Proof.
  split.
  { intros n _ Hgt. split.
    - apply numberToWords_below, Hgt.
    - apply amountToWordsWithPaise_not_sentinel. }
  split; [exact numberToWords_above | exact amountToWordsWithPaise_above].
Qed.

Lemma too_large_sentinel_witness :
  (numberToWords (ofZ 999999999) <> u "Amount too large"
   /\ amountToWordsWithPaise (ofZ 999999999) <> u "Amount too large")
  /\ numberToWords (ofZ 1000000000) = u "Amount too large"
  /\ amountToWordsWithPaise (Fin (10000000005 # 10))
     = u "Amount too large Rupees and Fifty Paise only".
Proof.
  destruct too_large_sentinel as (Hin & Habove & Hamount).
  split; [apply Hin; vm_compute; reflexivity |].
  split; [apply Habove; vm_compute; reflexivity |].
  rewrite Hamount by (vm_compute; reflexivity). vm_compute. reflexivity.
Defined.

(** C7 as stated fails for [amountToWordsWithPaise]: above the ceiling the
    result is not exactly the sentinel, and an amount just above 999999999
    is still spelled out. *)
Lemma too_large_sentinel_counterexample :
  jgt (ofZ 1000000000) (ofZ 999999999) = true
  /\ amountToWordsWithPaise (ofZ 1000000000) = u "Amount too large Rupees only"
  /\ amountToWordsWithPaise (ofZ 1000000000) <> u "Amount too large"
  /\ jgt (Fin (1999999999 # 2)) (ofZ 999999999) = true
  /\ amountToWordsWithPaise (Fin (1999999999 # 2))
     = u "Ninety Nine Crore Ninety Nine Lakh Ninety Nine Thousand Nine Hundred and Ninety Nine Rupees and Fifty Paise only".
Proof.
  split; [vm_compute; reflexivity |].
  split; [vm_compute; reflexivity |].
  split; [apply amountToWordsWithPaise_not_sentinel |].
  split; vm_compute; reflexivity.
Qed.

(** *** The expansion agrees with the numbering scale *)

Section WordsRefinement.

Lemma startsTight_app (s t : jsstring) : startsTight s = true -> startsTight (s ++ t) = true.
Proof. destruct s; [discriminate | exact id]. Qed.

Lemma endsTight_app (s t : jsstring) : endsTight t = true -> endsTight (s ++ t) = true.
Proof. unfold endsTight. rewrite rev_app_distr. apply startsTight_app. Qed.

Lemma trimStart_tight (s : jsstring) : startsTight s = true -> trimStart s = s.
Proof.
  destruct s as [| c r]; [reflexivity |]. cbn. intros H.
  apply negb_true_iff in H. rewrite H. reflexivity.
Qed.

Lemma trim_tight_space (s : jsstring) :
  startsTight s = true -> endsTight s = true -> trim (s ++ u " ") = s.
Proof.
  intros Hs He. unfold trim.
  rewrite (trimStart_tight (s ++ u " ")) by (apply startsTight_app, Hs).
  rewrite rev_app_distr. change (rev (u " ") ++ rev s) with (0x20 :: rev s).
  change (trimStart (0x20 :: rev s)) with (trimStart (rev s)).
  rewrite trimStart_tight by exact He. apply rev_involutive.
Qed.

Lemma concat_space_join (l : list jsstring) :
  l <> [] -> concat (map (fun p => p ++ u " ") l) = joinSpace l ++ u " ".
Proof.
  destruct l as [| p ps]; [congruence | intros _].
  revert p. induction ps as [| q ps IH]; intros p.
  - cbn. rewrite !app_nil_r. reflexivity.
  - change (concat (map (fun p => p ++ u " ") (p :: q :: ps)))
      with ((p ++ u " ") ++ concat (map (fun p => p ++ u " ") (q :: ps))).
    rewrite IH. cbn [joinSpace map concat]. rewrite <- !app_assoc. reflexivity.
Qed.

Lemma joinSpace_tight (l : list jsstring) :
  l <> [] -> Forall (fun p => startsTight p = true /\ endsTight p = true) l ->
  startsTight (joinSpace l) = true /\ endsTight (joinSpace l) = true.
Proof.
  destruct l as [| p ps]; [congruence | intros _ Hall].
  split.
  - cbn [joinSpace]. apply startsTight_app. inversion Hall as [| ? ? [Hp _] _]. exact Hp.
  - revert p Hall. induction ps as [| q ps IH]; intros p Hall.
    + cbn. rewrite app_nil_r. inversion Hall as [| ? ? [_ Hp] _]. exact Hp.
    + cbn [joinSpace map concat]. rewrite <- app_assoc.
      apply endsTight_app, endsTight_app.
      apply (IH q). inversion Hall. assumption.
Qed.

(** Facts checked on every number below one hundred. *)
Lemma below_hundred (P : Z -> bool) :
  forallb (fun i => P (Z.of_nat i)) (seq 0 100) = true ->
  forall k, (0 <= k <= 99)%Z -> P k = true.
Proof.
  intros H k Hk. rewrite forallb_forall in H.
  specialize (H (Z.to_nat k)). rewrite Z2Nat.id in H by lia.
  apply H, in_seq. lia.
Qed.

Lemma inWords_words99 k : (0 <= k <= 99)%Z -> inWords (ofZ k) = words99 k.
Proof.
  intros Hk. apply str_eqb_eq.
  apply (below_hundred (fun k => str_eqb (inWords (ofZ k)) (words99 k))); [| exact Hk].
  vm_compute. reflexivity.
Qed.

Lemma idx_a_words99 k : (0 <= k <= 19)%Z -> idx a (ofZ k) = words99 k.
Proof.
  intros Hk. apply str_eqb_eq.
  pose proof (below_hundred
    (fun k => (19 <? k)%Z || str_eqb (idx a (ofZ k)) (words99 k))
    ltac:(vm_compute; reflexivity) k ltac:(lia)) as H.
  cbv beta in H. destruct (Z.ltb_spec 19 k); [lia | exact H].
Qed.

Lemma words99_tight k :
  (1 <= k <= 99)%Z -> startsTight (words99 k) = true /\ endsTight (words99 k) = true.
Proof.
  intros Hk.
  pose proof (below_hundred
    (fun k => (k =? 0)%Z || (startsTight (words99 k) && endsTight (words99 k)))
    ltac:(vm_compute; reflexivity) k ltac:(lia)) as H.
  cbv beta in H. destruct (Z.eqb_spec k 0); [lia |].
  apply andb_true_iff in H. exact H.
Qed.

Lemma jeq_ofZ x y : jeq (ofZ x) (ofZ y) = (x =? y)%Z.
Proof. cbn. unfold Qeq_bool, inject_Z. cbn. rewrite !Z.mul_1_r. reflexivity. Qed.

Lemma jlt_ofZ x y : jlt (ofZ x) (ofZ y) = (x <? y)%Z.
Proof.
  cbn. unfold Qltb, Qle_bool, inject_Z. cbn. rewrite !Z.mul_1_r.
  rewrite Z.ltb_antisym. reflexivity.
Qed.

Lemma crore_value n :
  Math_floor (jdiv (ofZ n) (ofZ 10000000)) = ofZ (n / 10000000).
Proof.
  unfold ofZ at 1. rewrite floor_div by lia. rewrite Qfloor_Z. reflexivity.
Qed.

Lemma group_value n d m :
  (0 <= n)%Z -> (0 < d)%Z -> (0 < m)%Z ->
  Math_floor (jrem (jdiv (ofZ n) (ofZ d)) (ofZ m)) = ofZ ((n / d) mod m).
Proof.
  intros Hn Hd Hm. unfold ofZ at 1. rewrite jdiv_Fin_ofZ by lia. unfold fin.
  rewrite floor_rem; [| | exact Hm].
  - rewrite (Qfloor_comp _ _ (Qred_correct _)), Qfloor_div_Z, Qfloor_Z by exact Hd.
    reflexivity.
  - rewrite Qred_correct. apply Qle_shift_div_l; [apply inject_Z_pos, Hd |].
    rewrite Qmult_0_l. apply inject_Z_nonneg, Hn.
Qed.

Lemma rest_value n :
  (0 <= n)%Z -> Math_floor (jrem (ofZ n) (ofZ 100)) = ofZ (n mod 100).
Proof.
  intros Hn. unfold ofZ at 1. rewrite floor_rem; [| apply inject_Z_nonneg, Hn | lia].
  rewrite Qfloor_Z. reflexivity.
Qed.

Lemma app_nonempty_r (r l : jsstring) : l <> [] -> r ++ l <> [].
Proof. destruct r, l; cbn; congruence. Qed.

Lemma and_after (r t : jsstring) :
  r <> [] -> match r with [] => r | _ :: _ => r ++ t end = r ++ t.
Proof. destruct r; congruence. Qed.

(** The string [numberToWords] trims, for a number within the scale. *)
Lemma numberToWords_phrases n :
  (1 <= n <= 999999999)%Z ->
  numberToWords (ofZ n) = trim (concat (map (fun p => p ++ u " ") (phrases n))).
Proof.
  intros Hn. unfold numberToWords.
  change (isNaN (ofZ n)) with false. cbv iota.
  rewrite jeq_ofZ. destruct (Z.eqb_spec n 0) as [| _]; [lia |].
  unfold jgt. rewrite jlt_ofZ. destruct (Z.ltb_spec 999999999 n) as [| _]; [lia |].
  cbv zeta.
  rewrite crore_value, !group_value, rest_value by lia.
  rewrite !truthy_ofZ.
  assert (Hc : (0 <= n / 10000000 <= 99)%Z)
    by (Z.div_mod_to_equations; lia).
  assert (Hl : (0 <= (n / 100000) mod 100 <= 99)%Z)
    by (pose proof (Z.mod_pos_bound (n / 100000) 100); lia).
  assert (Ht : (0 <= (n / 1000) mod 100 <= 99)%Z)
    by (pose proof (Z.mod_pos_bound (n / 1000) 100); lia).
  assert (Hh : (0 <= (n / 100) mod 10 <= 9)%Z)
    by (pose proof (Z.mod_pos_bound (n / 100) 10); lia).
  assert (Hr : (0 <= n mod 100 <= 99)%Z)
    by (pose proof (Z.mod_pos_bound n 100); lia).
  rewrite !inWords_words99 by assumption.
  rewrite idx_a_words99 by lia.
  f_equal. unfold phrases, group.
  destruct (n / 10000000 =? 0)%Z, ((n / 100000) mod 100 =? 0)%Z,
    ((n / 1000) mod 100 =? 0)%Z, ((n / 100) mod 10 =? 0)%Z, (n mod 100 =? 0)%Z;
    cbn [negb app map concat];
    rewrite ?and_after
      by (first [apply app_nonempty_r; apply app_nonempty_r | apply app_nonempty_r];
          vm_compute; discriminate);
    rewrite <- ?app_assoc, ?app_nil_r; reflexivity.
Qed.

Lemma phrases_tight n :
  (1 <= n <= 999999999)%Z ->
  phrases n <> []
  /\ Forall (fun p => startsTight p = true /\ endsTight p = true) (phrases n).
Proof.
  intros Hn.
  assert (Hc : (0 <= n / 10000000 <= 99)%Z)
    by (Z.div_mod_to_equations; lia).
  pose proof (Z.mod_pos_bound (n / 100000) 100 ltac:(lia)) as Hl.
  pose proof (Z.mod_pos_bound (n / 1000) 100 ltac:(lia)) as Ht.
  pose proof (Z.mod_pos_bound (n / 100) 10 ltac:(lia)) as Hh.
  pose proof (Z.mod_pos_bound n 100 ltac:(lia)) as Hr.
  assert (Hsome : ~ (n / 10000000 = 0 /\ (n / 100000) mod 100 = 0
                     /\ (n / 1000) mod 100 = 0 /\ (n / 100) mod 10 = 0
                     /\ n mod 100 = 0)%Z).
  { intros (H1 & H2 & H3 & H4 & H5). revert H1 H2 H3 H4 H5.
    Z.div_mod_to_equations. lia. }
  assert (Hw : forall k name, (1 <= k <= 99)%Z -> endsTight name = true ->
             startsTight (words99 k ++ name) = true
             /\ endsTight (words99 k ++ name) = true).
  { intros k name Hk Hname. split.
    - apply startsTight_app, words99_tight, Hk.
    - apply endsTight_app, Hname. }
  unfold phrases, group.
  destruct (Z.eqb_spec (n / 10000000) 0), (Z.eqb_spec ((n / 100000) mod 100) 0),
    (Z.eqb_spec ((n / 1000) mod 100) 0), (Z.eqb_spec ((n / 100) mod 10) 0),
    (Z.eqb_spec (n mod 100) 0);
    try (exfalso; apply Hsome; repeat split; assumption);
    cbn [app]; (split; [discriminate |]);
    repeat (apply List.Forall_cons; [try (apply Hw; [lia | reflexivity]) |]);
    try apply List.Forall_nil;
    (split;
     [first [apply words99_tight; lia | apply startsTight_app; reflexivity]
     |first [apply words99_tight; lia | apply endsTight_app, words99_tight; lia]]).
Qed.

Lemma numberToWords_rupeeWords n :
  (0 <= n <= 999999999)%Z -> numberToWords (ofZ n) = rupeeWords n.
Proof.
  intros Hn. unfold rupeeWords. destruct (Z.eqb_spec n 0) as [-> | Hne].
  - reflexivity.
  - destruct (phrases_tight n ltac:(lia)) as [Hnil Hall].
    rewrite numberToWords_phrases by lia.
    rewrite concat_space_join by exact Hnil.
    destruct (joinSpace_tight _ Hnil Hall) as [Hs He].
    apply trim_tight_space; assumption.
Qed.

Lemma rupeeWords_nonempty n : (0 <= n <= 999999999)%Z -> rupeeWords n <> [].
Proof.
  intros Hn. unfold rupeeWords. destruct (Z.eqb_spec n 0) as [-> | Hne].
  - discriminate.
  - destruct (phrases_tight n ltac:(lia)) as [Hnil Hall].
    destruct (joinSpace_tight _ Hnil Hall) as [Hs _].
    intros E. rewrite E in Hs. discriminate.
Qed.

End WordsRefinement.

Section AmountSplit.

Local Open Scope Q_scope.

Lemma Math_round_fin q : Math_round (fin q) = ofZ (Qfloor (q + (1 # 2))).
Proof.
  change (Math_round (fin q)) with (ofZ (Qfloor (Qred q + (1 # 2)))).
  f_equal. apply Qfloor_comp. rewrite Qred_correct. reflexivity.
Qed.

Lemma Qfloor_half z : Qfloor (inject_Z z + (1 # 2)) = z.
Proof. apply Qfloor_unique; rewrite ?inject_Z_plus; change (inject_Z 1) with 1; lra. Qed.

(** An amount of [r] rupees and [p] paise splits into exactly these. *)
Lemma amount_split r p :
  (0 <= p <= 99)%Z ->
  rupeesOf (fin (inject_Z (100 * r + p) / 100)) = ofZ r
  /\ paiseOf (fin (inject_Z (100 * r + p) / 100)) = ofZ p.
Proof.
  intros Hp.
  assert (Hr : rupeesOf (fin (inject_Z (100 * r + p) / 100)) = ofZ r).
  { unfold rupeesOf. rewrite Math_floor_fin.
    change 100 with (inject_Z 100). rewrite Qfloor_div_Z, Qfloor_Z by lia.
    f_equal. Z.div_mod_to_equations. lia. }
  split; [exact Hr |].
  unfold paiseOf. rewrite Hr.
  change (jmul (jsub (fin (inject_Z (100 * r + p) / 100)) (ofZ r)) (ofZ 100))
    with (fin (Qred (Qred (inject_Z (100 * r + p) / 100) + Qred (- inject_Z r))
               * inject_Z 100)).
  rewrite Math_round_fin. rewrite <- (Qfloor_half p) at 2. f_equal.
  apply Qfloor_comp. rewrite !Qred_correct.
  rewrite inject_Z_plus, inject_Z_mult. change (inject_Z 100) with 100. field.
Qed.

End AmountSplit.

Lemma amountToWordsWithPaise_amountInWords r p :
  (0 <= r <= 999999999)%Z -> (0 <= p <= 99)%Z ->
  amountToWordsWithPaise (fin (inject_Z (100 * r + p) / 100)) = amountInWords r p.
Proof.
  intros Hr Hp. destruct (amount_split r p Hp) as [Er Ep].
  unfold amountToWordsWithPaise. rewrite Er, Ep.
  rewrite numberToWords_rupeeWords by exact Hr.
  rewrite (and_after _ _ (rupeeWords_nonempty r Hr)).
  unfold jgt. rewrite jlt_ofZ. unfold amountInWords.
  destruct (0 <? p)%Z.
  - rewrite numberToWords_rupeeWords by lia. rewrite <- !app_assoc. reflexivity.
  - rewrite <- !app_assoc. reflexivity.
Qed.

(** C8.  [amountToWordsWithPaise] always ends with [only].  For a whole
    number within the scale [numberToWords] gives the phrases of the Crore,
    Lakh, Thousand and Hundred groups and of the remainder under one
    hundred, highest first, joined by single spaces; an amount of [r] rupees
    and [p] paise reads as these words, [Rupees], then [and], the words of
    [p] and [Paise] when [p] is positive, then [only].  1234.50 and
    10234567.89 read as displayed. *)
Theorem amount_in_words_wording :
  (forall amount : number,
     exists words, amountToWordsWithPaise amount = words ++ u " only")
  /\ (forall n : Z, (0 <= n <= 999999999)%Z ->
      numberToWords (ofZ n) = rupeeWords n)
  /\ (forall r p : Z, (0 <= r <= 999999999)%Z -> (0 <= p <= 99)%Z ->
      amountToWordsWithPaise (fin (inject_Z (100 * r + p) / 100))
      = amountInWords r p)
  /\ amountToWordsWithPaise (Fin (12345 # 10))
     = u "One Thousand Two Hundred and Thirty Four Rupees and Fifty Paise only"
  /\ amountToWordsWithPaise (Fin (1023456789 # 100))
     = u "One Crore Two Lakh Thirty Four Thousand Five Hundred and Sixty Seven Rupees and Eighty Nine Paise only".
Proof.
  split; [exact ends_with_only |].
  split; [exact numberToWords_rupeeWords |].
  split; [exact amountToWordsWithPaise_amountInWords |].
  split; vm_compute; reflexivity.
Qed.

Lemma amount_in_words_wording_witness :
  numberToWords (ofZ 120000305) = u "Twelve Crore Three Hundred and Five"
  /\ amountToWordsWithPaise (Fin (2000019 # 100))
     = u "Twenty Thousand Rupees and Nineteen Paise only".
Proof.
  destruct amount_in_words_wording as (_ & Hn & Hrp & _).
  split.
  - rewrite (Hn 120000305%Z) by lia. vm_compute. reflexivity.
  - change (Fin (2000019 # 100)) with (fin (inject_Z (100 * 20000 + 19) / 100)).
    rewrite Hrp by lia. vm_compute. reflexivity.
Defined.

(** ** The paise component *)

Section PaiseRange.

Local Open Scope js_scope.

Implicit Types (invoiceData : gmap string jsstring).

(** The closing lines of the calculation functions on a whole, non-negative
    number of paise. *)
Lemma split_total t :
  (0 <= t)%Z ->
  Math_floor (ofZ t / ofZ 100) = ofZ (t / 100)
  /\ ofZ t %% ofZ 100 = ofZ (t mod 100).
Proof.
  intros Ht. split.
  - unfold ofZ at 1. rewrite floor_div by lia. rewrite Qfloor_Z. reflexivity.
  - apply jrem_ofZ; lia.
Qed.

Lemma rejoin_total t :
  (0 <= t)%Z -> ofZ (t / 100) * ofZ 100 + ofZ (t mod 100) = ofZ t.
Proof.
  intros Ht. autorewrite with whole. f_equal.
  Z.div_mod_to_equations. lia.
Qed.

(** A row total is blank or comes from a whole, non-negative number of
    paise. *)
Lemma calculateRowTotal_whole invoiceData rowIndex q c :
  rowQuantity invoiceData rowIndex = Fin q ->
  rowPrice invoiceData rowIndex = Fin c ->
  (0 <= q * c)%Q ->
  calculateRowTotal invoiceData rowIndex = blank
  \/ exists t, (0 <= t)%Z
     /\ calculateRowTotal invoiceData rowIndex
        = {| rs := Some (ofZ (t / 100)); paise := Some (ofZ (t mod 100)) |}.
Proof.
  intros Hq Hc Hqc. unfold calculateRowTotal. rewrite Hq, Hc.
  destruct (_ || _); [left; reflexivity | right].
  change (Fin q * Fin c * ofZ 100) with (fin (Qred (q * c) * inject_Z 100)).
  rewrite Math_round_fin.
  set (t := Qfloor (Qred (q * c) * inject_Z 100 + (1 # 2))).
  assert (Ht : (0 <= t)%Z).
  { change 0%Z with (Qfloor (inject_Z 0)). apply Qfloor_resp_le.
    rewrite Qred_correct. change (inject_Z 0) with 0%Q.
    change (inject_Z 100) with 100%Q. lra. }
  exists t. split; [exact Ht |].
  destruct (split_total t Ht) as [-> ->]. reflexivity.
Qed.

(** Summing whole, non-negative terms keeps the total whole and
    non-negative. *)
Lemma fold_whole_in {A} (f : number -> A -> number) (l : list A) t0 :
  (0 <= t0)%Z ->
  (forall t x, In x l -> (0 <= t)%Z ->
     exists t', (t <= t')%Z /\ f (ofZ t) x = ofZ t') ->
  exists t, (t0 <= t)%Z /\ fold_left f l (ofZ t0) = ofZ t.
Proof.
  intros Ht0 Hf. revert t0 Ht0.
  induction l as [| x l IH]; intros t0 Ht0; cbn [fold_left].
  - exists t0. split; [lia | reflexivity].
  - destruct (Hf t0 x (or_introl eq_refl) Ht0) as (t1 & Hle & ->).
    destruct (IH (fun t y Hy => Hf t y (or_intror Hy)) t1 ltac:(lia))
      as (t & Hle' & ->).
    exists t. split; [lia | reflexivity].
Qed.

Lemma salesPaiseSum_whole invoiceData :
  (forall rowIndex, (rowIndex < 13)%nat -> exists q c,
     rowQuantity invoiceData rowIndex = Fin q
     /\ rowPrice invoiceData rowIndex = Fin c /\ (0 <= q * c)%Q) ->
  exists t, (0 <= t)%Z /\ salesPaiseSum invoiceData = ofZ t.
Proof.
  intros Hrows. unfold salesPaiseSum. apply fold_whole_in; [lia |].
  intros t i Hi Ht. apply in_seq in Hi.
  destruct (Hrows i ltac:(lia)) as (q & c & Hq & Hc & Hqc).
  destruct (calculateRowTotal_whole _ _ _ _ Hq Hc Hqc) as [-> | (tr & Htr & ->)];
    cbn [rs paise blank].
  - exists t. split; [lia | reflexivity].
  - rewrite rejoin_total by exact Htr. rewrite jadd_ofZ.
    exists (t + tr)%Z. split; [lia | reflexivity].
Qed.

Lemma calculateTotalSales_whole invoiceData :
  (forall rowIndex, (rowIndex < 13)%nat -> exists q c,
     rowQuantity invoiceData rowIndex = Fin q
     /\ rowPrice invoiceData rowIndex = Fin c /\ (0 <= q * c)%Q) ->
  calculateTotalSales invoiceData = blank
  \/ exists t, (0 <= t)%Z
     /\ calculateTotalSales invoiceData
        = {| rs := Some (ofZ (t / 100)); paise := Some (ofZ (t mod 100)) |}.
Proof.
  intros Hrows. destruct (salesPaiseSum_whole _ Hrows) as (t & Ht & E).
  unfold calculateTotalSales. rewrite E.
  destruct (jeq _ _); [left; reflexivity | right].
  exists t. split; [exact Ht |].
  destruct (split_total t Ht) as [-> ->]. reflexivity.
Qed.

Lemma calculateTotalExpenses_whole invoiceData :
  (forall i : nat, (i < 8)%nat ->
     exists r p : Z, (0 <= r)%Z /\ (0 <= p)%Z
       /\ numField invoiceData ("expense" +:+ pretty i +:+ "_rs") = ofZ r
       /\ numField invoiceData ("expense" +:+ pretty i +:+ "_paise") = ofZ p) ->
  (forall i : nat, (i < 5)%nat ->
     exists r p : Z, (0 <= r)%Z /\ (0 <= p)%Z
       /\ numField invoiceData ("empty" +:+ pretty i +:+ "_rs") = ofZ r
       /\ numField invoiceData ("empty" +:+ pretty i +:+ "_paise") = ofZ p) ->
  exists t, (0 <= t)%Z
    /\ calculateTotalExpenses invoiceData
       = {| rs := Some (ofZ (t / 100)); paise := Some (ofZ (t mod 100)) |}.
Proof.
  intros Hexpense Hempty. unfold calculateTotalExpenses.
  assert (Hstep : forall (prefix : string) (n : nat),
    (forall i : nat, (i < n)%nat ->
       exists r p : Z, (0 <= r)%Z /\ (0 <= p)%Z
         /\ numField invoiceData (prefix +:+ pretty i +:+ "_rs") = ofZ r
         /\ numField invoiceData (prefix +:+ pretty i +:+ "_paise") = ofZ p) ->
    forall t (i : nat), In i (seq 0 n) -> (0 <= t)%Z ->
    exists t', (t <= t')%Z
      /\ ofZ t + (numField invoiceData (prefix +:+ pretty i +:+ "_rs") * ofZ 100
                  + numField invoiceData (prefix +:+ pretty i +:+ "_paise"))
         = ofZ t').
  { intros prefix n Hfields t i Hi Ht. apply in_seq in Hi.
    destruct (Hfields i ltac:(lia)) as (r & p' & Hr & Hp & -> & ->).
    autorewrite with whole. eexists. split; [| reflexivity]. lia. }
  cbv zeta.
  destruct (fold_whole_in
    (fun totalPaise (i : nat) =>
       totalPaise + (numField invoiceData ("expense" +:+ pretty i +:+ "_rs") * ofZ 100
                     + numField invoiceData ("expense" +:+ pretty i +:+ "_paise")))
    (seq 0 8) 0 ltac:(lia) (Hstep "expense"%string 8%nat Hexpense)) as (t1 & Ht1 & ->).
  destruct (fold_whole_in
    (fun totalPaise (i : nat) =>
       totalPaise + (numField invoiceData ("empty" +:+ pretty i +:+ "_rs") * ofZ 100
                     + numField invoiceData ("empty" +:+ pretty i +:+ "_paise")))
    (seq 0 5) t1 Ht1 (Hstep "empty"%string 5%nat Hempty)) as (t2 & Ht2 & ->).
  exists t2. split; [lia |].
  destruct (split_total t2 ltac:(lia)) as [-> ->]. reflexivity.
Qed.

Local Open Scope Q_scope.

(** The paise of [amountToWordsWithPaise] for a finite, non-negative
    amount: from 0 to 100, under 100 when the fraction is at most 0.99, and
    100 when the fraction is 0.995 or more. *)
Lemma paiseOf_range q :
  0 <= q ->
  exists p : Z,
    paiseOf (Fin q) = ofZ p /\ (0 <= p <= 100)%Z
    /\ (q - inject_Z (Qfloor q) <= 99 # 100 -> (p <= 99)%Z)
    /\ (199 # 200 <= q - inject_Z (Qfloor q) -> p = 100%Z).
Proof.
  intros Hq. unfold paiseOf, rupeesOf.
  change (jmul (jsub (Fin q) (Math_floor (Fin q))) (ofZ 100))
    with (fin (Qred (q + Qred (- inject_Z (Qfloor q))) * inject_Z 100)).
  rewrite Math_round_fin.
  set (x := Qred (q + Qred (- inject_Z (Qfloor q))) * inject_Z 100 + (1 # 2)).
  assert (Hx : x == (q - inject_Z (Qfloor q)) * 100 + (1 # 2)).
  { subst x. rewrite !Qred_correct. change (inject_Z 100) with 100. ring. }
  pose proof (Qfloor_le q) as H1. pose proof (Qlt_floor q) as H2.
  rewrite inject_Z_plus in H2. change (inject_Z 1) with 1 in H2.
  pose proof (Qfloor_le x) as H3. pose proof (Qlt_floor x) as H4.
  rewrite inject_Z_plus in H4. change (inject_Z 1) with 1 in H4.
  exists (Qfloor x). split; [reflexivity |].
  clearbody x. set (f := inject_Z (Qfloor q)) in *. clearbody f.
  assert (Hlo : (0 <= Qfloor x)%Z).
  { assert (-1 < Qfloor x)%Z; [| lia]. rewrite Zlt_Qlt.
    change (inject_Z (-1)) with (-1). lra. }
  assert (Hhi : (Qfloor x <= 100)%Z).
  { assert (Qfloor x < 101)%Z; [| lia]. rewrite Zlt_Qlt.
    change (inject_Z 101) with 101. lra. }
  split; [lia |]. split.
  - intros Hfrac. assert (Qfloor x < 100)%Z; [| lia]. rewrite Zlt_Qlt.
    change (inject_Z 100) with 100. lra.
  - intros Hfrac. assert (99 < Qfloor x)%Z; [| lia].
    assert (100 < Qfloor x + 1)%Z; [| lia]. rewrite Zlt_Qlt, inject_Z_plus.
    change (inject_Z 100) with 100. change (inject_Z 1) with 1. lra.
Qed.

End PaiseRange.

Lemma inRange_of_total (m : MonetaryAmount) :
  (exists t, (0 <= t)%Z
     /\ m = {| rs := Some (ofZ (t / 100)); paise := Some (ofZ (t mod 100)) |}) ->
  inRange m.
Proof.
  intros (t & Ht & ->). exists (t / 100)%Z, (t mod 100)%Z.
  split; [reflexivity |]. Z.div_mod_to_equations. lia.
Qed.

(** C3, as amended.  On entries that are not negative and stay below 2^53,
    where whole numbers are exact, the calculation functions give whole
    rupees with paise from 0 to 99: a row total for a quantity and a price
    whose product is not negative and below 2^53 paise, total sales when
    every row is such, total expenses when each of the 26 expense fields
    reads as a whole number from 0 to 2^53, and the net balance of whole
    totals below 2^52 paise.  For a finite amount that is not negative, the
    paise of [amountToWordsWithPaise] is a whole number from 0 to 100; it is
    at most 99 when the fraction of the amount is at most 0.99, and it is
    100 when the fraction is 0.995 or more; an amount of [r] rupees and [p]
    paise with two decimals, below a million million rupees, gives back
    [p]. *)
Theorem paise_component_range :
  (forall (invoiceData : gmap string jsstring) (rowIndex : nat) (q c : Q),
     rowQuantity invoiceData rowIndex = Fin q ->
     rowPrice invoiceData rowIndex = Fin c -> (0 <= q * c)%Q ->
     (Qabs q < inject_Z (2 ^ 53))%Q -> (Qabs c < inject_Z (2 ^ 53))%Q ->
     (q * c * 100 < inject_Z (2 ^ 53))%Q ->
     calculateRowTotal invoiceData rowIndex = blank
     \/ inRange (calculateRowTotal invoiceData rowIndex))
  /\ (forall invoiceData : gmap string jsstring,
     (forall rowIndex, (rowIndex < 13)%nat -> exists q c,
        rowQuantity invoiceData rowIndex = Fin q
        /\ rowPrice invoiceData rowIndex = Fin c /\ (0 <= q * c)%Q
        /\ (Qabs q < inject_Z (2 ^ 53))%Q /\ (Qabs c < inject_Z (2 ^ 53))%Q
        /\ (q * c * 100 < inject_Z (2 ^ 53))%Q) ->
     calculateTotalSales invoiceData = blank
     \/ inRange (calculateTotalSales invoiceData))
  /\ (forall invoiceData : gmap string jsstring,
     (forall i : nat, (i < 8)%nat ->
        exists r p : Z, (0 <= r < 2 ^ 53)%Z /\ (0 <= p < 2 ^ 53)%Z
          /\ numField invoiceData ("expense" +:+ pretty i +:+ "_rs") = ofZ r
          /\ numField invoiceData ("expense" +:+ pretty i +:+ "_paise") = ofZ p) ->
     (forall i : nat, (i < 5)%nat ->
        exists r p : Z, (0 <= r < 2 ^ 53)%Z /\ (0 <= p < 2 ^ 53)%Z
          /\ numField invoiceData ("empty" +:+ pretty i +:+ "_rs") = ofZ r
          /\ numField invoiceData ("empty" +:+ pretty i +:+ "_paise") = ofZ p) ->
     inRange (calculateTotalExpenses invoiceData))
  /\ (forall (sRs sPaise : number) (totalExpenses : MonetaryAmount) (s e : Z),
     (Z.abs s < 2 ^ 52)%Z -> (Z.abs e < 2 ^ 52)%Z ->
     inPaise {| rs := Some sRs; paise := Some sPaise |} = ofZ s ->
     inPaise totalExpenses = ofZ e ->
     exists zr zp : Z,
       netRs (netBalanceOf {| rs := Some sRs; paise := Some sPaise |} totalExpenses)
         = Some (ofZ zr)
       /\ netPaise (netBalanceOf {| rs := Some sRs; paise := Some sPaise |} totalExpenses)
         = Some (ofZ zp)
       /\ (0 <= zr)%Z /\ (0 <= zp <= 99)%Z)
  /\ (forall q : Q, (0 <= q)%Q ->
     exists p : Z,
       paiseOf (Fin q) = ofZ p /\ (0 <= p <= 100)%Z
       /\ ((q - inject_Z (Qfloor q) <= 99 # 100)%Q -> (p <= 99)%Z)
       /\ ((199 # 200 <= q - inject_Z (Qfloor q))%Q -> p = 100%Z))
  /\ (forall r p : Z, (0 <= p <= 99)%Z -> (Z.abs r <= 10 ^ 12)%Z ->
     rupeesOf (fin (inject_Z (100 * r + p) / 100)) = ofZ r
     /\ paiseOf (fin (inject_Z (100 * r + p) / 100)) = ofZ p).
Proof.
  split.
  { intros invoiceData rowIndex q c Hq Hc Hqc _ _ _.
    destruct (calculateRowTotal_whole _ _ _ _ Hq Hc Hqc) as [H | H];
      [left; exact H | right; apply inRange_of_total, H]. }
  split.
  { intros invoiceData Hrows.
    assert (Hrows' : forall rowIndex, (rowIndex < 13)%nat -> exists q c,
              rowQuantity invoiceData rowIndex = Fin q
              /\ rowPrice invoiceData rowIndex = Fin c /\ (0 <= q * c)%Q).
    { intros rowIndex Hlt.
      destruct (Hrows rowIndex Hlt) as (q & c & Hq & Hc & Hqc & _).
      exists q, c. repeat split; assumption. }
    destruct (calculateTotalSales_whole _ Hrows') as [H | H];
      [left; exact H | right; apply inRange_of_total, H]. }
  split.
  { intros invoiceData Hexpense Hempty.
    apply inRange_of_total, calculateTotalExpenses_whole.
    - intros i Hi. destruct (Hexpense i Hi) as (r & p & Hr & Hp & Er & Ep).
      exists r, p. repeat split; assumption || lia.
    - intros i Hi. destruct (Hempty i Hi) as (r & p & Hr & Hp & Er & Ep).
      exists r, p. repeat split; assumption || lia. }
  split.
  { intros sRs sPaise totalExpenses s e _ _ Hs He.
    rewrite (netBalanceOf_whole sRs sPaise totalExpenses s e Hs He).
    exists (Z.abs (s - e) / 100)%Z, (Z.abs (s - e) mod 100)%Z.
    split; [reflexivity |]. split; [reflexivity |].
    Z.div_mod_to_equations. lia. }
  split; [exact paiseOf_range |].
  intros r p Hp _. apply amount_split, Hp.
Qed.

Lemma paise_component_range_witness :
  (calculateRowTotal {[ "row0_item" := u "3"; "row0_price" := u "10.51" ]}%string 0 = blank
   \/ inRange (calculateRowTotal {[ "row0_item" := u "3"; "row0_price" := u "10.51" ]}%string 0))
  /\ inRange (calculateTotalExpenses {[ "expense0_rs" := u "70" ]}%string)
  /\ (calculateTotalSales ∅ = blank \/ inRange (calculateTotalSales ∅))
  /\ (exists zr zp : Z,
       netRs (netBalanceOf {| rs := Some (ofZ 12); paise := Some (ofZ 30) |}
                           {| rs := Some (ofZ 40); paise := Some (ofZ 75) |})
         = Some (ofZ zr)
       /\ netPaise (netBalanceOf {| rs := Some (ofZ 12); paise := Some (ofZ 30) |}
                                 {| rs := Some (ofZ 40); paise := Some (ofZ 75) |})
         = Some (ofZ zp)
       /\ (0 <= zr)%Z /\ (0 <= zp <= 99)%Z)
  /\ (exists p : Z,
       paiseOf (Fin (417511 # 100)) = ofZ p /\ (0 <= p <= 100)%Z
       /\ (((417511 # 100) - inject_Z (Qfloor (417511 # 100)) <= 99 # 100)%Q
           -> (p <= 99)%Z)
       /\ ((199 # 200 <= (417511 # 100) - inject_Z (Qfloor (417511 # 100)))%Q
           -> p = 100%Z))
  /\ paiseOf (fin (inject_Z (100 * 7 + 45) / 100)) = ofZ 45.
Proof.
  destruct paise_component_range as (Hrow & Hsales & Hexp & Hnet & Hpaise & Htwo).
  split.
  { apply (Hrow _ 0%nat 3%Q (1051 # 100)%Q); vm_compute; try reflexivity;
      discriminate. }
  split.
  { apply Hexp.
    - intros i Hi. destruct i as [| i].
      + exists 70%Z, 0%Z. repeat split; try lia; vm_compute; reflexivity.
      + exists 0%Z, 0%Z.
        do 7 (destruct i as [| i];
              [repeat split; try lia; vm_compute; reflexivity |]).
        lia.
    - intros i Hi. exists 0%Z, 0%Z.
      do 5 (destruct i as [| i];
            [repeat split; try lia; vm_compute; reflexivity |]).
      lia. }
  split.
  { apply Hsales. intros rowIndex _. exists 0%Q, 0%Q.
    unfold rowQuantity, rowPrice. rewrite !numField_unset by apply lookup_empty.
    repeat split; vm_compute; discriminate || reflexivity. }
  split.
  { apply (Hnet (ofZ 12) (ofZ 30) _ 1230%Z 4075%Z); try lia; vm_compute; reflexivity. }
  split.
  { apply Hpaise. discriminate. }
  apply (Htwo 7%Z 45%Z); lia.
Defined.

(** C3 as stated fails: an amount that is not negative can give 100 paise,
    and a negative expense entry gives negative paise. *)
Lemma paise_component_range_counterexample :
  jge (Fin (999 # 1000)) (ofZ 0) = true
  /\ paiseOf (Fin (999 # 1000)) = ofZ 100
  /\ amountToWordsWithPaise (Fin (999 # 1000))
     = u "Zero Rupees and One Hundred Paise only"
  /\ calculateTotalExpenses {[ "expense0_rs" := u "-0.5" ]}%string
     = {| rs := Some (ofZ (-1)); paise := Some (ofZ (-50)) |}.
Proof. repeat split; vm_compute; reflexivity. Qed.

(** ** parseMarathiNumber *)

Section ParseNumber.

(** A white-space unit is none of the printable ASCII characters. *)
Lemma space_not_printable c k :
  isSpace c = true -> 0x21 <= k <= 0x7E -> (k =? c) = false.
Proof.
  intros Hc Hk. apply N.eqb_neq. intros <-. revert Hc. unfold isSpace.
  repeat match goal with
  | |- context [N.eqb k ?v] => destruct (N.eqb_spec k v); [lia |]
  | |- context [N.leb ?v k] => destruct (N.leb_spec v k); [lia |]
  end. cbn. discriminate.
Qed.

Lemma space_not_digit c : isSpace c = true -> isDigit c = false.
Proof.
  intros Hc. unfold isDigit.
  destruct (N.leb_spec 0x30 c), (N.leb_spec c 0x39); try reflexivity.
  pose proof (space_not_printable c c Hc ltac:(lia)) as Hself.
  rewrite N.eqb_refl in Hself. discriminate.
Qed.

Lemma trimStart_spaces (ws : jsstring) :
  Forall (fun c => isSpace c = true) ws -> trimStart ws = [].
Proof. induction 1 as [| c ws Hc _ IH]; cbn; [| rewrite Hc]; auto. Qed.

Lemma trimStart_app_spaces (ws s : jsstring) :
  Forall (fun c => isSpace c = true) ws -> trimStart (ws ++ s) = trimStart s.
Proof. induction 1 as [| c ws Hc _ IH]; cbn; [| rewrite Hc]; auto. Qed.

(** A string is its leading white space followed by what [trimStart]
    keeps. *)
Lemma trimStart_split (s : jsstring) :
  exists ws, Forall (fun c => isSpace c = true) ws /\ s = ws ++ trimStart s.
Proof.
  induction s as [| c s (ws & Hws & IH)].
  - exists []. split; [constructor | reflexivity].
  - cbn. destruct (isSpace c) eqn:E.
    + exists (c :: ws). split; [constructor; assumption |]. cbn. congruence.
    + exists []. split; [constructor | reflexivity].
Qed.

(** [trim] removes leading and trailing white space only. *)
Lemma trim_split (s : jsstring) :
  exists ws1 ws2,
    Forall (fun c => isSpace c = true) ws1
    /\ Forall (fun c => isSpace c = true) ws2
    /\ s = ws1 ++ trim s ++ ws2.
Proof.
  destruct (trimStart_split s) as (ws1 & H1 & E1).
  destruct (trimStart_split (rev (trimStart s))) as (ws2 & H2 & E2).
  exists ws1, (rev ws2). split; [exact H1 |]. split.
  - apply Forall_rev, H2.
  - unfold trim. rewrite <- rev_app_distr, <- E2, rev_involutive. exact E1.
Qed.

Lemma takeDigits_app_spaces (s ws : jsstring) :
  Forall (fun c => isSpace c = true) ws ->
  takeDigits (s ++ ws) = (fst (takeDigits s), snd (takeDigits s) ++ ws).
Proof.
  intros Hws. induction s as [| c s IH]; cbn [app].
  - destruct Hws as [| w ws Hw _]; [reflexivity |].
    cbn. rewrite (space_not_digit w Hw). reflexivity.
  - cbn [takeDigits]. destruct (isDigit c); [| reflexivity].
    rewrite IH. destruct (takeDigits s). reflexivity.
Qed.

Lemma startsWith_app_spaces (p s ws : jsstring) :
  Forall (fun c => 0x21 <= c <= 0x7E) p ->
  Forall (fun c => isSpace c = true) ws ->
  startsWith p (s ++ ws) = startsWith p s.
Proof.
  intros Hp Hws. revert s. induction Hp as [| a p Ha _ IH]; intros s.
  - reflexivity.
  - destruct s as [| b s]; cbn [app startsWith].
    + destruct Hws as [| w ws Hw _]; [reflexivity |].
      cbn. rewrite (space_not_printable w a Hw Ha). reflexivity.
    + rewrite IH. reflexivity.
Qed.

Lemma parseExponent_app_spaces (s ws : jsstring) :
  Forall (fun c => isSpace c = true) ws ->
  parseExponent (s ++ ws) = parseExponent s.
Proof.
  intros Hws.
  assert (Hhead : forall w k, In w ws -> 0x21 <= k <= 0x7E -> (w =? k) = false).
  { intros w k Hin Hk. rewrite Forall_forall in Hws.
    rewrite N.eqb_sym. apply space_not_printable; auto. rewrite <- list_elem_of_In in Hin.
    exact (Hws w Hin). }
  assert (Hd : forall r, fst (takeDigits (r ++ ws)) = fst (takeDigits r))
    by (intros r; rewrite takeDigits_app_spaces by exact Hws; reflexivity).
  destruct s as [| c r]; cbn [app].
  - destruct ws as [| w ws']; [reflexivity |]. unfold parseExponent.
    rewrite !(Hhead w) by (first [left; reflexivity | vm_compute; split; discriminate]).
    reflexivity.
  - unfold parseExponent. destruct (_ || _); [| reflexivity].
    destruct r as [| sg r']; cbn [app].
    + destruct ws as [| w ws']; [reflexivity |].
      rewrite !(Hhead w) by (first [left; reflexivity | vm_compute; split; discriminate]).
      change (w :: ws') with ([] ++ w :: ws'). rewrite Hd. reflexivity.
    + rewrite Hd. change (sg :: r' ++ ws) with ((sg :: r') ++ ws). rewrite Hd.
      reflexivity.
Qed.

Lemma parseUnsigned_app_spaces (s ws : jsstring) :
  Forall (fun c => isSpace c = true) ws ->
  parseUnsigned (s ++ ws) = parseUnsigned s.
Proof.
  intros Hws. unfold parseUnsigned.
  rewrite startsWith_app_spaces;
    [| vm_compute; repeat constructor; discriminate | exact Hws].
  destruct (startsWith _ s); [reflexivity |].
  rewrite takeDigits_app_spaces by exact Hws.
  destruct (takeDigits s) as [ip r1]. cbn [fst snd].
  assert (Hdot :
    match r1 ++ ws with
    | c :: r => if c =? ch "." then takeDigits r else ([], r1 ++ ws)
    | [] => ([], r1 ++ ws)
    end
    = (fst match r1 with
           | c :: r => if c =? ch "." then takeDigits r else ([], r1)
           | [] => ([], r1)
           end,
       snd match r1 with
           | c :: r => if c =? ch "." then takeDigits r else ([], r1)
           | [] => ([], r1)
           end ++ ws)).
  { destruct r1 as [| c r]; cbn [app].
    - destruct Hws as [| w ws Hw _]; [reflexivity |].
      rewrite N.eqb_sym, (space_not_printable w _ Hw) by (vm_compute; split; discriminate).
      reflexivity.
    - destruct (c =? ch "."); [| reflexivity].
      apply takeDigits_app_spaces, Hws. }
  rewrite Hdot.
  destruct (match r1 with
            | c :: r => if c =? ch "." then takeDigits r else ([], r1)
            | [] => ([], r1)
            end) as [fp r2].
  cbn [fst snd]. rewrite parseExponent_app_spaces by exact Hws. reflexivity.
Qed.

(** [parseFloat] does not look at white space around its argument. *)
Lemma parseFloat_spaces (ws1 s ws2 : jsstring) :
  Forall (fun c => isSpace c = true) ws1 ->
  Forall (fun c => isSpace c = true) ws2 ->
  parseFloat (ws1 ++ s ++ ws2) = parseFloat s.
Proof.
  intros H1 H2. unfold parseFloat. rewrite trimStart_app_spaces by exact H1.
  destruct (trimStart_split s) as (ws & Hws & E).
  rewrite E at 1. rewrite <- app_assoc, trimStart_app_spaces by exact Hws.
  destruct (trimStart s) as [| c r] eqn:Et.
  - cbn [app]. rewrite trimStart_spaces by exact H2. reflexivity.
  - assert (Hc : isSpace c = false).
    { destruct s as [| c0 s0]; [discriminate |].
      clear -Et. revert c r Et. induction (c0 :: s0) as [| x l IH]; [discriminate |].
      cbn. intros c r. destruct (isSpace x) eqn:Ex; [apply IH |].
      intros [= <- <-]. exact Ex. }
    cbn [app trimStart]. rewrite Hc.
    rewrite !parseUnsigned_app_spaces by exact H2.
    change (c :: r ++ ws2) with ((c :: r) ++ ws2).
    rewrite parseUnsigned_app_spaces by exact H2. reflexivity.
Qed.

Lemma digit_pipeline_spaces (ws : jsstring) :
  Forall (fun c => isSpace c = true) ws ->
  stripCommas (map toLatinUnit ws) = ws.
Proof.
  induction 1 as [| c ws Hc _ IH]; [reflexivity |].
  cbn [map]. unfold stripCommas in *. cbn [List.filter].
  assert (Hu : toLatinUnit c = c).
  { unfold toLatinUnit, isMarathiDigit.
    destruct (N.leb_spec 0x0966 c), (N.leb_spec c 0x096F); try reflexivity.
    exfalso. revert Hc. unfold isSpace.
    repeat match goal with
    | |- context [N.eqb c ?v] => destruct (N.eqb_spec c v); [lia |]
    | |- context [N.leb ?v c] => destruct (N.leb_spec v c); try lia
    | |- context [N.leb c ?v] => destruct (N.leb_spec c v); try lia
    end; cbn; discriminate. }
  rewrite Hu, N.eqb_sym, (space_not_printable c _ Hc) by (vm_compute; split; discriminate).
  cbn [negb]. rewrite IH. reflexivity.
Qed.

(** The trimming done first by [parseMarathiNumber] does not change what is
    parsed. *)
Lemma parse_pipeline_trim (text : jsstring) :
  parseFloat (stripCommas (marathiToEnglish (trim text)))
  = parseFloat (stripCommas (marathiToEnglish text)).
Proof.
  destruct (trim_split text) as (ws1 & ws2 & H1 & H2 & E).
  assert (Happ : forall x y, stripCommas (x ++ y) = stripCommas x ++ stripCommas y)
    by (intros x y; apply List.filter_app).
  rewrite E at 2. rewrite !marathiToEnglish_map, !map_app, !Happ.
  rewrite (digit_pipeline_spaces ws1 H1), (digit_pipeline_spaces ws2 H2).
  symmetry. apply parseFloat_spaces; assumption.
Qed.

End ParseNumber.

Lemma parseMarathiNumber_pipeline (text : jsstring) :
  parseMarathiNumber text
  = (let parsed := parseFloat (stripCommas (marathiToEnglish text)) in
     if isNaN parsed then ofZ 0 else parsed).
Proof.
  destruct text as [| c r]; [reflexivity |].
  unfold parseMarathiNumber. cbv zeta. rewrite parse_pipeline_trim. reflexivity.
Qed.

(** C9.  [parseMarathiNumber] is a total function whose result is never
    [NaN]: it is what [parseFloat] reads from the text after the Devanagari
    digits are mapped to ASCII and the commas removed, and 0 when that is
    not a number.  The Devanagari text for 12,345.67 parses to 12345.67,
    [abc] and the empty text to 0. *)
Theorem parse_number_total :
  (forall text : jsstring, isNaN (parseMarathiNumber text) = false)
  /\ (forall text : jsstring,
      parseMarathiNumber text
      = (let parsed := parseFloat (stripCommas (marathiToEnglish text)) in
         if isNaN parsed then ofZ 0 else parsed))
  /\ (forall text : jsstring,
      parseFloat (stripCommas (marathiToEnglish text)) = NaN ->
      parseMarathiNumber text = ofZ 0)
  /\ parseMarathiNumber (u "१२,३४५.६७") = Fin (1234567 # 100)
  /\ parseMarathiNumber (u "abc") = ofZ 0
  /\ parseMarathiNumber [] = ofZ 0.
Proof.
  split.
  { intros text. rewrite parseMarathiNumber_pipeline. cbv zeta.
    destruct (parseFloat _); reflexivity. }
  split; [exact parseMarathiNumber_pipeline |].
  split.
  { intros text H. rewrite parseMarathiNumber_pipeline, H. reflexivity. }
  repeat split; vm_compute; reflexivity.
Qed.

Lemma parse_number_total_witness :
  parseMarathiNumber (u "  Rs. ५०") = ofZ 0.
Proof.
  apply (proj1 (proj2 (proj2 parse_number_total))). vm_compute. reflexivity.
Defined.

(** ** Transliteration *)

Section TransliterationFacts.


(** With the script element of a failed load in the page, a call that
    needs the backend never settles. *)
Lemma stuck_pending env page (text : jsstring) :
  stuck env page -> text <> [] -> hasDevanagari text = false ->
  transliterateToMarathiAsync env page text = Pending.
Proof.
  intros (Hw & Hi & Hl & Ht & Hs) Hne Hdev. unfold transliterateToMarathiAsync.
  destruct text as [| c r] eqn:Et; [congruence |]. rewrite <- Et in *.
  rewrite Hdev, Hw. cbn [negb].
  unfold getAksharamukhaInstance, loadAksharamukha.
  rewrite Hi, Hw, Hl, Ht, Hs. reflexivity.
Qed.

Lemma digraph_devanagari char nextChar atEnd out :
  digraph char nextChar atEnd = Some out ->
  forallb isDevanagari out = true /\ out <> [].
Proof.
  unfold digraph.
  repeat match goal with
  | |- context [if ?b then _ else _] => destruct b
  end; intros [= <-]; split; (vm_compute; reflexivity) || discriminate.
Qed.

Lemma monograph_devanagari char out :
  monograph char = Some out -> forallb isDevanagari out = true /\ out <> [].
Proof.
  unfold monograph.
  repeat match goal with
  | |- context [if ?b then _ else _] => destruct b
  end; intros [= <-]; split; (vm_compute; reflexivity) || discriminate.
Qed.

Lemma monograph_lowercase char out :
  monograph char = Some out -> 0x61 <= char <= 0x7A.
Proof.
  destruct (N.leb_spec 0x61 char), (N.leb_spec char 0x7A); [lia | | |];
    unfold monograph;
    repeat match goal with
    | |- context [N.eqb char ?v] =>
      let v' := eval vm_compute in v in
      change v with v'; destruct (N.eqb_spec char v'); [lia |]
    end; cbn; discriminate.
Qed.

Lemma hasRule_letter c : hasRule c = true -> isLetter c = true.
Proof.
  unfold hasRule. destruct (monograph (lowerUnit c)) as [out |] eqn:E; [| discriminate].
  intros _. apply monograph_lowercase in E. revert E. unfold lowerUnit, isLetter.
  destruct (N.leb_spec 0x41 c), (N.leb_spec c 0x5A), (N.leb_spec 0x61 c),
    (N.leb_spec c 0x7A); cbn; intros; try reflexivity; lia.
Qed.

Lemma letter_not_devanagari c : isLetter c = true -> isDevanagari c = false.
Proof.
  unfold isLetter, isDevanagari.
  destruct (N.leb_spec 0x41 c), (N.leb_spec c 0x5A), (N.leb_spec 0x61 c),
    (N.leb_spec c 0x7A), (N.leb_spec 0x0900 c); cbn; intros; try reflexivity;
    try discriminate; lia.
Qed.

Lemma letters_no_devanagari (s : jsstring) :
  Forall (fun c => isLetter c = true) s -> hasDevanagari s = false.
Proof.
  unfold hasDevanagari. induction 1 as [| c s Hc _ IH]; [reflexivity |].
  cbn [existsb]. rewrite (letter_not_devanagari c Hc), IH. reflexivity.
Qed.



End TransliterationFacts.




Section DictionaryFacts.


Lemma letter_not_space c : isLetter c = true -> isSpace c = false.
Proof.
  intros H. destruct (isSpace c) eqn:E; [| reflexivity].
  assert (Hr : 0x21 <= c <= 0x7E).
  { revert H. unfold isLetter.
    destruct (N.leb_spec 0x41 c), (N.leb_spec c 0x5A), (N.leb_spec 0x61 c),
      (N.leb_spec c 0x7A); cbn; intros; try discriminate; lia. }
  pose proof (space_not_printable c c E Hr) as Hself.
  rewrite N.eqb_refl in Hself. discriminate.
Qed.

Lemma letter_not_punct c : isLetter c = true -> isPunct c = false.
Proof.
  intros H. unfold isPunct.
  let l := eval vm_compute in (u ".,;:!?-_()[]{}'" ++ [0x22]) in
  change (u ".,;:!?-_()[]{}'" ++ [0x22]) with l.
  cbn [existsb].
  repeat match goal with
  | |- context [N.eqb c ?k] =>
    destruct (N.eqb_spec c k) as [-> |]; [vm_compute in H; discriminate |]
  end.
  reflexivity.
Qed.

Lemma letter_not_digit c : isLetter c = true -> isDigit c = false.
Proof.
  unfold isLetter, isDigit.
  destruct (N.leb_spec 0x41 c), (N.leb_spec c 0x5A), (N.leb_spec 0x61 c),
    (N.leb_spec c 0x7A), (N.leb_spec 0x30 c), (N.leb_spec c 0x39); cbn; intros;
    try reflexivity; try discriminate; lia.
Qed.





End DictionaryFacts.




(** * Further properties *)

(** ** Digits in both scripts *)

Section DigitMapsMore.

Lemma toLatin_toDevanagari_unit c : toLatinUnit (toDevanagariUnit c) = toLatinUnit c.
Proof.
  unfold toDevanagariUnit. destruct (isDigit c) eqn:E; [| reflexivity].
  unfold isDigit in E. apply andb_true_iff in E as [H1%N.leb_le H2%N.leb_le].
  unfold toLatinUnit, isMarathiDigit.
  destruct (N.leb_spec 0x0966 (c - 0x30 + 0x0966)), (N.leb_spec (c - 0x30 + 0x0966) 0x096F);
    try lia.
  destruct (N.leb_spec 0x0966 c); cbn [andb]; lia.
Qed.

Lemma toLatinUnit_id c : isMarathiDigit c = false -> toLatinUnit c = c.
Proof. intros H. unfold toLatinUnit. rewrite H. reflexivity. Qed.

Lemma toDevanagariUnit_id c : isDigit c = false -> toDevanagariUnit c = c.
Proof. intros H. unfold toDevanagariUnit. rewrite H. reflexivity. Qed.

Lemma map_id_on {A} (f : A -> A) (p : A -> bool) (l : list A) :
  (forall x, p x = false -> f x = x) -> existsb p l = false -> map f l = l.
Proof.
  intros Hf. induction l as [| x l IH]; [reflexivity |].
  cbn. intros H. apply orb_false_iff in H as [Hx Hl].
  rewrite (Hf x Hx), (IH Hl). reflexivity.
Qed.

Lemma marathiToEnglish_englishToMarathi (s : jsstring) :
  marathiToEnglish (englishToMarathi s) = marathiToEnglish s.
Proof.
  rewrite !marathiToEnglish_map, englishToMarathi_map, map_map.
  apply map_ext, toLatin_toDevanagari_unit.
Qed.

Lemma marathiToEnglish_id (s : jsstring) :
  containsMarathiDigits s = false -> marathiToEnglish s = s.
Proof.
  intros H. rewrite marathiToEnglish_map.
  apply (map_id_on _ isMarathiDigit); [apply toLatinUnit_id | exact H].
Qed.

Lemma englishToMarathi_id (s : jsstring) :
  existsb isDigit s = false -> englishToMarathi s = s.
Proof.
  intros H. rewrite englishToMarathi_map.
  apply (map_id_on _ isDigit); [apply toDevanagariUnit_id | exact H].
Qed.

Lemma no_marathi_after_marathiToEnglish (s : jsstring) :
  containsMarathiDigits (marathiToEnglish s) = false.
Proof.
  rewrite marathiToEnglish_map. unfold containsMarathiDigits.
  induction s as [| c s IH]; [reflexivity |].
  cbn [map existsb]. rewrite toLatinUnit_not_marathi, IH. reflexivity.
Qed.

Lemma no_digit_after_englishToMarathi (s : jsstring) :
  existsb isDigit (englishToMarathi s) = false.
Proof.
  rewrite englishToMarathi_map.
  induction s as [| c s IH]; [reflexivity |].
  cbn [map existsb]. rewrite toDevanagariUnit_not_digit, IH. reflexivity.
Qed.

Lemma convertNumbersToMarathi_englishToMarathi (text : jsstring) :
  convertNumbersToMarathi text = englishToMarathi text.
Proof.
  rewrite englishToMarathi_map. unfold convertNumbersToMarathi.
  destruct text as [| c0 r0]; [reflexivity |].
  induction (c0 :: r0) as [| c r IH]; [reflexivity |].
  cbn [map concat]. rewrite IH. f_equal.
  assert (Hm : mapUnit marathiDigits c = [toDevanagariUnit c])
    by (change marathiDigits with ENGLISH_TO_MARATHI; apply mapUnit_english).
  rewrite Hm. unfold toDevanagariUnit. destruct (isDigit c); reflexivity.
Qed.

End DigitMapsMore.

(** X1.  Each digit map undoes the other on text that has no digit of the
    other script: [marathiToEnglish] after [englishToMarathi] gives back a
    text without Devanagari digits, and [englishToMarathi] after
    [marathiToEnglish] gives back a text without ASCII digits.  On any text,
    mapping to one script first does not change what the map to the other
    script returns. *)
Theorem digit_maps_undo_each_other :
  (forall s : jsstring,
     containsMarathiDigits s = false -> marathiToEnglish (englishToMarathi s) = s)
  /\ (forall s : jsstring,
     existsb isDigit s = false -> englishToMarathi (marathiToEnglish s) = s)
  /\ (forall s : jsstring,
     marathiToEnglish (englishToMarathi s) = marathiToEnglish s)
  /\ (forall s : jsstring,
     normalizeInputForCalculation (englishToMarathi s) = normalizeInputForCalculation s).
Proof.
  split.
  { intros s H. rewrite marathiToEnglish_englishToMarathi. apply marathiToEnglish_id, H. }
  split.
  { intros s H. rewrite marathiToEnglish_map, englishToMarathi_map, map_map.
    rewrite <- (map_id s) at 2. apply map_ext_in. intros c Hc.
    assert (Hd : isDigit c = false).
    { destruct (isDigit c) eqn:E; [| reflexivity].
      assert (existsb isDigit s = true) by (apply existsb_exists; eauto). congruence. }
    unfold toLatinUnit. destruct (isMarathiDigit c) eqn:Em.
    - unfold isMarathiDigit in Em.
      apply andb_true_iff in Em as [H1%N.leb_le H2%N.leb_le].
      unfold toDevanagariUnit, isDigit.
      destruct (N.leb_spec 0x30 (c - 0x0966 + 0x30)), (N.leb_spec (c - 0x0966 + 0x30) 0x39);
        cbn [andb]; lia.
    - apply toDevanagariUnit_id, Hd. }
  split; [exact marathiToEnglish_englishToMarathi |].
  intros s. apply marathiToEnglish_englishToMarathi.
Qed.

Lemma digit_maps_undo_each_other_witness :
  marathiToEnglish (englishToMarathi (u "Rs. 1,250.75")) = u "Rs. 1,250.75"
  /\ englishToMarathi (marathiToEnglish (u "दि. २८-०५-२०२५")) = u "दि. २८-०५-२०२५".
Proof.
  destruct digit_maps_undo_each_other as (H1 & H2 & _).
  split; [apply H1 | apply H2]; vm_compute; reflexivity.
Defined.

(** X2.  [parseMarathiNumber] reads the same number from a text, from its
    Devanagari-digit form and from its ASCII-digit form; after
    [marathiToEnglish] no Devanagari digit is left and after
    [englishToMarathi] no ASCII digit is left. *)
Theorem parse_is_script_blind :
  (forall s : jsstring, parseMarathiNumber (englishToMarathi s) = parseMarathiNumber s)
  /\ (forall s : jsstring, parseMarathiNumber (marathiToEnglish s) = parseMarathiNumber s)
  /\ (forall s : jsstring, containsMarathiDigits (marathiToEnglish s) = false)
  /\ (forall s : jsstring, existsb isDigit (englishToMarathi s) = false).
Proof.
  split.
  { intros s. rewrite !parseMarathiNumber_pipeline, marathiToEnglish_englishToMarathi.
    reflexivity. }
  split.
  { intros s. rewrite !parseMarathiNumber_pipeline.
    rewrite (marathiToEnglish_id (marathiToEnglish s))
      by apply no_marathi_after_marathiToEnglish.
    reflexivity. }
  split; [exact no_marathi_after_marathiToEnglish | exact no_digit_after_englishToMarathi].
Qed.

(** X3.  [convertNumbersToMarathi] returns what [englishToMarathi] returns,
    on every text, and so does [convertToMarathi] on every string.  The
    synchronous [convertInputToMarathi] returns a text that has a Devanagari
    unit untouched, ASCII digits included, and the text with its ASCII
    digits mapped otherwise; [transliterateToMarathi] returns its text. *)
Theorem sync_conversion_maps_digits_only :
  (forall text : jsstring, convertNumbersToMarathi text = englishToMarathi text)
  /\ (forall str : jsstring, convertToMarathi (Some str) = englishToMarathi str)
  /\ (forall text : jsstring,
      convertInputToMarathi text
      = if hasDevanagari text then text else englishToMarathi text)
  /\ (forall text : jsstring, transliterateToMarathi text = text)
  /\ convertInputToMarathi (u "गाळा 12") = u "गाळा 12"
  /\ convertToMarathi (Some (u "गाळा 12")) = u "गाळा १२".
Proof.
  split; [exact convertNumbersToMarathi_englishToMarathi |].
  split.
  { intros str. unfold convertToMarathi, transliterateText.
    destruct (isMarathi str) eqn:E.
    - apply convertNumbersToMarathi_englishToMarathi.
    - destruct str as [| c r] eqn:Es; [reflexivity |]. rewrite <- Es in *.
      apply convertNumbersToMarathi_englishToMarathi. }
  split.
  { intros text. destruct text as [| c r]; [reflexivity |].
    unfold convertInputToMarathi, transliterateText, isMarathi.
    destruct (hasDevanagari (c :: r)); [reflexivity |].
    apply convertNumbersToMarathi_englishToMarathi. }
  split.
  { intros text. unfold transliterateToMarathi.
    destruct text; [reflexivity |]. destruct (hasDevanagari _); reflexivity. }
  split; vm_compute; reflexivity.
Qed.

Section DigitsInText.

Lemma isDevanagari_toDevanagariUnit c :
  isDevanagari (toDevanagariUnit c) = isDevanagari c || isDigit c.
Proof.
  unfold toDevanagariUnit. destruct (isDigit c) eqn:E.
  - rewrite orb_true_r. unfold isDigit in E.
    apply andb_true_iff in E as [H1%N.leb_le H2%N.leb_le]. unfold isDevanagari.
    apply andb_true_intro. split; apply N.leb_le; lia.
  - rewrite orb_false_r. reflexivity.
Qed.

Lemma hasDevanagari_englishToMarathi (s : jsstring) :
  hasDevanagari (englishToMarathi s) = hasDevanagari s || existsb isDigit s.
Proof.
  rewrite englishToMarathi_map. unfold hasDevanagari.
  induction s as [| c s IH]; [reflexivity |].
  cbn [map existsb]. rewrite IH, isDevanagari_toDevanagariUnit.
  destruct (isDevanagari c), (isDigit c), (existsb isDevanagari s), (existsb isDigit s);
    reflexivity.
Qed.

Lemma isMarathi_hasDevanagari (text : jsstring) : isMarathi text = hasDevanagari text.
Proof. destruct text; reflexivity. Qed.

Lemma transliterateEnglishToMarathi_eq env cache (text : jsstring) :
  transliterateEnglishToMarathi env cache text
  = if hasDevanagari text then Settled (text, cache)
    else transliterateToMarathiAsync env cache text.
Proof. destruct text; reflexivity. Qed.

Lemma transliterateTextAsync_eq env cache (text : jsstring) :
  transliterateTextAsync env cache text
  = if hasDevanagari text then Settled (text, cache)
    else
      match transliterateEnglishToMarathi env cache (englishToMarathi text) with
      | Settled (transliterated, cache') =>
        Settled (match transliterated with
                 | [] => englishToMarathi text
                 | _ => transliterated
                 end, cache')
      | Pending => Pending
      end.
Proof.
  destruct text as [| c r] eqn:Et; [reflexivity |]. rewrite <- Et.
  unfold transliterateTextAsync. rewrite isMarathi_hasDevanagari.
  rewrite convertNumbersToMarathi_englishToMarathi. rewrite Et at 1. reflexivity.
Qed.

Lemma transliterateTextAsync_digits env cache (text : jsstring) :
  hasDevanagari text = false -> existsb isDigit text = true ->
  transliterateTextAsync env cache text = Settled (englishToMarathi text, cache).
Proof.
  intros Hdev Hdig.
  rewrite transliterateTextAsync_eq, Hdev, transliterateEnglishToMarathi_eq.
  assert (Hout : hasDevanagari (englishToMarathi text) = true)
    by (rewrite hasDevanagari_englishToMarathi, Hdig; apply orb_true_r).
  rewrite Hout. destruct (englishToMarathi text); [discriminate Hout | reflexivity].
Qed.

Lemma transliterateTextAsync_no_digits env cache (text : jsstring) :
  hasDevanagari text = false -> existsb isDigit text = false ->
  transliterateTextAsync env cache text
  = match transliterateToMarathiAsync env cache text with
    | Settled (transliterated, cache') =>
      Settled (match transliterated with [] => text | _ => transliterated end, cache')
    | Pending => Pending
    end.
Proof.
  intros Hdev Hdig.
  rewrite transliterateTextAsync_eq, Hdev, (englishToMarathi_id text Hdig),
    transliterateEnglishToMarathi_eq, Hdev.
  reflexivity.
Qed.

End DigitsInText.

(** X4.  An ASCII digit anywhere in a text without Devanagari keeps the text
    away from the backend: [transliterateTextAsync], and with it
    [convertInputToMarathiAsync] and [convertToMarathiAsync], settle with the
    text with its digits mapped and its letters as they were, and leave the
    instance cache and the page alone, whatever the environment.  Without a
    digit the text goes to [transliterateToMarathiAsync] as it is. *)
Theorem digits_keep_text_from_backend :
  (forall env cache (text : jsstring),
     hasDevanagari text = false -> existsb isDigit text = true ->
     transliterateTextAsync env cache text = Settled (englishToMarathi text, cache)
     /\ convertInputToMarathiAsync env cache text = Settled (englishToMarathi text, cache)
     /\ convertToMarathiAsync env cache (Some text) = Settled (englishToMarathi text, cache))
  /\ (forall env cache (text : jsstring),
     hasDevanagari text = false -> existsb isDigit text = false ->
     transliterateTextAsync env cache text
     = match transliterateToMarathiAsync env cache text with
       | Settled (transliterated, cache') =>
         Settled (match transliterated with [] => text | _ => transliterated end, cache')
       | Pending => Pending
       end).
Proof.
  split; [| exact transliterateTextAsync_no_digits].
  intros env cache text Hdev Hdig.
  pose proof (transliterateTextAsync_digits env cache text Hdev Hdig) as H.
  split; [exact H |].
  split.
  - destruct text; [discriminate Hdig | exact H].
  - unfold convertToMarathiAsync. rewrite isMarathi_hasDevanagari, Hdev. exact H.
Qed.

Lemma digits_keep_text_from_backend_witness :
  transliterateTextAsync
    {| hasWindow := true; scriptLoads := true;
       newInstance := Some {| processAsync := fun _ _ _ => Some (u "दुकान") |} |}
    freshPage (u "Shop 12")
  = Settled (u "Shop १२", freshPage)
  /\ transliterateTextAsync
       {| hasWindow := true; scriptLoads := true;
          newInstance := Some {| processAsync := fun _ _ _ => Some (u "दुकान") |} |}
       freshPage (u "Shop")
     = Settled (u "दुकान",
                {| scriptTag := ScriptDone; library := true;
                   aksharamukhaInstance :=
                     Some {| processAsync := fun _ _ _ => Some (u "दुकान") |} |}).
Proof.
  destruct digits_keep_text_from_backend as (Hdig & Hno).
  split.
  - refine (proj1 (Hdig _ freshPage (u "Shop 12") _ _)); vm_compute; reflexivity.
  - rewrite Hno by (vm_compute; reflexivity). vm_compute. reflexivity.
Defined.

(** ** Splitting a text into words and separators *)

Section SplitFacts.

Lemma concat_splitLoop (s : jsstring) :
  (forall word, concat (splitLoop s word None) = word ++ s)
  /\ (forall r, concat (splitLoop s [] (Some r)) = r ++ s).
Proof.
  induction s as [| c s [IHn IHs]]; split; intros w; cbn [splitLoop].
  - cbn. rewrite !app_nil_r. reflexivity.
  - cbn. rewrite !app_nil_r. reflexivity.
  - destruct (isSpace c); [| destruct (isPunct c)]; cbn [concat].
    + rewrite IHs. reflexivity.
    + rewrite IHn. reflexivity.
    + rewrite IHn, <- app_assoc. reflexivity.
  - destruct (isSpace c); [| destruct (isPunct c)]; cbn [concat].
    + rewrite IHs, <- app_assoc. reflexivity.
    + rewrite IHn. reflexivity.
    + rewrite IHn. reflexivity.
Qed.

Lemma concat_splitWords (text : jsstring) : concat (splitWords text) = text.
Proof. apply (proj1 (concat_splitLoop text) []). Qed.

Lemma isWordPiece_snoc (w : jsstring) c :
  isWordPiece w = true -> isSpace c = false -> isPunct c = false ->
  isWordPiece (w ++ [c]) = true.
Proof.
  intros Hw Hs Hp. unfold isWordPiece in *. rewrite forallb_app, Hw. cbn [forallb].
  rewrite Hs, Hp. reflexivity.
Qed.

Lemma isSpaceRun_snoc (r : jsstring) c :
  isSpaceRun r = true -> isSpace c = true -> isSpaceRun (r ++ [c]) = true.
Proof.
  intros Hr Hc. destruct r as [| x r]; [discriminate |].
  cbn [app]. unfold isSpaceRun in *. change (x :: r ++ [c]) with ((x :: r) ++ [c]).
  rewrite forallb_app, Hr. cbn [forallb]. rewrite Hc. reflexivity.
Qed.

Lemma wordsAndSeparators_splitLoop (s : jsstring) :
  (forall word, isWordPiece word = true ->
     wordsAndSeparators (splitLoop s word None) = true)
  /\ (forall word r, isWordPiece word = true -> isSpaceRun r = true ->
     wordsAndSeparators (word :: splitLoop s [] (Some r)) = true).
Proof.
  induction s as [| c s [IHn IHs]]; split.
  - intros w Hw. cbn. exact Hw.
  - intros w r Hw Hr. cbn [splitLoop wordsAndSeparators]. rewrite Hw, Hr. reflexivity.
  - intros w Hw. cbn [splitLoop].
    destruct (isSpace c) eqn:Es; [| destruct (isPunct c) eqn:Ep].
    + apply IHs; [exact Hw |]. cbn [isSpaceRun forallb]. rewrite Es. reflexivity.
    + cbn [wordsAndSeparators]. rewrite Hw. cbn [isPunctUnit]. rewrite Ep, orb_true_r.
      cbn [andb]. apply IHn. reflexivity.
    + apply IHn, isWordPiece_snoc; assumption.
  - intros w r Hw Hr. cbn [splitLoop].
    destruct (isSpace c) eqn:Es; [| destruct (isPunct c) eqn:Ep].
    + apply IHs; [exact Hw |]. apply isSpaceRun_snoc; assumption.
    + cbn [wordsAndSeparators]. rewrite Hw, Hr. cbn [orb andb isWordPiece forallb isPunctUnit].
      rewrite Ep, orb_true_r. cbn [orb andb]. apply IHn. reflexivity.
    + cbn [wordsAndSeparators]. rewrite Hw, Hr. cbn [orb andb]. apply IHn.
      cbn [isWordPiece forallb]. rewrite Es, Ep. reflexivity.
Qed.

Lemma hasDevanagari_app (x y : jsstring) :
  hasDevanagari (x ++ y) = hasDevanagari x || hasDevanagari y.
Proof. apply existsb_app. Qed.

Lemma existsb_concat {A} (p : A -> bool) (l : list (list A)) :
  existsb p (concat l) = existsb (existsb p) l.
Proof.
  induction l as [| x l IH]; [reflexivity |].
  cbn [concat existsb]. rewrite existsb_app, IH. reflexivity.
Qed.

End SplitFacts.

(** X5.  The pieces that [split] cuts a text into, put together again, are
    the text.  They start and end with a word piece free of white space and
    punctuation (empty when the text starts or ends with a separator, or when
    two separators meet), and between two word pieces there is one separator:
    a non-empty run of white space or a single punctuation unit. *)
Theorem split_pieces_rejoin :
  forall text : jsstring,
    concat (splitWords text) = text
    /\ wordsAndSeparators (splitWords text) = true.
Proof.
  intros text. split; [apply concat_splitWords |].
  apply (proj1 (wordsAndSeparators_splitLoop text)). reflexivity.
Qed.

(** ** The word loop of the engine *)

Section WordLoop.

Lemma str_eqb_refl (s : jsstring) : str_eqb s s = true.
Proof. apply str_eqb_eq. reflexivity. Qed.

Lemma hasDevanagari_counted (s : jsstring) :
  hasDevanagari s = true -> (0 <? countDevanagari s)%nat = true.
Proof.
  unfold hasDevanagari, countDevanagari. induction s as [| c s IH]; [discriminate |].
  cbn [existsb List.filter]. destruct (isDevanagari c); [reflexivity | exact IH].
Qed.

(** What an accepted answer is. *)
Lemma accepted_Some ak format nativize (preprocessed r : jsstring) :
  accepted ak format nativize preprocessed = Some r ->
  processAsync ak format preprocessed nativize = Some r
  /\ r <> [] /\ r <> preprocessed /\ hasDevanagari r = true.
Proof.
  unfold accepted. destruct (processAsync ak format preprocessed nativize) as [x |];
    [| discriminate].
  destruct (str_eqb x []) eqn:E1; [discriminate |].
  destruct (str_eqb x preprocessed) eqn:E2; [discriminate |].
  destruct (hasDevanagari x) eqn:E3; [| discriminate].
  intros [= <-]. split; [reflexivity |]. split; [| split; [| exact E3]].
  - intros H. apply str_eqb_eq in H. cbn in E1. congruence.
  - intros H. apply str_eqb_eq in H. cbn in E2. congruence.
Qed.

(** An attempt whose answer is not accepted leaves the state of the loop
    as it was. *)
Lemma attemptLoop_skip ak (word preprocessed : jsstring) format nativize todo t b :
  accepted ak format nativize preprocessed = None ->
  attemptLoop ak word preprocessed ((format, nativize) :: todo) t b
  = attemptLoop ak word preprocessed todo t b.
Proof.
  unfold accepted. cbn [attemptLoop].
  destruct (processAsync ak format preprocessed nativize) as [x |]; [| reflexivity].
  destruct (negb (str_eqb x []) && negb (str_eqb x preprocessed) && hasDevanagari x);
    [discriminate | reflexivity].
Qed.

(** The first accepted answer, when it comes from an attempt with
    [nativize], ends the loop. *)
Lemma attemptLoop_first ak (word preprocessed r : jsstring) format todo :
  accepted ak format true preprocessed = Some r ->
  attemptLoop ak word preprocessed ((format, true) :: todo) word word = (r, r).
Proof.
  intros H. destruct (accepted_Some _ _ _ _ _ H) as (_ & _ & _ & Hdev).
  revert H. unfold accepted. cbn [attemptLoop].
  destruct (processAsync ak format preprocessed true) as [x |]; [| discriminate].
  destruct (negb (str_eqb x []) && negb (str_eqb x preprocessed) && hasDevanagari x);
    [| discriminate].
  intros [= ->]. cbv zeta. rewrite str_eqb_refl, orb_true_r.
  rewrite (hasDevanagari_counted r Hdev). reflexivity.
Qed.

Lemma attemptLoop_useless ak (word preprocessed : jsstring) todo t b :
  useless ak -> attemptLoop ak word preprocessed todo t b = (t, b).
Proof.
  intros Hu. induction todo as [| [format nativize] todo IH]; [reflexivity |].
  rewrite attemptLoop_skip by apply Hu. exact IH.
Qed.

Lemma transliterateWord_useless ak (word : jsstring) :
  useless ak -> transliterateWord word (Some ak) = dictionaryOnly word.
Proof.
  intros Hu. unfold transliterateWord, dictionaryOnly.
  destruct (dictionaryLookup word); [reflexivity |].
  cbv zeta. rewrite attemptLoop_useless by exact Hu.
  destruct (negb (str_eqb word word) && hasDevanagari word); reflexivity.
Qed.

Lemma wholePhrase_useless ak (text : jsstring) : useless ak -> wholePhrase ak text = None.
Proof.
  intros Hu. pose proof (Hu IAST true (toLowerCase text)) as H. revert H.
  unfold accepted, wholePhrase.
  destruct (processAsync ak IAST (toLowerCase text) true) as [x |]; [| reflexivity].
  destruct (negb (str_eqb x []) && negb (str_eqb x (toLowerCase text)) && hasDevanagari x);
    [discriminate | reflexivity].
Qed.

(** The outcome of the loop is made of the word and of accepted answers. *)
Lemma attemptLoop_outcome ak (word preprocessed : jsstring) (P : jsstring -> Prop) :
  (forall format nativize r,
     accepted ak format nativize preprocessed = Some r -> P r) ->
  forall todo t b, P t -> P b ->
    P (fst (attemptLoop ak word preprocessed todo t b))
    /\ P (snd (attemptLoop ak word preprocessed todo t b)).
Proof.
  intros Hacc. induction todo as [| [format nativize] todo IH]; intros t b Ht Hb.
  - split; assumption.
  - destruct (accepted ak format nativize preprocessed) as [r |] eqn:E.
    + revert E. unfold accepted. cbn [attemptLoop].
      destruct (processAsync ak format preprocessed nativize) as [x |] eqn:Ex;
        [| discriminate].
      destruct (negb (str_eqb x []) && negb (str_eqb x preprocessed) && hasDevanagari x)
        eqn:Ec; [| discriminate].
      intros [= ->]. cbv zeta.
      assert (Hr : P r).
      { apply (Hacc format nativize). unfold accepted. rewrite Ex, Ec. reflexivity. }
      destruct ((countDevanagari b <? countDevanagari r)%nat || str_eqb b word);
        destruct (nativize && (0 <? countDevanagari r)%nat);
        try (split; assumption); apply IH; assumption.
    + rewrite attemptLoop_skip by exact E. apply IH; assumption.
Qed.

End WordLoop.

(** X6.  [transliterateWord] never makes up text: with a backend at hand its
    result for an ASCII word that is not the name of a member inherited
    from [Object.prototype] is the word itself, or the dictionary value of
    the word, or an answer that the backend gave for the lower-cased word,
    and such an answer is not empty, differs from the lower-cased word and
    has a Devanagari unit. *)
Theorem word_result_has_a_source :
  forall (word : jsstring) ak,
    forallb isAscii word = true ->
    namesInherited word = false ->
    transliterateWord word (Some ak) = word
    \/ dictionaryLookup word = Some (transliterateWord word (Some ak))
    \/ exists format nativize,
         processAsync ak format (toLowerCase word) nativize
         = Some (transliterateWord word (Some ak))
         /\ transliterateWord word (Some ak) <> []
         /\ transliterateWord word (Some ak) <> toLowerCase word
         /\ hasDevanagari (transliterateWord word (Some ak)) = true.
Proof.
  intros word ak _ _. unfold transliterateWord.
  destruct (dictionaryLookup word) as [v |] eqn:Ed; [right; left; reflexivity |].
  cbv zeta. unfold preprocessWordForAksharamukha.
  set (P := fun r : jsstring =>
              r = word
              \/ exists format nativize,
                   processAsync ak format (toLowerCase word) nativize = Some r
                   /\ r <> [] /\ r <> toLowerCase word /\ hasDevanagari r = true).
  assert (Hacc : forall format nativize r,
            accepted ak format nativize (toLowerCase word) = Some r -> P r).
  { intros format nativize r H. right. exists format, nativize.
    apply accepted_Some, H. }
  destruct (attemptLoop_outcome ak word (toLowerCase word) P Hacc attempts word word)
    as [Ht Hb]; try (left; reflexivity).
  destruct (attemptLoop ak word (toLowerCase word) attempts word word) as [t b].
  cbn [fst snd] in Ht, Hb.
  destruct (negb (str_eqb b word) && hasDevanagari b).
  - destruct Hb as [-> | Hb]; [left; reflexivity | right; right; exact Hb].
  - destruct Ht as [-> | Ht]; [left; reflexivity | right; right; exact Ht].
Qed.

Lemma word_result_has_a_source_witness :
  transliterateWord (u "Pune")
    (Some {| processAsync := fun _ _ nativize =>
               if nativize then None else Some (u "पुने") |}) = u "Pune"
  \/ dictionaryLookup (u "Pune")
     = Some (transliterateWord (u "Pune")
               (Some {| processAsync := fun _ _ nativize =>
                          if nativize then None else Some (u "पुने") |}))
  \/ exists format nativize,
       processAsync {| processAsync := fun _ _ nativize =>
                         if nativize then None else Some (u "पुने") |}
         format (toLowerCase (u "Pune")) nativize
       = Some (transliterateWord (u "Pune")
                 (Some {| processAsync := fun _ _ nativize =>
                            if nativize then None else Some (u "पुने") |}))
       /\ transliterateWord (u "Pune")
            (Some {| processAsync := fun _ _ nativize =>
                       if nativize then None else Some (u "पुने") |}) <> []
       /\ transliterateWord (u "Pune")
            (Some {| processAsync := fun _ _ nativize =>
                       if nativize then None else Some (u "पुने") |})
          <> toLowerCase (u "Pune")
       /\ hasDevanagari
            (transliterateWord (u "Pune")
               (Some {| processAsync := fun _ _ nativize =>
                          if nativize then None else Some (u "पुने") |})) = true.
Proof.
  apply word_result_has_a_source; vm_compute; reflexivity.
Defined.

(** X7.  For an ASCII word that is not in the dictionary and is not the
    name of a member inherited from [Object.prototype], the first
    accepted answer among the four attempts with [nativize], in the order
    IAST, ITRANS, autodetect, Latin, is what [transliterateWord] returns;
    later attempts do not change it. *)
Theorem first_nativized_answer_wins :
  forall (word r : jsstring) ak,
    forallb isAscii word = true ->
    namesInherited word = false ->
    dictionaryLookup word = None ->
    firstNativized ak (toLowerCase word) = Some r ->
    transliterateWord word (Some ak) = r.
Proof.
  intros word r ak _ _ Hd Hf. unfold transliterateWord. rewrite Hd. cbv zeta.
  unfold preprocessWordForAksharamukha.
  assert (Hloop : attemptLoop ak word (toLowerCase word) attempts word word = (r, r)).
  { revert Hf. unfold firstNativized, attempts.
    destruct (accepted ak IAST true (toLowerCase word)) eqn:E1.
    { intros [= ->]. apply attemptLoop_first, E1. }
    rewrite attemptLoop_skip by exact E1.
    destruct (accepted ak ITRANS true (toLowerCase word)) eqn:E2.
    { intros [= ->]. apply attemptLoop_first, E2. }
    rewrite attemptLoop_skip by exact E2.
    destruct (accepted ak autodetect true (toLowerCase word)) eqn:E3.
    { intros [= ->]. apply attemptLoop_first, E3. }
    rewrite attemptLoop_skip by exact E3.
    intros E4. apply attemptLoop_first, E4. }
  rewrite Hloop. destruct (negb (str_eqb r word) && hasDevanagari r); reflexivity.
Qed.

Lemma first_nativized_answer_wins_witness :
  transliterateWord (u "Pune")
    (Some {| processAsync := fun format text nativize =>
               match format with
               | IAST => None
               | ITRANS => Some text
               | autodetect => Some (u "पुणे")
               | Latin => Some (u "पुने पुने")
               end |})
  = u "पुणे".
Proof.
  apply first_nativized_answer_wins; vm_compute; reflexivity.
Defined.

(** ** The engine with a backend that gives nothing usable *)

Section UselessBackend.

Lemma lowerUnit_letter c : isLetter (lowerUnit c) = true -> isLetter c = true.
Proof.
  intros Hl. destruct (isLetter c) eqn:E; [reflexivity |].
  unfold lowerUnit in Hl. destruct ((0x41 <=? c) && (c <=? 0x5A)) eqn:Eu.
  - unfold isLetter in E. rewrite Eu in E. discriminate.
  - congruence.
Qed.

Lemma letters_of_lowered (s : jsstring) :
  Forall (fun c => isLetter c = true) (toLowerCase s) ->
  Forall (fun c => isLetter c = true) s.
Proof.
  unfold toLowerCase. induction s as [| c s IH]; intros H; [constructor |].
  inversion H as [| ? ? Hc Hs]; subst.
  constructor; [apply lowerUnit_letter, Hc | apply IH, Hs].
Qed.

Lemma dictionary_key_letters (k v : jsstring) :
  CORRECTION_DICTIONARY !! k = Some v ->
  Forall (fun c => isLetter c = true) k /\ k <> [].
Proof.
  intros H. unfold CORRECTION_DICTIONARY in H.
  apply elem_of_list_to_map_2 in H.
  repeat (apply elem_of_cons in H; destruct H as [Heq | H];
          [injection Heq as -> _; split; [vm_compute; repeat constructor | discriminate] |]).
  apply elem_of_nil in H. destruct H.
Qed.

(** The dictionary answers for words of letters only. *)
Lemma dictionaryLookup_letters (word v : jsstring) :
  dictionaryLookup word = Some v ->
  Forall (fun c => isLetter c = true) word /\ word <> [].
Proof.
  unfold dictionaryLookup.
  destruct (CORRECTION_DICTIONARY !! toLowerCase word) as [[| x v1] |] eqn:E1.
  - destruct (CORRECTION_DICTIONARY !! word) as [[| y v2] |] eqn:E2; try discriminate.
    intros _. apply (dictionary_key_letters _ _ E2).
  - intros _. destruct (dictionary_key_letters _ _ E1) as [Hl Hne].
    split; [apply letters_of_lowered, Hl |].
    intros ->. apply Hne. reflexivity.
  - destruct (CORRECTION_DICTIONARY !! word) as [[| y v2] |] eqn:E2; try discriminate.
    intros _. apply (dictionary_key_letters _ _ E2).
Qed.

Lemma dictionaryOnly_not_letters (word : jsstring) :
  ~ (Forall (fun c => isLetter c = true) word /\ word <> []) ->
  dictionaryOnly word = word.
Proof.
  intros H. unfold dictionaryOnly.
  destruct (dictionaryLookup word) as [v |] eqn:E; [| reflexivity].
  destruct H. apply (dictionaryLookup_letters word v E).
Qed.

Lemma trimStart_no_space (s : jsstring) :
  forallb (fun c => negb (isSpace c)) s = true -> trimStart s = s.
Proof.
  destruct s as [| c s]; [reflexivity |]. cbn [forallb trimStart].
  intros H. apply andb_true_iff in H as [Hc _].
  destruct (isSpace c); [discriminate | reflexivity].
Qed.

Lemma forallb_rev {A} (p : A -> bool) (l : list A) : forallb p (rev l) = forallb p l.
Proof.
  induction l as [| x l IH]; [reflexivity |].
  cbn [rev forallb]. rewrite forallb_app, IH. cbn [forallb].
  rewrite andb_true_r. apply andb_comm.
Qed.

Lemma trim_no_space (s : jsstring) :
  forallb (fun c => negb (isSpace c)) s = true -> trim s = s.
Proof.
  intros H. unfold trim. rewrite (trimStart_no_space s H).
  rewrite trimStart_no_space by (rewrite forallb_rev; exact H).
  apply rev_involutive.
Qed.

Lemma isWordPiece_no_space (p : jsstring) :
  isWordPiece p = true -> forallb (fun c => negb (isSpace c)) p = true.
Proof.
  unfold isWordPiece. induction p as [| c p IH]; [reflexivity |].
  cbn [forallb]. intros H. apply andb_true_iff in H as [Hc Hp].
  apply andb_true_iff in Hc as [Hs _]. rewrite Hs, (IH Hp). reflexivity.
Qed.

Lemma isSpaceRun_separator (p : jsstring) : isSpaceRun p = true -> isSeparator p = true.
Proof.
  destruct p as [| c p]; [discriminate |]. unfold isSpaceRun, isSeparator.
  intros ->. reflexivity.
Qed.

Lemma isPunctUnit_separator (p : jsstring) : isPunctUnit p = true -> isSeparator p = true.
Proof.
  destruct p as [| c [| d p]]; try discriminate. unfold isPunctUnit, isSeparator.
  intros H. cbn [forallb]. rewrite H. apply orb_true_r.
Qed.

(** A separator is not a word of letters. *)
Lemma separator_not_letters (p : jsstring) :
  isSeparator p = true -> ~ (Forall (fun c => isLetter c = true) p /\ p <> []).
Proof.
  intros Hsep [Hl Hne]. destruct Hl as [| c p Hc _]; [congruence |].
  unfold isSeparator in Hsep. cbn [forallb] in Hsep.
  rewrite (letter_not_space c Hc), (letter_not_punct c Hc) in Hsep. discriminate.
Qed.

Lemma pieces_classified (l : list jsstring) :
  wordsAndSeparators l = true ->
  Forall (fun p => isWordPiece p = true \/ isSeparator p = true) l.
Proof.
  remember (length l) as n eqn:Hn. revert l Hn.
  induction n as [n IH] using lt_wf_ind. intros l Hn H.
  destruct l as [| w [| sep l]]; [constructor | |].
  - cbn in H. repeat constructor. exact H.
  - cbn [wordsAndSeparators] in H.
    apply andb_true_iff in H as [H Hl]. apply andb_true_iff in H as [Hw Hsep].
    constructor; [left; exact Hw |]. constructor.
    + right. apply orb_true_iff in Hsep as [Hs | Hp];
        [apply isSpaceRun_separator, Hs | apply isPunctUnit_separator, Hp].
    + apply (IH (length l)); [subst n; cbn; lia | reflexivity | exact Hl].
Qed.

Lemma ascii_no_devanagari (text : jsstring) :
  forallb isAscii text = true -> hasDevanagari text = false.
Proof.
  unfold hasDevanagari. induction text as [| c text IH]; [reflexivity |].
  cbn [forallb existsb]. intros H. apply andb_true_iff in H as [Hc Ht].
  rewrite (IH Ht), orb_false_r. unfold isAscii in Hc. apply N.ltb_lt in Hc.
  unfold isDevanagari. destruct (N.leb_spec 0x0900 c); [lia | reflexivity].
Qed.

Lemma transliteratePiece_useless ak (p : jsstring) :
  useless ak -> isWordPiece p = true \/ isSeparator p = true ->
  transliteratePiece ak p = dictionaryOnly p.
Proof.
  intros Hu Hp. unfold transliteratePiece.
  destruct (isSeparator p) eqn:Es.
  { symmetry. apply dictionaryOnly_not_letters, separator_not_letters, Es. }
  destruct Hp as [Hw | Hs]; [| discriminate].
  rewrite (trim_no_space p (isWordPiece_no_space p Hw)).
  destruct (hasDevanagari p) eqn:Ed.
  { symmetry. apply dictionaryOnly_not_letters. intros [Hl _].
    rewrite (letters_no_devanagari p Hl) in Ed. discriminate. }
  unfold isPureNumber. rewrite (trim_no_space p (isWordPiece_no_space p Hw)).
  destruct p as [| c r] eqn:Ep.
  { rewrite transliterateWord_useless by exact Hu. reflexivity. }
  rewrite <- Ep in *. destruct (forallb isDigit p) eqn:En.
  - symmetry. apply dictionaryOnly_not_letters. intros [Hl _].
    rewrite Ep in Hl, En. inversion Hl as [| ? ? Hc _]; subst.
    cbn [forallb] in En. rewrite (letter_not_digit c Hc) in En. discriminate.
  - apply transliterateWord_useless, Hu.
Qed.

End UselessBackend.

(** X8.  With a backend at hand that gives no answer it accepts (it
    rejects, echoes, or answers without Devanagari), the engine settles, for
    an ASCII text none of whose pieces is the name of a member inherited
    from [Object.prototype], with every piece that is a dictionary word
    replaced by its dictionary value and every other piece, separators
    included, as it was; a text none of whose pieces is in the dictionary
    comes back unchanged. *)
Theorem useless_backend_leaves_dictionary :
  forall env cache cache' ak (text : jsstring),
    hasWindow env = true ->
    getAksharamukhaInstance env cache = Settled (Some ak, cache') ->
    useless ak ->
    forallb isAscii text = true ->
    Forall (fun p => namesInherited p = false) (splitWords text) ->
    settledText (transliterateToMarathiAsync env cache text)
    = Some (concat (map dictionaryOnly (splitWords text)))
    /\ (Forall (fun p => dictionaryLookup p = None) (splitWords text) ->
        settledText (transliterateToMarathiAsync env cache text) = Some text).
Proof.
  intros env cache cache' ak text Hw Hget Hu Hascii _.
  assert (Hdev : hasDevanagari text = false) by apply ascii_no_devanagari, Hascii.
  assert (Hfst : settledText (transliterateToMarathiAsync env cache text)
                 = Some (concat (map dictionaryOnly (splitWords text)))).
  { unfold transliterateToMarathiAsync.
    destruct text as [| c r] eqn:Et; [reflexivity |]. rewrite <- Et in *.
    rewrite Hdev, Hw, Hget. cbn [negb]. unfold preprocessTextForTransliteration.
    rewrite (wholePhrase_useless ak text Hu). cbv zeta. cbn [settledText].
    f_equal. f_equal. apply map_ext_in. intros p Hp.
    apply transliteratePiece_useless; [exact Hu |].
    pose proof (pieces_classified (splitWords text)
                  (proj1 (wordsAndSeparators_splitLoop text) [] eq_refl)) as Hall.
    rewrite List.Forall_forall in Hall. apply Hall, Hp. }
  split; [exact Hfst |].
  intros Hnone. rewrite Hfst.
  rewrite <- (concat_splitWords text) at 2. f_equal. f_equal.
  rewrite <- (map_id (splitWords text)) at 2. apply map_ext_in. intros p Hp.
  rewrite List.Forall_forall in Hnone. unfold dictionaryOnly.
  rewrite (Hnone p Hp). reflexivity.
Qed.

Lemma useless_backend_leaves_dictionary_witness :
  settledText
    (transliterateToMarathiAsync
       {| hasWindow := true; scriptLoads := true;
          newInstance := Some {| processAsync := fun _ text _ => Some text |} |}
       freshPage (u "Mumbai - Pune (Delhi), bhaskar!"))
  = Some (u "मुंबई - Pune (दिल्ली), भास्कर!").
Proof.
  destruct (useless_backend_leaves_dictionary
              {| hasWindow := true; scriptLoads := true;
                 newInstance := Some {| processAsync := fun _ text _ => Some text |} |}
              freshPage
              {| scriptTag := ScriptDone; library := true;
                 aksharamukhaInstance :=
                   Some {| processAsync := fun _ text _ => Some text |} |}
              {| processAsync := fun _ text _ => Some text |}
              (u "Mumbai - Pune (Delhi), bhaskar!")) as [H _].
  - reflexivity.
  - reflexivity.
  - intros format nativize preprocessed. unfold accepted. cbn [processAsync].
    rewrite str_eqb_refl. cbn [negb]. rewrite andb_false_r. reflexivity.
  - vm_compute. reflexivity.
  - vm_compute. repeat constructor.
  - rewrite H. vm_compute. reflexivity.
Defined.

(** ** The phonetic transducer on any text *)

Section PhoneticFacts.

Lemma digraph_first_ruled char nextChar atEnd out :
  digraph char nextChar atEnd = Some out -> monograph char <> None.
Proof.
  unfold digraph.
  repeat match goal with
  | |- context [if ?b then _ else _] => destruct b eqn:?
  end; intros [= <-];
  match goal with
  | H : _ && _ = true |- _ =>
    apply andb_true_iff in H as [H1 _];
    try (apply andb_true_iff in H1 as [H1 _]);
    apply N.eqb_eq in H1; subst char; vm_compute; discriminate
  end.
Qed.

Lemma all_devanagari_has (out : jsstring) :
  forallb isDevanagari out = true -> out <> [] -> hasDevanagari out = true.
Proof.
  destruct out as [| c out]; [congruence |]. cbn [forallb]. intros H _.
  apply andb_true_iff in H as [Hc _]. unfold hasDevanagari. cbn [existsb].
  rewrite Hc. reflexivity.
Qed.

Lemma hasRule_monograph c : hasRule c = true <-> monograph (lowerUnit c) <> None.
Proof.
  unfold hasRule. destruct (monograph (lowerUnit c)); split; congruence.
Qed.

Lemma devanagari_not_ruled c : isDevanagari c = true -> hasRule c = false.
Proof.
  intros H. destruct (hasRule c) eqn:E; [| reflexivity].
  rewrite (letter_not_devanagari c (hasRule_letter c E)) in H. discriminate.
Qed.

Lemma phoneticLoop_step c d (rest text : jsstring) :
  phoneticLoop (c :: d :: rest) text
  = match digraph c d (match rest with [] => true | _ => false end) with
    | Some out => out ++ phoneticLoop rest (drop 2 text)
    | None => single c text ++ phoneticLoop (d :: rest) (drop 1 text)
    end.
Proof. reflexivity. Qed.

(** One step of the loop that copies or applies a one-letter rule. *)
Lemma single_marks c (rest : jsstring) :
  hasDevanagari (single (lowerUnit c) (c :: rest)) = hasRule c || isDevanagari c.
Proof.
  unfold single, hasRule. destruct (monograph (lowerUnit c)) as [out |] eqn:E.
  - destruct (monograph_devanagari _ _ E) as [H1 H2].
    apply (all_devanagari_has out H1 H2).
  - unfold original, hasDevanagari. cbn [existsb]. apply orb_false_r.
Qed.

(** The loop writes a Devanagari unit exactly when the text has a letter
    with a rule or a Devanagari unit of its own. *)
Lemma phoneticLoop_marks (text : jsstring) :
  hasDevanagari (phoneticLoop (toLowerCase text) text)
  = existsb (fun c => hasRule c || isDevanagari c) text.
Proof.
  remember (length text) as n eqn:Hn. revert text Hn.
  induction n as [n IH] using lt_wf_ind. intros text Hn.
  destruct text as [| c [| d rest]]; [reflexivity | |].
  - change (toLowerCase [c]) with [lowerUnit c]. cbn [phoneticLoop existsb drop].
    rewrite app_nil_r, orb_false_r. apply single_marks.
  - change (toLowerCase (c :: d :: rest))
      with (lowerUnit c :: lowerUnit d :: toLowerCase rest).
    rewrite phoneticLoop_step. cbn [existsb].
    destruct (digraph (lowerUnit c) (lowerUnit d) _) as [out |] eqn:E.
    + destruct (digraph_devanagari _ _ _ _ E) as [H1 H2].
      rewrite hasDevanagari_app, (all_devanagari_has out H1 H2).
      apply digraph_first_ruled, hasRule_monograph in E. rewrite E. reflexivity.
    + rewrite hasDevanagari_app, single_marks.
      change (lowerUnit d :: toLowerCase rest) with (toLowerCase (d :: rest)).
      change (drop 1 (c :: d :: rest)) with (d :: rest).
      rewrite (IH (length (d :: rest))) by (subst n; cbn; lia || reflexivity).
      reflexivity.
Qed.

(** Without a letter that has a rule the loop copies the text. *)
Lemma phoneticLoop_copy (text : jsstring) :
  existsb hasRule text = false -> phoneticLoop (toLowerCase text) text = text.
Proof.
  induction text as [| c rest IH]; [reflexivity |].
  cbn [existsb]. intros H. apply orb_false_iff in H as [Hc Hrest].
  assert (Hm : monograph (lowerUnit c) = None).
  { destruct (monograph (lowerUnit c)) eqn:E; [| reflexivity].
    assert (hasRule c = true) by (apply hasRule_monograph; congruence). congruence. }
  assert (Hs : single (lowerUnit c) (c :: rest) = [c])
    by (unfold single; rewrite Hm; reflexivity).
  destruct rest as [| d rest'].
  - change (toLowerCase [c]) with [lowerUnit c]. cbn [phoneticLoop]. rewrite Hs. reflexivity.
  - change (toLowerCase (c :: d :: rest'))
      with (lowerUnit c :: lowerUnit d :: toLowerCase rest').
    rewrite phoneticLoop_step.
    destruct (digraph (lowerUnit c) (lowerUnit d) _) as [out |] eqn:E.
    + apply digraph_first_ruled in E. congruence.
    + rewrite Hs. change (lowerUnit d :: toLowerCase rest') with (toLowerCase (d :: rest')).
      change (drop 1 (c :: d :: rest')) with (d :: rest').
      rewrite (IH Hrest). reflexivity.
Qed.

Lemma existsb_orb {A} (p q : A -> bool) (l : list A) :
  existsb (fun x => p x || q x) l = existsb p l || existsb q l.
Proof.
  induction l as [| x l IH]; [reflexivity |]. cbn [existsb]. rewrite IH.
  destruct (p x), (q x), (existsb p l), (existsb q l); reflexivity.
Qed.

Lemma phoneticTransliterate_fixed (text : jsstring) :
  hasDevanagari text = true -> phoneticTransliterate text = text.
Proof.
  intros H. unfold phoneticTransliterate. destruct text; [reflexivity |].
  rewrite H. reflexivity.
Qed.

Lemma phoneticTransliterate_marks (text : jsstring) :
  hasDevanagari (phoneticTransliterate text) = hasDevanagari text || existsb hasRule text.
Proof.
  destruct (hasDevanagari text) eqn:Hd.
  - rewrite (phoneticTransliterate_fixed text Hd). exact Hd.
  - unfold phoneticTransliterate. destruct text as [| c r] eqn:Et; [reflexivity |].
    rewrite <- Et in *. rewrite Hd, phoneticLoop_marks, existsb_orb.
    fold (hasDevanagari text). rewrite Hd. apply orb_comm.
Qed.

Lemma phoneticTransliterate_copy (text : jsstring) :
  existsb hasRule text = false -> phoneticTransliterate text = text.
Proof.
  intros H. unfold phoneticTransliterate. destruct text as [| c r] eqn:Et; [reflexivity |].
  rewrite <- Et in *. destruct (hasDevanagari text); [reflexivity |].
  apply phoneticLoop_copy, H.
Qed.

Lemma separator_unruled (p : jsstring) : isSeparator p = true -> existsb hasRule p = false.
Proof.
  intros Hsep. destruct (existsb hasRule p) eqn:E; [| reflexivity].
  apply existsb_exists in E as (c & Hin & Hc). apply hasRule_letter in Hc.
  unfold isSeparator in Hsep. apply orb_true_iff in Hsep as [Hs | Hp].
  - rewrite forallb_forall in Hs. specialize (Hs c Hin).
    rewrite (letter_not_space c Hc) in Hs. discriminate.
  - destruct p as [| x p]; [discriminate |]. rewrite forallb_forall in Hp.
    specialize (Hp c Hin). rewrite (letter_not_punct c Hc) in Hp. discriminate.
Qed.

Lemma digits_unruled (p : jsstring) : forallb isDigit p = true -> existsb hasRule p = false.
Proof.
  intros Hdig. destruct (existsb hasRule p) eqn:E; [| reflexivity].
  apply existsb_exists in E as (c & Hin & Hc). apply hasRule_letter in Hc.
  rewrite forallb_forall in Hdig. specialize (Hdig c Hin).
  rewrite (letter_not_digit c Hc) in Hdig. discriminate.
Qed.

Lemma phoneticPiece_copy (p : jsstring) :
  existsb hasRule p = false -> phoneticPiece p = p.
Proof.
  intros H. unfold phoneticPiece.
  destruct (isSeparator p), (hasDevanagari p), (isPureNumber p); try reflexivity.
  apply phoneticTransliterate_copy, H.
Qed.

Lemma phoneticPiece_marks (p : jsstring) :
  isWordPiece p = true \/ isSeparator p = true ->
  hasDevanagari p = false ->
  hasDevanagari (phoneticPiece p) = existsb hasRule p.
Proof.
  intros Hp Hd. unfold phoneticPiece. destruct (isSeparator p) eqn:Es.
  { rewrite (separator_unruled p Es). exact Hd. }
  destruct Hp as [Hw | Hs]; [| discriminate]. rewrite Hd.
  unfold isPureNumber. rewrite (trim_no_space p (isWordPiece_no_space p Hw)).
  destruct p as [| c r] eqn:Ep; [reflexivity |]. rewrite <- Ep in *.
  destruct (forallb isDigit p) eqn:En.
  - rewrite (digits_unruled p En). exact Hd.
  - rewrite phoneticTransliterate_marks, Hd. reflexivity.
Qed.

Lemma phoneticWords_fixed (text : jsstring) :
  hasDevanagari text = true -> transliterateEnglishToMarathiPhonetic text = text.
Proof.
  intros H. unfold transliterateEnglishToMarathiPhonetic. destruct text; [reflexivity |].
  rewrite H. reflexivity.
Qed.

Lemma phoneticWords_copy (text : jsstring) :
  existsb hasRule text = false -> transliterateEnglishToMarathiPhonetic text = text.
Proof.
  intros H. unfold transliterateEnglishToMarathiPhonetic.
  destruct text as [| c r] eqn:Et; [reflexivity |]. rewrite <- Et in *.
  destruct (hasDevanagari text); [reflexivity |].
  rewrite <- (concat_splitWords text) in H. rewrite existsb_concat in H.
  rewrite <- (concat_splitWords text) at 2. f_equal.
  rewrite <- (map_id (splitWords text)) at 2. apply map_ext_in. intros p Hp.
  apply phoneticPiece_copy. destruct (existsb hasRule p) eqn:E; [| reflexivity].
  assert (existsb (existsb hasRule) (splitWords text) = true)
    by (apply existsb_exists; eauto).
  congruence.
Qed.

Lemma phoneticWords_marks (text : jsstring) :
  hasDevanagari (transliterateEnglishToMarathiPhonetic text)
  = hasDevanagari text || existsb hasRule text.
Proof.
  destruct (hasDevanagari text) eqn:Hd.
  - rewrite (phoneticWords_fixed text Hd). exact Hd.
  - unfold transliterateEnglishToMarathiPhonetic.
    destruct text as [| c r] eqn:Et; [reflexivity |]. rewrite <- Et in *.
    rewrite Hd. cbn [orb].
    pose proof (pieces_classified (splitWords text)
                  (proj1 (wordsAndSeparators_splitLoop text) [] eq_refl)) as Hall.
    rewrite List.Forall_forall in Hall.
    assert (Hnd : forall p, In p (splitWords text) -> hasDevanagari p = false).
    { intros p Hp. destruct (hasDevanagari p) eqn:E; [| reflexivity].
      assert (Hc : hasDevanagari (concat (splitWords text)) = true).
      { unfold hasDevanagari. rewrite existsb_concat. apply existsb_exists. eauto. }
      rewrite concat_splitWords in Hc. congruence. }
    rewrite <- (concat_splitWords text) at 2. rewrite existsb_concat.
    unfold hasDevanagari at 1. rewrite existsb_concat.
    induction (splitWords text) as [| p l IHl]; [reflexivity |].
    cbn [map existsb]. fold (hasDevanagari (phoneticPiece p)).
    rewrite phoneticPiece_marks by (apply Hall || apply Hnd; left; reflexivity).
    f_equal. apply IHl.
    + intros q Hq. apply Hall. right. exact Hq.
    + intros q Hq. apply Hnd. right. exact Hq.
Qed.

End PhoneticFacts.

(** X9.  [phoneticTransliterate] and the word-by-word
    [transliterateEnglishToMarathiPhonetic] are idempotent on every text
    that is ASCII or has a Devanagari unit: applied to their own result
    they return it. *)
Theorem phonetic_idempotent :
  forall text : jsstring,
    forallb isAscii text = true \/ hasDevanagari text = true ->
    phoneticTransliterate (phoneticTransliterate text) = phoneticTransliterate text
    /\ transliterateEnglishToMarathiPhonetic (transliterateEnglishToMarathiPhonetic text)
       = transliterateEnglishToMarathiPhonetic text.
Proof.
  intros text _. split.
  - destruct (hasDevanagari (phoneticTransliterate text)) eqn:E.
    + apply phoneticTransliterate_fixed, E.
    + rewrite phoneticTransliterate_marks in E. apply orb_false_iff in E as [_ E].
      rewrite (phoneticTransliterate_copy text E). apply phoneticTransliterate_copy, E.
  - destruct (hasDevanagari (transliterateEnglishToMarathiPhonetic text)) eqn:E.
    + apply phoneticWords_fixed, E.
    + rewrite phoneticWords_marks in E. apply orb_false_iff in E as [_ E].
      rewrite (phoneticWords_copy text E). apply phoneticWords_copy, E.
Qed.

Lemma phonetic_idempotent_witness :
  phoneticTransliterate (phoneticTransliterate (u "Mumbai, 7 fax"))
  = phoneticTransliterate (u "Mumbai, 7 fax")
  /\ transliterateEnglishToMarathiPhonetic
       (transliterateEnglishToMarathiPhonetic (u "Mumbai, 7 fax"))
     = transliterateEnglishToMarathiPhonetic (u "Mumbai, 7 fax").
Proof.
  apply phonetic_idempotent. left. reflexivity.
Defined.

(** X10.  On an ASCII text the result of either phonetic function has a
    Devanagari unit exactly when the text has a letter with a one-letter
    rule (a e i o u b c d g h j k l m n p r s t v w y, in either case); a
    text with no such letter, one with [f], [q], [x], [z], digits and
    punctuation only for instance, comes back unchanged.  The two functions
    differ where a rule looks at the end of the text: [ai] closing a word
    inside a sentence. *)
Theorem phonetic_changes_ruled_text_only :
  (forall text : jsstring,
     forallb isAscii text = true ->
     hasDevanagari (phoneticTransliterate text) = existsb hasRule text
     /\ hasDevanagari (transliterateEnglishToMarathiPhonetic text)
        = existsb hasRule text)
  /\ (forall text : jsstring,
     forallb isAscii text = true ->
     existsb hasRule text = false ->
     phoneticTransliterate text = text
     /\ transliterateEnglishToMarathiPhonetic text = text)
  /\ phoneticTransliterate (u "Mumbai 7") = u "मउम्बऐ 7"
  /\ transliterateEnglishToMarathiPhonetic (u "Mumbai 7") = u "मउम्बई 7".
Proof.
  split.
  { intros text Hascii.
    rewrite phoneticTransliterate_marks, phoneticWords_marks,
      (ascii_no_devanagari text Hascii).
    split; reflexivity. }
  split.
  { intros text _ H. split; [apply phoneticTransliterate_copy | apply phoneticWords_copy];
      exact H. }
  split; vm_compute; reflexivity.
Qed.

Lemma phonetic_changes_ruled_text_only_witness :
  phoneticTransliterate (u "FZX-520 (Q)") = u "FZX-520 (Q)"
  /\ transliterateEnglishToMarathiPhonetic (u "FZX-520 (Q)") = u "FZX-520 (Q)".
Proof.
  apply (proj1 (proj2 phonetic_changes_ruled_text_only)); vm_compute; reflexivity.
Defined.

(** ** Dates *)

Section DateFacts.

Lemma digit_not_slash c : isDigit c = true -> (c =? ch "/") = false.
Proof.
  unfold isDigit. intros H. apply andb_true_iff in H as [H1%N.leb_le H2%N.leb_le].
  apply N.eqb_neq. change (ch "/") with 47. lia.
Qed.

Lemma digit_not_hyphen c : isDigit c = true -> (c =? ch "-") = false.
Proof.
  unfold isDigit. intros H. apply andb_true_iff in H as [H1%N.leb_le H2%N.leb_le].
  apply N.eqb_neq. change (ch "-") with 45. lia.
Qed.

Lemma digit_kept c : isDigit c = true -> (if c =? ch "/" then ch "-" else c) = c.
Proof. intros H. rewrite (digit_not_slash c H). reflexivity. Qed.

Lemma sep_hyphen s : isDateSep s = true -> (if s =? ch "/" then ch "-" else s) = ch "-".
Proof.
  unfold isDateSep. destruct (s =? ch "/") eqn:E; [reflexivity |].
  cbn [orb]. intros H. apply N.eqb_eq in H. exact H.
Qed.

Lemma isDayFirst_shape (d : jsstring) :
  isDayFirst d = true ->
  exists d1 d2 s1 m1 m2 s2 y1 y2 y3 y4,
    d = [d1; d2; s1; m1; m2; s2; y1; y2; y3; y4]
    /\ Forall (fun c => isDigit c = true) [d1; d2; m1; m2; y1; y2; y3; y4]
    /\ isDateSep s1 = true /\ isDateSep s2 = true.
Proof.
  destruct d as [| d1 [| d2 [| s1 [| m1 [| m2 [| s2 [| y1 [| y2 [| y3 [| y4 [| x d]]]]]]]]]]];
    try discriminate.
  unfold isDayFirst. intros H.
  do 9 (apply andb_true_iff in H; destruct H as [H ?]).
  exists d1, d2, s1, m1, m2, s2, y1, y2, y3, y4.
  repeat split; try assumption. repeat constructor; assumption.
Qed.

Lemma isYearFirst_shape (d : jsstring) :
  isYearFirst d = true ->
  exists y1 y2 y3 y4 m1 m2 d1 d2,
    d = [y1; y2; y3; y4; ch "-"; m1; m2; ch "-"; d1; d2]
    /\ Forall (fun c => isDigit c = true) [d1; d2; m1; m2; y1; y2; y3; y4].
Proof.
  destruct d as [| y1 [| y2 [| y3 [| y4 [| s1 [| m1 [| m2 [| s2 [| d1 [| d2 [| x d]]]]]]]]]]];
    try discriminate.
  unfold isYearFirst. intros H.
  do 9 (apply andb_true_iff in H; destruct H as [H ?]).
  repeat match goal with
  | E : (_ =? _) = true |- _ => apply N.eqb_eq in E; subst
  end.
  exists y1, y2, y3, y4, m1, m2, d1, d2.
  split; [reflexivity |]. repeat constructor; assumption.
Qed.

(** The day-first spelling with hyphens. *)
Lemma hyphened_dayFirst d1 d2 m1 m2 y1 y2 y3 y4 :
  Forall (fun c => isDigit c = true) [d1; d2; m1; m2; y1; y2; y3; y4] ->
  isDayFirst [d1; d2; ch "-"; m1; m2; ch "-"; y1; y2; y3; y4] = true
  /\ formatDate [d1; d2; ch "-"; m1; m2; ch "-"; y1; y2; y3; y4]
     = [d1; d2; ch "-"; m1; m2; ch "-"; y1; y2; y3; y4]
  /\ existsb (N.eqb (ch "/")) [d1; d2; ch "-"; m1; m2; ch "-"; y1; y2; y3; y4] = false.
Proof.
  intros H.
  repeat match goal with
  | H : Forall _ (_ :: _) |- _ => inversion H; subst; clear H
  end.
  assert (Hd : isDayFirst [d1; d2; ch "-"; m1; m2; ch "-"; y1; y2; y3; y4] = true).
  { unfold isDayFirst.
    repeat match goal with
    | E : isDigit ?c = true |- _ => rewrite E; clear E
    end. reflexivity. }
  split; [exact Hd |]. split.
  - unfold formatDate. rewrite Hd. unfold slashesToHyphens. cbn [map].
    repeat match goal with
    | E : isDigit ?c = true |- _ => rewrite (digit_kept c E); clear E
    end. reflexivity.
  - cbn [existsb]. rewrite !(N.eqb_sym (ch "/")).
    repeat match goal with
    | E : isDigit ?c = true |- _ => rewrite (digit_not_slash c E); clear E
    end. reflexivity.
Qed.

Lemma formatDate_dayFirst d1 d2 s1 m1 m2 s2 y1 y2 y3 y4 :
  Forall (fun c => isDigit c = true) [d1; d2; m1; m2; y1; y2; y3; y4] ->
  isDateSep s1 = true -> isDateSep s2 = true ->
  formatDate [d1; d2; s1; m1; m2; s2; y1; y2; y3; y4]
  = [d1; d2; ch "-"; m1; m2; ch "-"; y1; y2; y3; y4].
Proof.
  intros H Hs1 Hs2.
  assert (Hd : isDayFirst [d1; d2; s1; m1; m2; s2; y1; y2; y3; y4] = true).
  { repeat match goal with
    | H : Forall _ (_ :: _) |- _ => inversion H; subst; clear H
    end.
    unfold isDayFirst. rewrite Hs1, Hs2.
    repeat match goal with
    | E : isDigit ?c = true |- _ => rewrite E; clear E
    end. reflexivity. }
  unfold formatDate. rewrite Hd. unfold slashesToHyphens. cbn [map].
  rewrite (sep_hyphen s1 Hs1), (sep_hyphen s2 Hs2).
  repeat match goal with
  | H : Forall _ (_ :: _) |- _ => inversion H; subst; clear H
  end.
  repeat match goal with
  | E : isDigit ?c = true |- _ => rewrite (digit_kept c E); clear E
  end. reflexivity.
Qed.

Lemma formatDate_yearFirst d1 d2 m1 m2 y1 y2 y3 y4 :
  Forall (fun c => isDigit c = true) [d1; d2; m1; m2; y1; y2; y3; y4] ->
  formatDate [y1; y2; y3; y4; ch "-"; m1; m2; ch "-"; d1; d2]
  = [d1; d2; ch "-"; m1; m2; ch "-"; y1; y2; y3; y4].
Proof.
  intros H.
  repeat match goal with
  | H : Forall _ (_ :: _) |- _ => inversion H; subst; clear H
  end.
  assert (Hn : isDayFirst [y1; y2; y3; y4; ch "-"; m1; m2; ch "-"; d1; d2] = false).
  { unfold isDayFirst.
    assert (Hy3 : isDateSep y3 = false).
    { unfold isDateSep. rewrite digit_not_slash, digit_not_hyphen by assumption.
      reflexivity. }
    rewrite Hy3, !andb_false_r. reflexivity. }
  assert (Hy : isYearFirst [y1; y2; y3; y4; ch "-"; m1; m2; ch "-"; d1; d2] = true).
  { unfold isYearFirst. rewrite N.eqb_refl.
    repeat match goal with
    | E : isDigit ?c = true |- _ => rewrite E; clear E
    end. reflexivity. }
  unfold formatDate. rewrite Hn, Hy. reflexivity.
Qed.

Lemma formatDate_recognised (d : jsstring) :
  isDayFirst d || isYearFirst d = true ->
  exists d1 d2 m1 m2 y1 y2 y3 y4,
    Forall (fun c => isDigit c = true) [d1; d2; m1; m2; y1; y2; y3; y4]
    /\ formatDate d = [d1; d2; ch "-"; m1; m2; ch "-"; y1; y2; y3; y4].
Proof.
  intros H. destruct (isDayFirst d) eqn:E1.
  - destruct (isDayFirst_shape d E1)
      as (d1 & d2 & s1 & m1 & m2 & s2 & y1 & y2 & y3 & y4 & -> & Hdig & Hs1 & Hs2).
    exists d1, d2, m1, m2, y1, y2, y3, y4. split; [exact Hdig |].
    apply formatDate_dayFirst; assumption.
  - cbn [orb] in H. destruct (isYearFirst_shape d H)
      as (y1 & y2 & y3 & y4 & m1 & m2 & d1 & d2 & -> & Hdig).
    exists d1, d2, m1, m2, y1, y2, y3, y4. split; [exact Hdig |].
    apply formatDate_yearFirst, Hdig.
Qed.

Lemma formatDate_other (d : jsstring) :
  isDayFirst d = false -> isYearFirst d = false -> formatDate d = d.
Proof.
  intros H1 H2. unfold formatDate. destruct d; [reflexivity |]. rewrite H1, H2.
  reflexivity.
Qed.

End DateFacts.

(** X11.  [formatDate] brings the two spellings it knows to one: a date
    written day first with slashes or hyphens, and the same date written
    year first with hyphens, both come out day first with hyphens, which is
    a spelling [formatDate] accepts and keeps.  It is idempotent on every
    string. *)
Theorem format_date_one_spelling :
  (forall d1 d2 m1 m2 y1 y2 y3 y4 s1 s2,
     Forall (fun c => isDigit c = true) [d1; d2; m1; m2; y1; y2; y3; y4] ->
     isDateSep s1 = true -> isDateSep s2 = true ->
     formatDate [d1; d2; s1; m1; m2; s2; y1; y2; y3; y4]
     = [d1; d2; ch "-"; m1; m2; ch "-"; y1; y2; y3; y4]
     /\ formatDate [y1; y2; y3; y4; ch "-"; m1; m2; ch "-"; d1; d2]
        = [d1; d2; ch "-"; m1; m2; ch "-"; y1; y2; y3; y4])
  /\ (forall d : jsstring,
      isDayFirst d || isYearFirst d = true ->
      isDayFirst (formatDate d) = true
      /\ existsb (N.eqb (ch "/")) (formatDate d) = false)
  /\ (forall d : jsstring, formatDate (formatDate d) = formatDate d).
Proof.
  split.
  { intros. split; [apply formatDate_dayFirst | apply formatDate_yearFirst]; assumption. }
  split.
  { intros d H.
    destruct (formatDate_recognised d H)
      as (d1 & d2 & m1 & m2 & y1 & y2 & y3 & y4 & Hdig & ->).
    destruct (hyphened_dayFirst _ _ _ _ _ _ _ _ Hdig) as (Ha & _ & Hc).
    split; assumption. }
  intros d. destruct (isDayFirst d || isYearFirst d) eqn:E.
  - destruct (formatDate_recognised d E)
      as (d1 & d2 & m1 & m2 & y1 & y2 & y3 & y4 & Hdig & ->).
    apply (hyphened_dayFirst _ _ _ _ _ _ _ _ Hdig).
  - apply orb_false_iff in E as [E1 E2].
    rewrite (formatDate_other d E1 E2). apply formatDate_other; assumption.
Qed.

Lemma format_date_one_spelling_witness :
  formatDate (u "28/05-2025") = u "28-05-2025"
  /\ formatDate (u "2025-05-28") = u "28-05-2025"
  /\ isDayFirst (formatDate (u "2025-05-28")) = true.
Proof.
  destruct format_date_one_spelling as (Hsame & Hout & _).
  destruct (Hsame (ch "2") (ch "8") (ch "0") (ch "5") (ch "2") (ch "0") (ch "2") (ch "5")
              (ch "/") (ch "-")) as [H1 H2];
    [vm_compute; repeat constructor | reflexivity | reflexivity |].
  split; [exact H1 |]. split; [exact H2 |].
  apply Hout. vm_compute. reflexivity.
Defined.

Section DayColumns.

Lemma extractDateFromHeader_prefix (header r : jsstring) :
  extractDateFromHeader header = Some r ->
  length r = 5%nat /\ (exists rest, header = r ++ rest)
  /\ forall rest, extractDateFromHeader (r ++ rest) = Some r.
Proof.
  destruct header as [| d1 [| d2 [| s [| m1 [| m2 rest]]]]]; try discriminate.
  unfold extractDateFromHeader.
  destruct (isDigit d1 && isDigit d2 && (s =? ch "-") && isDigit m1 && isDigit m2) eqn:E;
    [| discriminate].
  intros [= <-]. split; [reflexivity |]. split; [exists rest; reflexivity |].
  intros rest'. cbn [app]. rewrite E. reflexivity.
Qed.

Lemma dayGroupsLoop_columns (headers : list jsstring) :
  forall i skip,
    Forall (fun g =>
              (i + skip <= showIdx g)%nat
              /\ (showIdx g < i + length headers)%nat
              /\ audIdx g = (showIdx g + 1)%nat
              /\ collIdx g = (showIdx g + 2)%nat
              /\ extractDateFromHeader (nth (showIdx g - i) headers []) = Some (date g))
           (dayGroupsLoop headers i skip)
    /\ apart (dayGroupsLoop headers i skip).
Proof.
  induction headers as [| header headers IH]; intros i skip; [split; constructor |].
  assert (Hshift : forall k,
            Forall (fun g =>
                      (S i + k <= showIdx g)%nat
                      /\ (showIdx g < S i + length headers)%nat
                      /\ audIdx g = (showIdx g + 1)%nat
                      /\ collIdx g = (showIdx g + 2)%nat
                      /\ extractDateFromHeader (nth (showIdx g - S i) headers [])
                         = Some (date g))
                   (dayGroupsLoop headers (S i) k) ->
            forall j, (i + j <= S i + k)%nat ->
            Forall (fun g =>
                      (i + j <= showIdx g)%nat
                      /\ (showIdx g < i + length (header :: headers))%nat
                      /\ audIdx g = (showIdx g + 1)%nat
                      /\ collIdx g = (showIdx g + 2)%nat
                      /\ extractDateFromHeader (nth (showIdx g - i) (header :: headers) [])
                         = Some (date g))
                   (dayGroupsLoop headers (S i) k)).
  { intros k H j Hj. eapply List.Forall_impl; [| exact H].
    intros g (H1 & H2 & H3 & H4 & H5). cbn [length].
    repeat split; try lia.
    replace (showIdx g - i)%nat with (S (showIdx g - S i)) by lia. exact H5. }
  cbn [dayGroupsLoop]. destruct skip as [| skip'].
  - destruct (extractDateFromHeader header) as [d |] eqn:E.
    + destruct (IH (S i) 2%nat) as [Hall Hap]. split.
      * constructor.
        -- cbn [showIdx audIdx collIdx date length]. repeat split; try lia.
           replace (i - i)%nat with 0%nat by lia. exact E.
        -- apply (Hshift 2%nat Hall 0%nat). lia.
      * cbn [apart]. destruct (dayGroupsLoop headers (S i) 2) as [| g' l] eqn:El;
          [exact I |].
        split; [| exact Hap]. inversion Hall as [| ? ? Hg' _]; subst.
        cbn [collIdx]. lia.
    + destruct (IH (S i) 0%nat) as [Hall Hap]. split; [| exact Hap].
      apply (Hshift 0%nat Hall 0%nat). lia.
  - destruct (IH (S i) skip') as [Hall Hap]. split; [| exact Hap].
    apply (Hshift skip' Hall (S skip')). lia.
Qed.

End DayColumns.

(** X12.  The day columns that [parseInvoiceExcel] collects from a header
    row: every group sits at a header that starts with a day and month
    (two digits, a hyphen, two digits), which becomes its date; its audience
    and collection columns are the next two; and the groups do not overlap,
    each starting after the collection column of the one before, so a dated
    header inside the three columns of a group starts no group of its own.
    The date taken from a header is its first five units. *)
Theorem day_groups_do_not_overlap :
  (forall headerRow : list jsstring,
     Forall (fun g =>
               (showIdx g < length headerRow)%nat
               /\ audIdx g = (showIdx g + 1)%nat
               /\ collIdx g = (showIdx g + 2)%nat
               /\ extractDateFromHeader (nth (showIdx g) headerRow []) = Some (date g))
            (dayGroups headerRow)
     /\ apart (dayGroups headerRow))
  /\ (forall header r : jsstring,
      extractDateFromHeader header = Some r ->
      length r = 5%nat /\ (exists rest, header = r ++ rest)
      /\ forall rest, extractDateFromHeader (r ++ rest) = Some r)
  /\ map showIdx
       (dayGroups [u "BILL TO"; u "23-05 SHOW"; u "23-05 AUD"; u "23-05 COLL";
                   u "24-05 SHOW"; u "24-05 AUD"])
     = [1%nat; 4%nat].
Proof.
  split.
  { intros headerRow. destruct (dayGroupsLoop_columns headerRow 0 0) as [Hall Hap].
    split; [| exact Hap]. eapply List.Forall_impl; [| exact Hall].
    intros g (_ & H2 & H3 & H4 & H5). rewrite Nat.sub_0_r in H5.
    repeat split; assumption. }
  split; [exact extractDateFromHeader_prefix |].
  vm_compute. reflexivity.
Qed.

Lemma day_groups_do_not_overlap_witness :
  length (u "23-05") = 5%nat
  /\ (exists rest, u "23-05 SHOW" = u "23-05" ++ rest)
  /\ forall rest, extractDateFromHeader (u "23-05" ++ rest) = Some (u "23-05").
Proof.
  apply (proj1 (proj2 day_groups_do_not_overlap) (u "23-05 SHOW")).
  vm_compute. reflexivity.
Defined.

(** ** Rounded amounts and the tax inputs *)

Section RoundedAmounts.

Local Open Scope Q_scope.

Lemma toFixed2_shape q :
  Qabs q < inject_Z (10 ^ 21) ->
  exists n : Z, toFixed2 (Fin q) = fin (inject_Z n / 100)
                /\ ((0 <= q) -> (0 <= n)%Z).
Proof.
  intros Hsmall. unfold toFixed2.
  destruct (Qle_bool (inject_Z (10 ^ 21)) (Qabs q)) eqn:Ebig.
  { apply Qle_bool_iff in Ebig. lra. }
  set (n := Qfloor (Qabs q * 100 + (1 # 2))).
  assert (Hn : (0 <= n)%Z).
  { change 0%Z with (Qfloor (inject_Z 0)). apply Qfloor_resp_le.
    change (inject_Z 0) with 0. pose proof (Qabs_nonneg q). lra. }
  destruct (Qle_bool 0 q) eqn:E.
  - exists n. split; [reflexivity | intros _; exact Hn].
  - exists (- n)%Z. split.
    + apply fin_eq. rewrite inject_Z_opp. field.
    + intros Hq. apply Qle_bool_iff in Hq. congruence.
Qed.

Lemma toFixed2_idem x : toFixed2 (toFixed2 x) = toFixed2 x.
Proof.
  destruct x as [| | | q]; try reflexivity.
  destruct (Qlt_le_dec (Qabs q) (inject_Z (10 ^ 21))) as [Hsmall | Hbig].
  - destruct (toFixed2_shape q Hsmall) as (n & -> & _). apply toFixed2_hundredth.
  - apply Qle_bool_iff in Hbig. unfold toFixed2 at 2. rewrite Hbig.
    unfold toFixed2. rewrite Hbig. reflexivity.
Qed.

(** A rounded amount that is not negative is so many rupees and, from 0 to
    99, so many paise. *)
Lemma rounded_amount_splits x q :
  toFixed2 x = Fin q -> 0 <= q -> q < inject_Z (10 ^ 21) ->
  exists r p : Z,
    (0 <= r)%Z /\ (0 <= p <= 99)%Z
    /\ Fin q = fin (inject_Z (100 * r + p) / 100)
    /\ rupeesOf (Fin q) = ofZ r
    /\ paiseOf (Fin q) = ofZ p.
Proof.
  intros Hx Hq Hsmall.
  destruct x as [| | | q0]; try discriminate.
  assert (Hn : exists n, (0 <= n)%Z /\ Fin q = fin (inject_Z n / 100)).
  { destruct (Qlt_le_dec (Qabs q0) (inject_Z (10 ^ 21))) as [Hs | Hbig].
    - destruct (toFixed2_shape q0 Hs) as (n & Hn & _).
      rewrite Hn in Hx. exists (Z.abs n). split; [lia |]. rewrite <- Hx.
      apply fin_eq.
      destruct (Z.le_gt_cases 0 n) as [H0 | H0]; [rewrite Z.abs_eq by lia; reflexivity |].
      exfalso. injection Hx as Hx. rewrite <- Hx in Hq. rewrite Qred_correct in Hq.
      assert (Hd : inject_Z n / 100 == inject_Z n * (1 # 100)) by field.
      rewrite Hd in Hq. assert (Hneg : inject_Z n < 0).
      { change 0 with (inject_Z 0). rewrite <- Zlt_Qlt. lia. }
      lra.
    - exfalso. unfold toFixed2 in Hx. apply Qle_bool_iff in Hbig. rewrite Hbig in Hx.
      injection Hx as ->. apply Qle_bool_iff in Hbig.
      rewrite Qabs_pos in Hbig by exact Hq. lra. }
  destruct Hn as (n & Hn0 & Hn).
  exists (n / 100)%Z, (n mod 100)%Z.
  assert (Hre : (100 * (n / 100) + n mod 100 = n)%Z)
    by (Z.div_mod_to_equations; lia).
  split; [Z.div_mod_to_equations; lia |].
  split; [Z.div_mod_to_equations; lia |].
  rewrite Hn.
  replace (inject_Z n) with (inject_Z (100 * (n / 100) + n mod 100))
    by (rewrite Hre; reflexivity).
  split; [reflexivity |].
  apply amount_split. Z.div_mod_to_equations. lia.
Qed.

End RoundedAmounts.

Section ZeroRate.

Local Open Scope js_scope.

Lemma zero_share b : toFixed2 (fin b * (ofZ 0 / ofZ 100)) = ofZ 0.
Proof.
  change (ofZ 0 / ofZ 100) with (ofZ 0).
  assert (H : fin b * ofZ 0 = ofZ 0).
  { unfold fin, ofZ. cbn [jmul]. apply fin_ofZ. change (inject_Z 0) with 0%Q. ring. }
  rewrite H. reflexivity.
Qed.

Lemma add_zero b : fin b + ofZ 0 = fin b.
Proof.
  unfold fin, ofZ. cbn [jadd]. unfold fin. f_equal.
  apply Qred_complete. rewrite Qred_correct.
  change (inject_Z 0) with 0%Q. ring.
Qed.

Lemma zero_rate_amounts gstType b :
  let g := gstAmounts gstType (ofZ 0) (fin b) in
  cgstVal g = ofZ 0 /\ sgstVal g = ofZ 0 /\ igstVal g = ofZ 0
  /\ netAmountVal g = toFixed2 (fin b).
Proof.
  destruct gstType; cbv zeta; unfold gstAmounts;
    cbn [cgstVal sgstVal igstVal netAmountVal].
  - change (ofZ 0 / ofZ 2) with (ofZ 0). rewrite zero_share, !add_zero.
    repeat split; reflexivity.
  - rewrite zero_share, add_zero. repeat split; reflexivity.
Qed.

End ZeroRate.

(** X13.  [toFixed(2)] read back as a number is idempotent.  The net amount
    of the tax block is such a rounded value, so when it is not negative
    (and below 1e21) [amountToWordsWithPaise] splits it into whole rupees
    and a whole number of paise from 0 to 99 that add up to it: the net
    amount never reads as a hundred paise.  At the rate 0, the default of
    the component, no tax is added in either mode and the net amount is the
    taxable amount rounded. *)
Theorem net_amount_rupees_and_paise :
  (forall x : number, toFixed2 (toFixed2 x) = toFixed2 x)
  /\ (forall gstType (gstRate taxableAmount : number) (q : Q),
      netAmountVal (gstAmounts gstType gstRate taxableAmount) = Fin q ->
      (0 <= q)%Q -> (q < inject_Z (10 ^ 21))%Q ->
      exists r p : Z,
        (0 <= r)%Z /\ (0 <= p <= 99)%Z
        /\ Fin q = fin (inject_Z (100 * r + p) / 100)
        /\ rupeesOf (Fin q) = ofZ r
        /\ paiseOf (Fin q) = ofZ p)
  /\ (forall gstType (b : Q),
      let g := gstAmounts gstType (ofZ 0) (fin b) in
      cgstVal g = ofZ 0 /\ sgstVal g = ofZ 0 /\ igstVal g = ofZ 0
      /\ netAmountVal g = toFixed2 (fin b)).
Proof.
  split; [exact toFixed2_idem |].
  split; [| exact zero_rate_amounts].
  intros gstType gstRate taxableAmount q Hnet Hq Hsmall.
  destruct gstType; cbn [gstAmounts netAmountVal] in Hnet;
    eapply rounded_amount_splits; eassumption.
Qed.

Lemma net_amount_rupees_and_paise_witness :
  exists r p : Z,
    (0 <= r)%Z /\ (0 <= p <= 99)%Z
    /\ Fin (118029 # 100) = fin (inject_Z (100 * r + p) / 100)
    /\ rupeesOf (Fin (118029 # 100)) = ofZ r
    /\ paiseOf (Fin (118029 # 100)) = ofZ p.
Proof.
  apply (proj1 (proj2 net_amount_rupees_and_paise)
           CGST_SGST (ofZ 18) (Fin (1000249 # 1000)) (118029 # 100)).
  - vm_compute. reflexivity.
  - vm_compute. discriminate.
  - vm_compute. reflexivity.
Defined.

(** ** Reading fields in both scripts *)

Section ScriptBlindFields.

Local Open Scope js_scope.

Implicit Types (invoiceData : gmap string jsstring).

Lemma fin_normal q q' : fin q = Fin q' -> Qred q' = q'.
Proof.
  unfold fin. intros [= <-]. apply Qred_complete, Qred_correct.
Qed.

Lemma parseUnsigned_normal (s : jsstring) q : parseUnsigned s = Fin q -> Qred q = q.
Proof.
  unfold parseUnsigned. destruct (startsWith (u "Infinity") s); [discriminate |].
  destruct (takeDigits s) as [ip r1].
  destruct (match r1 with
            | c :: r => if c =? ch "." then takeDigits r else ([], r1)
            | [] => ([], r1)
            end) as [fp r2].
  destruct (ip ++ fp); [discriminate |]. apply fin_normal.
Qed.

(** What [parseFloat] returns is in lowest terms. *)
Lemma parseFloat_normal (s : jsstring) q : parseFloat s = Fin q -> Qred q = q.
Proof.
  unfold parseFloat. destruct (trimStart s) as [| c r]; [discriminate |].
  destruct (c =? ch "-").
  - destruct (parseUnsigned r) as [| | | q0] eqn:E; try discriminate.
    cbn [jneg]. apply fin_normal.
  - destruct (c =? ch "+"); apply parseUnsigned_normal.
Qed.

Lemma zero_normal q : Qred q = q -> Qeq_bool q 0 = true -> Fin q = ofZ 0.
Proof.
  intros Hn Hz. apply Qeq_bool_iff in Hz. rewrite <- Hn.
  change (Fin (Qred q)) with (fin q). apply fin_ofZ. exact Hz.
Qed.

(** On a parsed text, [x || 0] and [isNaN(x) ? 0 : x] are the same number. *)
Lemma orElse_isNaN (s : jsstring) :
  orElse (parseFloat s) (ofZ 0)
  = if isNaN (parseFloat s) then ofZ 0 else parseFloat s.
Proof.
  unfold orElse. destruct (parseFloat s) as [| | | q] eqn:E; try reflexivity.
  cbn [truthy isNaN]. destruct (Qeq_bool q 0) eqn:Ez; [| reflexivity].
  cbn [negb]. symmetry. apply zero_normal; [apply (parseFloat_normal s q E) | exact Ez].
Qed.

Lemma plainDigits_englishToMarathi (text : jsstring) :
  MarathiPage.plainDigits (englishToMarathi text) = MarathiPage.plainDigits text.
Proof.
  unfold MarathiPage.plainDigits. rewrite marathiToEnglish_englishToMarathi. reflexivity.
Qed.

(** The field as the later page reads it is the field of the earlier page
    on the data with plain digits. *)
Lemma marathiField_numField invoiceData key :
  MarathiPage.marathiField invoiceData key
  = numField (MarathiPage.plainDigits <$> invoiceData) key.
Proof.
  unfold MarathiPage.marathiField, numField. rewrite lookup_fmap.
  destruct (invoiceData !! key) as [[| c r] |] eqn:E; cbn [fmap option_fmap option_map];
    try reflexivity.
  rewrite parseMarathiNumber_pipeline. cbv zeta.
  fold (MarathiPage.plainDigits (c :: r)).
  destruct (MarathiPage.plainDigits (c :: r)) as [| d t] eqn:Ep.
  - reflexivity.
  - symmetry. apply orElse_isNaN.
Qed.

Lemma fold_left_ext {A B} (f g : A -> B -> A) (l : list B) (a : A) :
  (forall x y, f x y = g x y) -> fold_left f l a = fold_left g l a.
Proof.
  intros H. revert a. induction l as [| y l IH]; intros a; [reflexivity |].
  cbn [fold_left]. rewrite H. apply IH.
Qed.

Lemma marathi_calculateTotalExpenses invoiceData :
  MarathiPage.calculateTotalExpenses invoiceData
  = calculateTotalExpenses (MarathiPage.plainDigits <$> invoiceData).
Proof.
  unfold MarathiPage.calculateTotalExpenses, calculateTotalExpenses. cbv zeta.
  rewrite (fold_left_ext
             (fun totalPaise i =>
                totalPaise
                + (MarathiPage.marathiField invoiceData ("expense" +:+ pretty i +:+ "_rs")
                   * ofZ 100
                   + MarathiPage.marathiField invoiceData
                       ("expense" +:+ pretty i +:+ "_paise")))
             (fun totalPaise i =>
                totalPaise
                + (numField (MarathiPage.plainDigits <$> invoiceData)
                     ("expense" +:+ pretty i +:+ "_rs") * ofZ 100
                   + numField (MarathiPage.plainDigits <$> invoiceData)
                       ("expense" +:+ pretty i +:+ "_paise"))))
    by (intros; rewrite !marathiField_numField; reflexivity).
  rewrite (fold_left_ext
             (fun totalPaise i =>
                totalPaise
                + (MarathiPage.marathiField invoiceData ("empty" +:+ pretty i +:+ "_rs")
                   * ofZ 100
                   + MarathiPage.marathiField invoiceData
                       ("empty" +:+ pretty i +:+ "_paise")))
             (fun totalPaise i =>
                totalPaise
                + (numField (MarathiPage.plainDigits <$> invoiceData)
                     ("empty" +:+ pretty i +:+ "_rs") * ofZ 100
                   + numField (MarathiPage.plainDigits <$> invoiceData)
                       ("empty" +:+ pretty i +:+ "_paise"))))
    by (intros; rewrite !marathiField_numField; reflexivity).
  reflexivity.
Qed.

Lemma marathi_calculateRowTotal invoiceData rowIndex :
  MarathiPage.calculateRowTotal invoiceData rowIndex
  = calculateRowTotal (MarathiPage.plainDigits <$> invoiceData) rowIndex.
Proof.
  unfold MarathiPage.calculateRowTotal, calculateRowTotal, rowQuantity, rowPrice.
  rewrite !marathiField_numField. reflexivity.
Qed.

Lemma marathi_calculateTotalSales invoiceData :
  MarathiPage.calculateTotalSales invoiceData
  = calculateTotalSales (MarathiPage.plainDigits <$> invoiceData).
Proof.
  unfold MarathiPage.calculateTotalSales, calculateTotalSales, salesPaiseSum. cbv zeta.
  rewrite (fold_left_ext
             (fun totalPaise i =>
                match rs (MarathiPage.calculateRowTotal invoiceData i),
                      paise (MarathiPage.calculateRowTotal invoiceData i) with
                | Some r, Some p => totalPaise + (r * ofZ 100 + p)
                | _, _ => totalPaise
                end)
             (fun totalPaise i =>
                match rs (calculateRowTotal (MarathiPage.plainDigits <$> invoiceData) i),
                      paise (calculateRowTotal (MarathiPage.plainDigits <$> invoiceData) i)
                with
                | Some r, Some p => totalPaise + (r * ofZ 100 + p)
                | _, _ => totalPaise
                end))
    by (intros; rewrite marathi_calculateRowTotal; reflexivity).
  reflexivity.
Qed.

Lemma marathi_calculateNetBalance invoiceData :
  MarathiPage.calculateNetBalance invoiceData
  = calculateNetBalance (MarathiPage.plainDigits <$> invoiceData).
Proof.
  unfold MarathiPage.calculateNetBalance, calculateNetBalance, netBalanceOf. cbv zeta.
  rewrite marathi_calculateTotalSales, marathi_calculateTotalExpenses. reflexivity.
Qed.

Lemma plainDigits_script invoiceData :
  MarathiPage.plainDigits <$> (englishToMarathi <$> invoiceData)
  = MarathiPage.plainDigits <$> invoiceData.
Proof.
  rewrite <- map_fmap_compose. apply map_fmap_ext.
  intros key text _. apply plainDigits_englishToMarathi.
Qed.

Lemma plainDigits_script' invoiceData :
  MarathiPage.plainDigits <$> (marathiToEnglish <$> invoiceData)
  = MarathiPage.plainDigits <$> invoiceData.
Proof.
  rewrite <- map_fmap_compose. apply map_fmap_ext.
  intros key text _. cbn. unfold MarathiPage.plainDigits.
  rewrite (marathiToEnglish_id (marathiToEnglish text))
    by apply no_marathi_after_marathiToEnglish.
  reflexivity.
Qed.

End ScriptBlindFields.

(** X14.  [safeNumber], which reads the tax inputs of the preview, gives for
    a string without Devanagari digits the number that [parseMarathiNumber]
    gives, never [NaN] for a string, and 0 for anything that is neither a
    number nor a string; a string with Devanagari digits it reads as 0 where
    [parseMarathiNumber] reads the number. *)
Theorem safeNumber_reads_ascii_only :
  (forall s : jsstring,
     containsMarathiDigits s = false ->
     safeNumber (VString s) = parseMarathiNumber s)
  /\ (forall s : jsstring, isNaN (safeNumber (VString s)) = false)
  /\ (forall n : number, safeNumber (VNumber n) = n)
  /\ safeNumber VOther = ofZ 0
  /\ safeNumber (VString (u "१८")) = ofZ 0
  /\ parseMarathiNumber (u "१८") = ofZ 18
  /\ safeNumber (VString (u "1,180.50")) = Fin (2361 # 2).
Proof.
  split.
  { intros s H. unfold safeNumber.
    rewrite parseMarathiNumber_pipeline, (marathiToEnglish_id s H). cbv zeta.
    apply orElse_isNaN. }
  split.
  { intros s. unfold safeNumber. rewrite orElse_isNaN.
    destruct (parseFloat (stripCommas s)); reflexivity. }
  split; [reflexivity |].
  repeat split; vm_compute; reflexivity.
Qed.

Lemma safeNumber_reads_ascii_only_witness :
  safeNumber (VString (u " 45.5 %")) = parseMarathiNumber (u " 45.5 %").
Proof.
  apply (proj1 safeNumber_reads_ascii_only). vm_compute. reflexivity.
Defined.

(** X15.  The calculation functions of the page that reads Devanagari
    digits return what the functions of the earlier page return on the same
    data with every field's Devanagari digits mapped to ASCII and its commas
    removed: expenses, row totals, total sales and net balance. *)
Theorem marathi_page_is_plain_page_on_plain_digits :
  forall invoiceData : gmap string jsstring,
    MarathiPage.calculateTotalExpenses invoiceData
    = calculateTotalExpenses (MarathiPage.plainDigits <$> invoiceData)
    /\ (forall rowIndex,
        MarathiPage.calculateRowTotal invoiceData rowIndex
        = calculateRowTotal (MarathiPage.plainDigits <$> invoiceData) rowIndex)
    /\ MarathiPage.calculateTotalSales invoiceData
       = calculateTotalSales (MarathiPage.plainDigits <$> invoiceData)
    /\ MarathiPage.calculateNetBalance invoiceData
       = calculateNetBalance (MarathiPage.plainDigits <$> invoiceData).
Proof.
  intros invoiceData.
  split; [apply marathi_calculateTotalExpenses |].
  split; [intros; apply marathi_calculateRowTotal |].
  split; [apply marathi_calculateTotalSales | apply marathi_calculateNetBalance].
Qed.

(** X16.  The totals of the page do not depend on the script of the digits:
    writing every field with Devanagari digits, or every field with ASCII
    digits, leaves expenses, row totals, total sales and net balance as they
    are. *)
Theorem totals_are_script_blind :
  forall (invoiceData : gmap string jsstring) (respell : jsstring -> jsstring),
    respell = englishToMarathi \/ respell = marathiToEnglish ->
    MarathiPage.calculateTotalExpenses (respell <$> invoiceData)
    = MarathiPage.calculateTotalExpenses invoiceData
    /\ (forall rowIndex,
        MarathiPage.calculateRowTotal (respell <$> invoiceData) rowIndex
        = MarathiPage.calculateRowTotal invoiceData rowIndex)
    /\ MarathiPage.calculateTotalSales (respell <$> invoiceData)
       = MarathiPage.calculateTotalSales invoiceData
    /\ MarathiPage.calculateNetBalance (respell <$> invoiceData)
       = MarathiPage.calculateNetBalance invoiceData.
Proof.
  intros invoiceData respell Hre.
  assert (Hplain : MarathiPage.plainDigits <$> (respell <$> invoiceData)
                   = MarathiPage.plainDigits <$> invoiceData).
  { destruct Hre as [-> | ->]; [apply plainDigits_script | apply plainDigits_script']. }
  rewrite !marathi_calculateTotalExpenses, !marathi_calculateTotalSales,
    !marathi_calculateNetBalance, Hplain.
  repeat split. intros rowIndex. rewrite !marathi_calculateRowTotal, Hplain. reflexivity.
Qed.

Lemma totals_are_script_blind_witness :
  MarathiPage.calculateNetBalance
    (englishToMarathi <$>
       {[ "row0_item" := u "12"; "row0_price" := u "1,250.75";
          "expense0_rs" := u "70"; "expense0_paise" := u "50" ]}%string)
  = MarathiPage.calculateNetBalance
      {[ "row0_item" := u "12"; "row0_price" := u "1,250.75";
         "expense0_rs" := u "70"; "expense0_paise" := u "50" ]}%string.
Proof.
  apply (totals_are_script_blind _ englishToMarathi). left. reflexivity.
Defined.

(** ** Amounts as text, and back *)

Section AmountText.

Local Open Scope Z_scope.

Lemma digitUnit_value d : 0 <= d <= 9 -> Z.of_N (digitUnit d) - 48 = d.
Proof. intros H. unfold digitUnit. lia. Qed.

Lemma digitUnit_digit d : 0 <= d <= 9 -> isDigit (digitUnit d) = true.
Proof.
  intros H. unfold isDigit, digitUnit.
  apply andb_true_intro. split; apply N.leb_le; lia.
Qed.

(** The loop puts digits in front of [acc], at least one when it has fuel,
    and enough fuel gives all of them: read back from [0] they continue the
    reading of [acc] from [n]. *)
Lemma decimalLoop_digits fuel : forall n acc,
  0 <= n ->
  exists pre : jsstring,
    decimalLoop fuel n acc = pre ++ acc
    /\ forallb isDigit pre = true
    /\ (fuel <> O -> pre <> []).
Proof.
  induction fuel as [| fuel IH]; intros n acc Hn.
  - exists []. repeat split. congruence.
  - cbn [decimalLoop]. destruct (n / 10 =? 0) eqn:E.
    + exists [digitUnit (n mod 10)]. split; [reflexivity |]. split; [| discriminate].
      cbn [forallb]. rewrite digitUnit_digit by (Z.div_mod_to_equations; lia). reflexivity.
    + destruct (IH (n / 10) (digitUnit (n mod 10) :: acc))
        as (pre & Hpre & Hdig & _); [Z.div_mod_to_equations; lia |].
      exists (pre ++ [digitUnit (n mod 10)]). rewrite Hpre, <- app_assoc.
      split; [reflexivity |]. split.
      * rewrite forallb_app, Hdig. cbn [forallb].
        rewrite digitUnit_digit by (Z.div_mod_to_equations; lia). reflexivity.
      * intros _. destruct pre; discriminate.
Qed.

Lemma decimalLoop_value fuel : forall n acc,
  0 <= n < 10 ^ Z.of_nat fuel ->
  fold_left (fun a c => a * 10 + (Z.of_N c - 48)) (decimalLoop fuel n acc) 0
  = fold_left (fun a c => a * 10 + (Z.of_N c - 48)) acc n.
Proof.
  induction fuel as [| fuel IH]; intros n acc Hn.
  - change (10 ^ Z.of_nat 0) with 1 in Hn. assert (n = 0) as -> by lia. reflexivity.
  - cbn [decimalLoop]. destruct (Z.eqb_spec (n / 10) 0) as [E | E].
    + cbn [fold_left]. rewrite digitUnit_value by (Z.div_mod_to_equations; lia).
      f_equal. Z.div_mod_to_equations. lia.
    + rewrite IH.
      * cbn [fold_left]. rewrite digitUnit_value by (Z.div_mod_to_equations; lia).
        f_equal. Z.div_mod_to_equations. lia.
      * rewrite Nat2Z.inj_succ, Z.pow_succ_r in Hn by lia.
        Z.div_mod_to_equations. lia.
Qed.

Lemma decimal_fuel n : 0 <= n -> n < 10 ^ Z.of_nat (S (Z.to_nat (Z.log2 n))).
Proof.
  intros Hn. rewrite Nat2Z.inj_succ, Z2Nat.id by apply Z.log2_nonneg.
  destruct (Z.eq_dec n 0) as [-> | Hpos]; [reflexivity |].
  pose proof (Z.log2_spec n ltac:(lia)) as [_ Hlog].
  pose proof (Z.log2_nonneg n) as Hl.
  assert (2 ^ Z.succ (Z.log2 n) <= 10 ^ Z.succ (Z.log2 n))
    by (apply Z.pow_le_mono_l; lia).
  lia.
Qed.

Lemma decimal_value n : 0 <= n -> digitsValue (decimal n) = n.
Proof.
  intros Hn. unfold digitsValue, decimal.
  rewrite decimalLoop_value by (split; [exact Hn | apply decimal_fuel, Hn]).
  reflexivity.
Qed.

Lemma decimal_digits n :
  0 <= n -> forallb isDigit (decimal n) = true /\ decimal n <> [].
Proof.
  intros Hn. unfold decimal.
  destruct (decimalLoop_digits (S (Z.to_nat (Z.log2 n))) n [] Hn) as (pre & -> & Hd & Hne).
  rewrite app_nil_r. split; [exact Hd | apply Hne; discriminate].
Qed.

(** Commas, and only commas, are added by the grouping. *)
Lemma stripCommas_app (x y : jsstring) :
  stripCommas (x ++ y) = stripCommas x ++ stripCommas y.
Proof. apply List.filter_app. Qed.

Lemma stripCommas_rev (x : jsstring) : stripCommas (rev x) = rev (stripCommas x).
Proof.
  unfold stripCommas. induction x as [| c x IH]; [reflexivity |].
  cbn [rev List.filter]. rewrite List.filter_app, IH. cbn [List.filter].
  destruct (negb (c =? ch ",")%N); [reflexivity | apply app_nil_r].
Qed.

Lemma digit_not_comma c : isDigit c = true -> negb (c =? ch ",")%N = true.
Proof.
  unfold isDigit. intros H. apply andb_true_iff in H as [H1%N.leb_le H2%N.leb_le].
  apply negb_true_iff, N.eqb_neq. change (ch ",") with 44%N. lia.
Qed.

Lemma stripCommas_digits (ds : jsstring) :
  forallb isDigit ds = true -> stripCommas ds = ds.
Proof.
  unfold stripCommas. induction ds as [| c ds IH]; [reflexivity |].
  cbn [forallb List.filter]. intros H. apply andb_true_iff in H as [Hc Hds].
  rewrite (digit_not_comma c Hc), (IH Hds). reflexivity.
Qed.

Lemma commaPairs_strip (r : jsstring) :
  forallb isDigit r = true -> stripCommas (commaPairs r) = r.
Proof.
  remember (length r) as k eqn:Hk. revert r Hk.
  induction k as [k IH] using lt_wf_ind. intros r Hk Hd.
  destruct r as [| x [| y r]]; [reflexivity | |].
  - cbn [commaPairs]. apply andb_true_iff in Hd as [Hx _].
    unfold stripCommas. cbn [List.filter]. change (negb (ch "," =? ch ",")%N) with false.
    cbn iota. rewrite (digit_not_comma x Hx). reflexivity.
  - cbn [commaPairs]. cbn [forallb] in Hd.
    apply andb_true_iff in Hd as [Hx Hd]. apply andb_true_iff in Hd as [Hy Hd].
    unfold stripCommas. cbn [List.filter]. change (negb (ch "," =? ch ",")%N) with false.
    cbn iota. rewrite (digit_not_comma x Hx), (digit_not_comma y Hy).
    f_equal. f_equal. apply (IH (length r)); [subst k; cbn; lia | reflexivity | exact Hd].
Qed.

Lemma forallb_take_drop {A} (p : A -> bool) (k : nat) (l : list A) :
  forallb p l = true -> forallb p (take k l) = true /\ forallb p (drop k l) = true.
Proof.
  intros H. rewrite <- (take_drop k l), forallb_app in H.
  apply andb_true_iff in H. exact H.
Qed.

Lemma groupIndian_strip (ds : jsstring) :
  forallb isDigit ds = true -> stripCommas (groupIndian ds) = ds.
Proof.
  intros H. unfold groupIndian. cbv zeta.
  assert (Hr : forallb isDigit (rev ds) = true) by (rewrite forallb_rev; exact H).
  destruct (forallb_take_drop isDigit 3 (rev ds) Hr) as [Ht Hd].
  rewrite stripCommas_rev, stripCommas_app, (stripCommas_digits _ Ht),
    (commaPairs_strip _ Hd), take_drop.
  apply rev_involutive.
Qed.

Lemma commaPairs_units (r : jsstring) c :
  In c (commaPairs r) -> In c r \/ c = ch ",".
Proof.
  remember (length r) as k eqn:Hk. revert r Hk.
  induction k as [k IH] using lt_wf_ind. intros r Hk Hin.
  destruct r as [| x [| y r]]; [destruct Hin | |].
  - cbn in Hin. destruct Hin as [<- | [<- | []]]; [right | left; left]; reflexivity.
  - cbn [commaPairs] in Hin. destruct Hin as [<- | [<- | [<- | Hin]]].
    + right. reflexivity.
    + left. left. reflexivity.
    + left. right. left. reflexivity.
    + destruct (IH (length r) ltac:(subst k; cbn; lia) r eq_refl Hin) as [H | H];
        [left; right; right; exact H | right; exact H].
Qed.

Lemma groupIndian_units (ds : jsstring) c :
  In c (groupIndian ds) -> In c ds \/ c = ch ",".
Proof.
  unfold groupIndian. cbv zeta. rewrite <- in_rev, in_app_iff.
  intros [H | H].
  - left. apply in_rev. rewrite <- (take_drop 3 (rev ds)). apply in_app_iff. left. exact H.
  - destruct (commaPairs_units _ _ H) as [H' | H']; [left | right; exact H'].
    apply in_rev. rewrite <- (take_drop 3 (rev ds)). apply in_app_iff. right. exact H'.
Qed.

Lemma ascii_plain (s : jsstring) :
  (forall c, In c s -> (c < 0x0966)%N) -> marathiToEnglish s = s.
Proof.
  intros H. apply marathiToEnglish_id. unfold containsMarathiDigits.
  destruct (existsb isMarathiDigit s) eqn:E; [| reflexivity].
  apply existsb_exists in E as (c & Hin & Hc). specialize (H c Hin).
  unfold isMarathiDigit in Hc. apply andb_true_iff in Hc as [H1%N.leb_le _]. lia.
Qed.

Lemma digit_small c : isDigit c = true -> (c < 0x0966)%N.
Proof.
  unfold isDigit. intros H. apply andb_true_iff in H as [_ H2%N.leb_le]. lia.
Qed.

End AmountText.

Section AmountRoundTrip.

Lemma takeDigits_digits (ds rest : jsstring) :
  forallb isDigit ds = true ->
  match rest with c :: _ => isDigit c = false | [] => True end ->
  takeDigits (ds ++ rest) = (ds, rest).
Proof.
  intros Hd Hrest. induction ds as [| c ds IH].
  - destruct rest as [| x r]; [reflexivity |]. cbn [app takeDigits]. rewrite Hrest.
    reflexivity.
  - cbn [forallb] in Hd. apply andb_true_iff in Hd as [Hc Hds].
    cbn [app takeDigits]. rewrite Hc, (IH Hds). reflexivity.
Qed.

Lemma digit_not_space c : isDigit c = true -> isSpace c = false.
Proof.
  intros H. destruct (isSpace c) eqn:E; [| reflexivity].
  rewrite (space_not_digit c E) in H. discriminate.
Qed.

Lemma digit_not_unit c (k : N) :
  isDigit c = true -> (k < 0x30 \/ 0x39 < k)%N -> (c =? k)%N = false /\ (k =? c)%N = false.
Proof.
  unfold isDigit. intros H Hk. apply andb_true_iff in H as [H1%N.leb_le H2%N.leb_le].
  split; apply N.eqb_neq; lia.
Qed.

(** A literal of digits, a point and digits. *)
Lemma parseUnsigned_decimal (ip fp : jsstring) :
  ip <> [] -> forallb isDigit ip = true -> forallb isDigit fp = true ->
  parseUnsigned (ip ++ ch "." :: fp)
  = fin (inject_Z (digitsValue (ip ++ fp)) * Qpower 10 (- Z.of_nat (length fp))).
Proof.
  intros Hne Hip Hfp. unfold parseUnsigned.
  destruct ip as [| c ip'] eqn:Eip; [congruence |]. rewrite <- Eip in *.
  assert (Hc : isDigit c = true).
  { rewrite Eip in Hip. cbn [forallb] in Hip. apply andb_true_iff in Hip. tauto. }
  assert (Hinf : startsWith (u "Infinity") (ip ++ ch "." :: fp) = false).
  { rewrite Eip. cbn [app].
    let l := eval vm_compute in (u "Infinity") in change (u "Infinity") with l.
    cbn [startsWith].
    rewrite (proj2 (digit_not_unit c 73 Hc ltac:(right; reflexivity))). reflexivity. }
  rewrite Hinf, (takeDigits_digits ip (ch "." :: fp) Hip eq_refl).
  change (ch "." =? ch ".")%N with true. cbn iota.
  rewrite <- (app_nil_r fp) at 1. rewrite (takeDigits_digits fp [] Hfp I).
  cbn [parseExponent]. rewrite Eip at 1. cbn [app]. rewrite Eip. reflexivity.
Qed.

Lemma parseFloat_decimal (ip fp : jsstring) :
  ip <> [] -> forallb isDigit ip = true -> forallb isDigit fp = true ->
  parseFloat (ip ++ ch "." :: fp)
  = fin (inject_Z (digitsValue (ip ++ fp)) * Qpower 10 (- Z.of_nat (length fp)))
  /\ parseFloat (ch "-" :: ip ++ ch "." :: fp)
     = jneg (fin (inject_Z (digitsValue (ip ++ fp)) * Qpower 10 (- Z.of_nat (length fp)))).
Proof.
  intros Hne Hip Hfp. split.
  - rewrite <- (parseUnsigned_decimal ip fp Hne Hip Hfp).
    destruct ip as [| c ip']; [congruence |].
    cbn [forallb] in Hip. apply andb_true_iff in Hip as [Hc _].
    unfold parseFloat. cbn [app trimStart]. rewrite (digit_not_space c Hc).
    rewrite (proj1 (digit_not_unit c (ch "-") Hc ltac:(left; reflexivity))).
    rewrite (proj1 (digit_not_unit c (ch "+") Hc ltac:(left; reflexivity))).
    reflexivity.
  - rewrite <- (parseUnsigned_decimal ip fp Hne Hip Hfp). reflexivity.
Qed.

Local Open Scope Z_scope.

Lemma digitsValue_two (ds : jsstring) d1 d2 :
  0 <= d1 <= 9 -> 0 <= d2 <= 9 ->
  digitsValue (ds ++ [digitUnit d1; digitUnit d2]) = (digitsValue ds * 10 + d1) * 10 + d2.
Proof.
  intros H1 H2. unfold digitsValue. rewrite fold_left_app. cbn [fold_left].
  rewrite !digitUnit_value by assumption. reflexivity.
Qed.

Lemma Qltb_hundredths k : Qltb (Qred (inject_Z k / 100)) 0 = (k <? 0).
Proof.
  unfold Qltb. destruct (Z.ltb_spec k 0) as [H | H].
  - apply negb_true_iff. destruct (Qle_bool 0 (Qred (inject_Z k / 100))) eqn:E;
      [| reflexivity].
    apply Qle_bool_iff in E. rewrite Qred_correct in E.
    assert (Hd : (inject_Z k / 100 == inject_Z k * (1 # 100))%Q) by field.
    rewrite Hd in E. assert (inject_Z k < 0)%Q.
    { change 0%Q with (inject_Z 0). rewrite <- Zlt_Qlt. exact H. }
    lra.
  - apply negb_false_iff. apply Qle_bool_iff. rewrite Qred_correct.
    assert (Hd : (inject_Z k / 100 == inject_Z k * (1 # 100))%Q) by field.
    rewrite Hd. pose proof (inject_Z_nonneg k H). lra.
Qed.

(** What is printed for an amount with two decimals. *)
Lemma toLocaleString_hundredths k :
  toLocaleString (fin (inject_Z k / 100))
  = (if k <? 0 then [ch "-"] else [])
    ++ groupIndian (decimal (Z.abs k / 100))
    ++ ch "." :: [digitUnit (Z.abs k mod 100 / 10); digitUnit (Z.abs k mod 10)].
Proof.
  unfold fin, toLocaleString. cbv zeta.
  rewrite Qfloor_hundredths, Qltb_hundredths. reflexivity.
Qed.

Lemma plainDigits_printed (sign : bool) n :
  0 <= n ->
  MarathiPage.plainDigits
    ((if sign then [ch "-"] else [])
     ++ groupIndian (decimal (n / 100))
     ++ ch "." :: [digitUnit (n mod 100 / 10); digitUnit (n mod 10)])
  = (if sign then [ch "-"] else [])
    ++ decimal (n / 100)
    ++ ch "." :: [digitUnit (n mod 100 / 10); digitUnit (n mod 10)].
Proof.
  intros Hn.
  destruct (decimal_digits (n / 100) ltac:(Z.div_mod_to_equations; lia)) as [Hd _].
  assert (H1 : isDigit (digitUnit (n mod 100 / 10)) = true)
    by (apply digitUnit_digit; Z.div_mod_to_equations; lia).
  assert (H2 : isDigit (digitUnit (n mod 10)) = true)
    by (apply digitUnit_digit; Z.div_mod_to_equations; lia).
  unfold MarathiPage.plainDigits. rewrite ascii_plain.
  - rewrite !stripCommas_app, (groupIndian_strip _ Hd). f_equal; [destruct sign; reflexivity |].
    f_equal. unfold stripCommas. cbn [List.filter].
    rewrite (digit_not_comma _ H1), (digit_not_comma _ H2). reflexivity.
  - intros c Hin. apply in_app_iff in Hin as [Hin | Hin].
    { destruct sign; [| destruct Hin]. destruct Hin as [<- | []]. reflexivity. }
    apply in_app_iff in Hin as [Hin | Hin].
    { destruct (groupIndian_units _ _ Hin) as [H | ->]; [| reflexivity].
      apply digit_small. rewrite forallb_forall in Hd. apply Hd, H. }
    destruct Hin as [<- | [<- | [<- | []]]];
      [reflexivity | apply digit_small, H1 | apply digit_small, H2].
Qed.

(** Printing an amount with two decimals and reading it back gives the
    amount. *)
Lemma print_parse k :
  parseMarathiNumber (englishToMarathi (toLocaleString (fin (inject_Z k / 100))))
  = fin (inject_Z k / 100).
Proof.
  rewrite parseMarathiNumber_pipeline, marathiToEnglish_englishToMarathi. cbv zeta.
  fold (MarathiPage.plainDigits (toLocaleString (fin (inject_Z k / 100)))).
  rewrite toLocaleString_hundredths, plainDigits_printed by lia.
  set (n := Z.abs k).
  destruct (decimal_digits (n / 100) ltac:(Z.div_mod_to_equations; lia)) as [Hd Hne].
  assert (H1 : 0 <= n mod 100 / 10 <= 9) by (Z.div_mod_to_equations; lia).
  assert (H2 : 0 <= n mod 10 <= 9) by (Z.div_mod_to_equations; lia).
  assert (Hfp : forallb isDigit [digitUnit (n mod 100 / 10); digitUnit (n mod 10)] = true).
  { cbn [forallb]. rewrite !digitUnit_digit by assumption. reflexivity. }
  destruct (parseFloat_decimal (decimal (n / 100)) _ Hne Hd Hfp) as [Hpos Hneg].
  assert (Hval : digitsValue
                   (decimal (n / 100) ++ [digitUnit (n mod 100 / 10); digitUnit (n mod 10)])
                 = n).
  { rewrite digitsValue_two, decimal_value by (assumption || (Z.div_mod_to_equations; lia)).
    Z.div_mod_to_equations. lia. }
  rewrite Hval in Hpos, Hneg. cbn [length] in Hpos, Hneg.
  change (Qpower 10 (- Z.of_nat 2)) with (1 # 100)%Q in Hpos, Hneg.
  destruct (Z.ltb_spec k 0) as [Hk | Hk]; cbn [app].
  - rewrite Hneg. cbn [jneg]. apply fin_eq. rewrite Qred_correct.
    subst n. rewrite Z.abs_neq by lia. rewrite inject_Z_opp. field.
  - rewrite Hpos. cbn [isNaN]. apply fin_eq.
    subst n. rewrite Z.abs_eq by lia. field.
Qed.

End AmountRoundTrip.

Section FormatAmount.

Local Open Scope Z_scope.

Lemma jeq_hundredths k : jeq (fin (inject_Z k / 100)) (ofZ 0) = (k =? 0).
Proof.
  unfold fin, ofZ. cbn [jeq].
  destruct (Z.eqb_spec k 0) as [-> | Hk]; [reflexivity |].
  destruct (Qeq_bool (Qred (inject_Z k / 100)) (inject_Z 0)) eqn:E; [| reflexivity].
  apply Qeq_bool_iff in E. rewrite Qred_correct in E. change (inject_Z 0) with 0%Q in E.
  assert (Hd : (inject_Z k / 100 == inject_Z k * (1 # 100))%Q) by field.
  rewrite Hd in E. assert (Hz : (inject_Z k == inject_Z 0)%Q)
    by (change (inject_Z 0) with 0%Q; lra).
  unfold Qeq, inject_Z in Hz. cbn in Hz. lia.
Qed.

Lemma neg_abs_hundredths k :
  jneg (Math_abs (fin (inject_Z k / 100))) = fin (inject_Z (- Z.abs k) / 100).
Proof.
  unfold fin at 1. cbn [Math_abs]. unfold fin at 1. cbn [jneg]. apply fin_eq.
  rewrite !Qred_correct, inject_Z_opp, <- Qabs_inject_Z.
  assert (H : (Qabs (inject_Z k / 100) == Qabs (inject_Z k) / 100)%Q).
  { assert (Hd : (inject_Z k / 100 == inject_Z k * (1 # 100))%Q) by field.
    rewrite Hd, Qabs_Qmult. change (Qabs (1 # 100)) with (1 # 100)%Q. field. }
  rewrite H. field.
Qed.

(** [formatAmount] on whole rupees and paise. *)
Lemma formatAmount_whole zr zp (isNegative : bool) :
  let k := if isNegative then - Z.abs (zr * 100 + zp) else zr * 100 + zp in
  formatAmount (Some (ofZ zr)) (Some (ofZ zp)) isNegative
  = if k =? 0 then []
    else englishToMarathi (toLocaleString (fin (inject_Z k / 100))).
Proof.
  cbv zeta. unfold formatAmount. autorewrite with whole.
  assert (Hdiv : jdiv (ofZ (zr * 100 + zp)) (ofZ 100)
                 = fin (inject_Z (zr * 100 + zp) / 100)).
  { unfold ofZ at 1. rewrite jdiv_Fin_ofZ by lia. reflexivity. }
  rewrite Hdiv.
  destruct isNegative.
  - rewrite neg_abs_hundredths, jeq_hundredths. reflexivity.
  - rewrite jeq_hundredths. reflexivity.
Qed.

Lemma printed_nonempty k :
  englishToMarathi (toLocaleString (fin (inject_Z k / 100))) <> [].
Proof.
  rewrite englishToMarathi_map, toLocaleString_hundredths.
  intros H. apply map_eq_nil in H. apply app_eq_nil in H as [_ H].
  apply app_eq_nil in H as [_ H]. discriminate.
Qed.

End FormatAmount.



(** ** The totals of the page in the preview *)

Section PreviewTotals.

Local Open Scope js_scope.

Implicit Types (invoiceData : gmap string jsstring).

Lemma parse_formatted_row (zr zp : Z) :
  parseAmountToNumber
    {| amount := Some (formatAmount (Some (ofZ zr)) (Some (ofZ zp)) false);
       rowRs := None; rowPaise := None |}
  = fin (inject_Z (zr * 100 + zp) / 100).
Proof.
  unfold parseAmountToNumber. cbn [amount rowRs rowPaise].
  pose proof (formatAmount_whole zr zp false) as Htext. cbv zeta in Htext.
  destruct (formatAmount (Some (ofZ zr)) (Some (ofZ zp)) false) as [| c r] eqn:Et.
  - destruct (Z.eqb_spec (zr * 100 + zp) 0) as [-> | Hk]; [reflexivity |].
    symmetry in Htext. destruct (printed_nonempty _ Htext).
  - rewrite Htext. destruct (Z.eqb_spec (zr * 100 + zp) 0) as [Hk | Hk];
      [discriminate Htext |].
    apply print_parse.
Qed.

(** The rows handed to the preview for the row [i] of the page. *)
Lemma goodsTable_rows invoiceData :
  goodsTable invoiceData
  = flat_map (fun i =>
      let rowTotal := calculateRowTotal (MarathiPage.plainDigits <$> invoiceData) i in
      match rs rowTotal, paise rowTotal with
      | Some _, Some _ =>
        [ {| amount := Some (formatAmount (rs rowTotal) (paise rowTotal) false);
             rowRs := None; rowPaise := None |} ]
      | _, _ => []
      end) (seq 0 13).
Proof.
  unfold goodsTable. apply flat_map_ext. intros i. cbv zeta.
  rewrite marathi_calculateRowTotal. reflexivity.
Qed.

(** Row by row, the sum of the preview stays the hundredth of the sum of
    the page. *)
Lemma sums_in_step invoiceData (l : list nat) :
  (forall rowIndex, In rowIndex l -> exists q c,
     rowQuantity invoiceData rowIndex = Fin q
     /\ rowPrice invoiceData rowIndex = Fin c /\ (0 <= q * c)%Q) ->
  forall T : Z, (0 <= T)%Z ->
  exists T' : Z, (T <= T')%Z
    /\ fold_left (fun totalPaise i =>
         let rowTotal := calculateRowTotal invoiceData i in
         match rs rowTotal, paise rowTotal with
         | Some r, Some p => totalPaise + ((r * ofZ 100) + p)
         | _, _ => totalPaise
         end) l (ofZ T) = ofZ T'
    /\ fold_left (fun sum row => sum + parseAmountToNumber row)
         (flat_map (fun i =>
            let rowTotal := calculateRowTotal invoiceData i in
            match rs rowTotal, paise rowTotal with
            | Some _, Some _ =>
              [ {| amount := Some (formatAmount (rs rowTotal) (paise rowTotal) false);
                   rowRs := None; rowPaise := None |} ]
            | _, _ => []
            end) l)
         (fin (inject_Z T / 100))
       = fin (inject_Z T' / 100).
Proof.
  intros Hrows. induction l as [| i l IH]; intros T HT.
  - exists T. repeat split. lia.
  - cbn [fold_left flat_map]. rewrite fold_left_app. cbv zeta.
    assert (IH' := IH (fun j Hj => Hrows j (or_intror Hj))). clear IH.
    destruct (Hrows i (or_introl eq_refl)) as (q & c & Hq & Hc & Hqc).
    destruct (calculateRowTotal_whole invoiceData i q c Hq Hc Hqc)
      as [-> | (t & Ht & ->)].
    + cbn [rs paise blank fold_left]. apply IH', HT.
    + cbn [rs paise fold_left].
      rewrite parse_formatted_row, jadd_hundredths.
      autorewrite with whole.
      replace (t / 100 * 100 + t mod 100)%Z with t by (Z.div_mod_to_equations; lia).
      destruct (IH' (T + t)%Z ltac:(lia)) as (T' & HT' & Hpage & Hprev).
      exists T'. split; [lia |]. split; assumption.
Qed.

End PreviewTotals.

(** X18.  The preview shows the total sales that the page computes.  When
    every row of the page has a quantity and a price below 2^53 in magnitude
    whose product is not negative and at most 1e12 paise, so that the
    thirteen amounts add up without a visible rounding error, the total that the preview adds up from the formatted row
    amounts and prints with [formatCurrencyValue] is the text that the page
    formats from its own total sales; when the page has no sales, its total
    being blank, the preview prints 0.00 in Devanagari digits. *)
Theorem preview_shows_total_sales :
  forall invoiceData : gmap string jsstring,
    (forall rowIndex, (rowIndex < 13)%nat -> exists q c,
       rowQuantity (MarathiPage.plainDigits <$> invoiceData) rowIndex = Fin q
       /\ rowPrice (MarathiPage.plainDigits <$> invoiceData) rowIndex = Fin c
       /\ (0 <= q * c)%Q
       /\ (Qabs q < inject_Z (2 ^ 53))%Q /\ (Qabs c < inject_Z (2 ^ 53))%Q
       /\ (q * c * 100 <= inject_Z (10 ^ 12))%Q) ->
    let sales := MarathiPage.calculateTotalSales invoiceData in
    let shown := formatCurrencyValue (goodsTotalAmount (goodsTable invoiceData)) in
    (sales = blank -> shown = u "०.००")
    /\ (sales <> blank -> shown = formatAmount (rs sales) (paise sales) false).
Proof.
  intros invoiceData Hbounded sales shown.
  assert (Hrows : forall rowIndex, (rowIndex < 13)%nat -> exists q c,
            rowQuantity (MarathiPage.plainDigits <$> invoiceData) rowIndex = Fin q
            /\ rowPrice (MarathiPage.plainDigits <$> invoiceData) rowIndex = Fin c
            /\ (0 <= q * c)%Q).
  { intros rowIndex Hlt.
    destruct (Hbounded rowIndex Hlt) as (q & c & Hq & Hc & Hqc & _).
    exists q, c. repeat split; assumption. }
  destruct (sums_in_step (MarathiPage.plainDigits <$> invoiceData) (seq 0 13)
              (fun i Hi => Hrows i (proj2 (proj1 (in_seq 13 0 i) Hi))) 0%Z ltac:(lia))
    as (T & HT & Hpage & Hprev).
  assert (Hsales : sales = if (T =? 0)%Z then blank
                           else {| rs := Some (ofZ (T / 100));
                                   paise := Some (ofZ (T mod 100)) |}).
  { unfold sales. rewrite marathi_calculateTotalSales.
    unfold calculateTotalSales, salesPaiseSum. cbv zeta. cbv zeta in Hpage.
    rewrite Hpage, jeq_ofZ.
    destruct (T =? 0)%Z; [reflexivity |].
    destruct (split_total T HT) as [-> ->]. reflexivity. }
  assert (Hshown : shown = englishToMarathi (toLocaleString (fin (inject_Z T / 100)))).
  { unfold shown, goodsTotalAmount. rewrite goodsTable_rows.
    change (ofZ 0) with (fin (inject_Z 0 / 100)) at 1. cbv zeta. cbv zeta in Hprev.
    rewrite Hprev.
    unfold formatCurrencyValue.
    change (truthy (fin (inject_Z T / 100)))
      with (negb (jeq (fin (inject_Z T / 100)) (ofZ 0))).
    destruct (jeq (fin (inject_Z T / 100)) (ofZ 0)); reflexivity. }
  clearbody sales shown. subst sales shown.
  destruct (Z.eqb_spec T 0) as [-> | HT0].
  - split; [intros _; vm_compute; reflexivity | intros H; destruct H; reflexivity].
  - split; [discriminate |]. intros _. cbn [rs paise].
    pose proof (formatAmount_whole (T / 100) (T mod 100) false) as Hf. cbv zeta in Hf.
    replace (T / 100 * 100 + T mod 100)%Z with T in Hf by (Z.div_mod_to_equations; lia).
    rewrite Hf. destruct (Z.eqb_spec T 0); [contradiction | reflexivity].
Qed.

Lemma preview_shows_total_sales_witness :
  formatCurrencyValue
    (goodsTotalAmount
       (goodsTable {[ "row0_item" := u "३"; "row0_price" := u "१,०१०.५१";
                      "row1_piece" := u "2"; "row1_price" := u "7.25" ]}%string))
  = formatAmount
      (rs (MarathiPage.calculateTotalSales
             {[ "row0_item" := u "३"; "row0_price" := u "१,०१०.५१";
                "row1_piece" := u "2"; "row1_price" := u "7.25" ]}%string))
      (paise (MarathiPage.calculateTotalSales
                {[ "row0_item" := u "३"; "row0_price" := u "१,०१०.५१";
                   "row1_piece" := u "2"; "row1_price" := u "7.25" ]}%string))
      false.
Proof.
  apply preview_shows_total_sales.
  - intros rowIndex Hlt.
    do 13 (destruct rowIndex as [| rowIndex];
           [eexists; eexists; split; [vm_compute; reflexivity |];
            split; [vm_compute; reflexivity |];
            split; [vm_compute; discriminate |];
            split; [vm_compute; reflexivity |];
            split; [vm_compute; reflexivity | vm_compute; discriminate] |]).
    lia.
  - vm_compute. discriminate.
Defined.

Section PreviewExpenses.

Local Open Scope js_scope.

Implicit Types (invoiceData : gmap string jsstring).

Lemma expense_rows_whole invoiceData (name : string) (l : list nat) :
  (forall i, In i l -> exists zr zp : Z,
     (0 <= zr)%Z /\ (0 <= zp)%Z
     /\ MarathiPage.marathiField invoiceData (name +:+ pretty i +:+ "_rs") = ofZ zr
     /\ MarathiPage.marathiField invoiceData (name +:+ pretty i +:+ "_paise") = ofZ zp) ->
  forall T : Z, (0 <= T)%Z ->
  exists T' : Z, (T <= T')%Z
    /\ fold_left (fun totalPaise i =>
         totalPaise
         + (MarathiPage.marathiField invoiceData (name +:+ pretty i +:+ "_rs") * ofZ 100
            + MarathiPage.marathiField invoiceData (name +:+ pretty i +:+ "_paise")))
         l (ofZ T) = ofZ T'.
Proof.
  intros Hrows. induction l as [| i l IH]; intros T HT.
  - exists T. split; [lia | reflexivity].
  - cbn [fold_left].
    destruct (Hrows i (or_introl eq_refl)) as (zr & zp & Hzr & Hzp & -> & ->).
    autorewrite with whole.
    destruct (IH (fun j Hj => Hrows j (or_intror Hj)) (T + (zr * 100 + zp))%Z ltac:(lia))
      as (T' & HT' & Hfold).
    exists T'. split; [lia | exact Hfold].
Qed.

Lemma blank_rows_add_nothing invoiceData (name : string) (l : list nat) :
  (forall i, In i l ->
     MarathiPage.marathiField invoiceData (name +:+ pretty i +:+ "_rs") = ofZ 0
     /\ MarathiPage.marathiField invoiceData (name +:+ pretty i +:+ "_paise") = ofZ 0) ->
  forall T : Z,
    fold_left (fun totalPaise i =>
      totalPaise
      + (MarathiPage.marathiField invoiceData (name +:+ pretty i +:+ "_rs") * ofZ 100
         + MarathiPage.marathiField invoiceData (name +:+ pretty i +:+ "_paise")))
      l (ofZ T) = ofZ T.
Proof.
  intros Hrows. induction l as [| i l IH]; intros T; [reflexivity |].
  cbn [fold_left]. destruct (Hrows i (or_introl eq_refl)) as [-> ->].
  autorewrite with whole. replace (T + (0 * 100 + 0))%Z with T by lia.
  apply IH. intros j Hj. apply Hrows. right. exact Hj.
Qed.

End PreviewExpenses.

(** X19.  The preview adds up the eight named expense rows only; the page
    also adds its five extra rows.  When the named rows hold whole amounts
    that are not negative and at most 1e12, so that their total in paise is
    exact, and the extra rows read as zero, the preview
    prints for the expenses the text that the page formats from its total
    (and 0.00 in Devanagari digits where the page gives the empty text);
    an amount in an extra row is in the total of the page and not in that
    of the preview. *)
Theorem preview_expenses_leave_out_extra_rows :
  (forall invoiceData : gmap string jsstring,
     (forall i, (i < 8)%nat -> exists zr zp : Z,
        (0 <= zr <= 10 ^ 12)%Z /\ (0 <= zp <= 10 ^ 12)%Z
        /\ MarathiPage.marathiField invoiceData ("expense" +:+ pretty i +:+ "_rs")
           = ofZ zr
        /\ MarathiPage.marathiField invoiceData ("expense" +:+ pretty i +:+ "_paise")
           = ofZ zp) ->
     (forall i, (i < 5)%nat ->
        MarathiPage.marathiField invoiceData ("empty" +:+ pretty i +:+ "_rs") = ofZ 0
        /\ MarathiPage.marathiField invoiceData ("empty" +:+ pretty i +:+ "_paise")
           = ofZ 0) ->
     let expenses := MarathiPage.calculateTotalExpenses invoiceData in
     let onPage := formatAmount (rs expenses) (paise expenses) false in
     let shown := formatCurrencyValue (calculateTotalExpensesFromData invoiceData) in
     (onPage = [] -> shown = u "०.००") /\ (onPage <> [] -> shown = onPage))
  /\ (let invoiceData : gmap string jsstring :=
        {[ "expense0_rs" := u "70"; "empty0_rs" := u "5" ]}%string in
      let expenses := MarathiPage.calculateTotalExpenses invoiceData in
      formatAmount (rs expenses) (paise expenses) false = u "७५.००"
      /\ formatCurrencyValue (calculateTotalExpensesFromData invoiceData) = u "७०.००").
Proof.
  split; [| vm_compute; split; reflexivity].
  intros invoiceData Hbounded Hempty expenses onPage shown.
  assert (Hexp : forall i, (i < 8)%nat -> exists zr zp : Z,
            (0 <= zr)%Z /\ (0 <= zp)%Z
            /\ MarathiPage.marathiField invoiceData ("expense" +:+ pretty i +:+ "_rs")
               = ofZ zr
            /\ MarathiPage.marathiField invoiceData ("expense" +:+ pretty i +:+ "_paise")
               = ofZ zp).
  { intros i Hlt. destruct (Hbounded i Hlt) as (zr & zp & Hr & Hp & Er & Ep).
    exists zr, zp. repeat split; assumption || lia. }
  destruct (expense_rows_whole invoiceData "expense" (seq 0 8)
              (fun i Hi => Hexp i (proj2 (proj1 (in_seq 8 0 i) Hi))) 0%Z ltac:(lia))
    as (T & HT & Hfold).
  pose proof (blank_rows_add_nothing invoiceData "empty" (seq 0 5)
                (fun i Hi => Hempty i (proj2 (proj1 (in_seq 5 0 i) Hi))) T) as Hrest.
  assert (Hpage : expenses = {| rs := Some (ofZ (T / 100));
                                paise := Some (ofZ (T mod 100)) |}).
  { unfold expenses, MarathiPage.calculateTotalExpenses. cbv zeta.
    rewrite Hfold, Hrest. destruct (split_total T HT) as [-> ->]. reflexivity. }
  assert (Hshown : shown = englishToMarathi (toLocaleString (fin (inject_Z T / 100)))).
  { unfold shown, calculateTotalExpensesFromData. cbv zeta. rewrite Hfold.
    unfold ofZ at 1. rewrite jdiv_Fin_ofZ by lia. change (inject_Z 100) with 100%Q.
    unfold formatCurrencyValue.
    change (truthy (fin (inject_Z T / 100)))
      with (negb (jeq (fin (inject_Z T / 100)) (ofZ 0))).
    destruct (jeq (fin (inject_Z T / 100)) (ofZ 0)); reflexivity. }
  assert (Hon : onPage = if (T =? 0)%Z then []
                         else englishToMarathi (toLocaleString (fin (inject_Z T / 100)))).
  { unfold onPage. rewrite Hpage. cbn [rs paise].
    pose proof (formatAmount_whole (T / 100) (T mod 100) false) as Hf. cbv zeta in Hf.
    replace (T / 100 * 100 + T mod 100)%Z with T in Hf by (Z.div_mod_to_equations; lia).
    exact Hf. }
  clearbody expenses onPage shown. subst onPage shown.
  destruct (Z.eqb_spec T 0) as [-> | HT0].
  - split; [intros _; vm_compute; reflexivity | intros H; destruct H; reflexivity].
  - split; [intros H; destruct (printed_nonempty T H) | reflexivity].
Qed.

Lemma preview_expenses_leave_out_extra_rows_witness :
  formatCurrencyValue
    (calculateTotalExpensesFromData
       {[ "expense0_rs" := u "७०"; "expense0_paise" := u "50";
          "expense7_rs" := u "1,200" ]}%string)
  = formatAmount
      (rs (MarathiPage.calculateTotalExpenses
             {[ "expense0_rs" := u "७०"; "expense0_paise" := u "50";
                "expense7_rs" := u "1,200" ]}%string))
      (paise (MarathiPage.calculateTotalExpenses
                {[ "expense0_rs" := u "७०"; "expense0_paise" := u "50";
                   "expense7_rs" := u "1,200" ]}%string))
      false.
Proof.
  apply (proj1 preview_expenses_leave_out_extra_rows).
  - intros i Hlt.
    do 8 (destruct i as [| i];
          [eexists; eexists;
           split; [| split; [| split; vm_compute; reflexivity]];
           (split; vm_compute; discriminate) |]).
    lia.
  - intros i Hlt.
    do 5 (destruct i as [| i]; [split; vm_compute; reflexivity |]).
    lia.
  - vm_compute. discriminate.
Defined.

(** ** The cached backend instance *)

Section InstanceCache.

Lemma cache_kept env page b (text : jsstring) :
  aksharamukhaInstance page = Some b ->
  exists out, transliterateToMarathiAsync env page text = Settled (out, page).
Proof.
  intros Hi. unfold transliterateToMarathiAsync.
  destruct text as [| c r]; [eexists; reflexivity |].
  destruct (hasDevanagari (c :: r)); [eexists; reflexivity |].
  destruct (negb (hasWindow env)); [eexists; reflexivity |].
  unfold getAksharamukhaInstance. rewrite Hi. cbv zeta.
  destruct (wholePhrase b _); eexists; reflexivity.
Qed.

Lemma cached_ignores_loader env env' page b (text : jsstring) :
  aksharamukhaInstance page = Some b ->
  hasWindow env = hasWindow env' ->
  transliterateToMarathiAsync env page text
  = transliterateToMarathiAsync env' page text.
Proof.
  intros Hi Hw. unfold transliterateToMarathiAsync, getAksharamukhaInstance.
  rewrite Hw, Hi. reflexivity.
Qed.

Lemma cache_filled env page (text out : jsstring) page' :
  transliterateToMarathiAsync env page text = Settled (out, page') ->
  aksharamukhaInstance page' = aksharamukhaInstance page
  \/ (hasWindow env = true /\ aksharamukhaInstance page = None
      /\ library page' = true
      /\ aksharamukhaInstance page' = newInstance env).
Proof.
  unfold transliterateToMarathiAsync.
  destruct text as [| c r]; [intros [= _ <-]; left; reflexivity |].
  destruct (hasDevanagari (c :: r)); [intros [= _ <-]; left; reflexivity |].
  destruct (hasWindow env) eqn:Hw; cbn [negb]; [| intros [= _ <-]; left; reflexivity].
  unfold getAksharamukhaInstance, loadAksharamukha. rewrite Hw. cbn [negb].
  destruct (aksharamukhaInstance page) as [b |] eqn:Hi.
  { cbv zeta. destruct (wholePhrase b _); intros [= _ <-]; left; exact Hi. }
  cbv zeta.
  destruct (library page) eqn:Hl.
  { destruct (newInstance env) as [b |] eqn:Hn;
      [destruct (wholePhrase b _) |]; intros [= _ <-]; right; cbn;
      repeat split; assumption || reflexivity || (symmetry; assumption). }
  destruct (scriptTag page), (scriptLoads env) eqn:Hs; try discriminate;
    try (intros [= _ <-]; left; reflexivity);
    (destruct (newInstance env) as [b |] eqn:Hn;
     [destruct (wholePhrase b _) |]; intros [= _ <-]; right; cbn;
     repeat split; reflexivity).
Qed.

Lemma failed_load_leaves_script env (text : jsstring) :
  text <> [] -> hasDevanagari text = false ->
  hasWindow env = true -> scriptLoads env = false ->
  transliterateToMarathiAsync env freshPage text
  = Settled (text, {| scriptTag := ScriptDone; library := false;
                      aksharamukhaInstance := None |}).
Proof.
  intros Hne Hdev Hw Hs. unfold transliterateToMarathiAsync.
  destruct text as [| c r] eqn:Et; [congruence |]. rewrite <- Et in *.
  rewrite Hdev, Hw. cbn [negb].
  unfold getAksharamukhaInstance, loadAksharamukha, freshPage.
  cbn [aksharamukhaInstance library scriptTag]. rewrite Hw, Hs. reflexivity.
Qed.

End InstanceCache.

(** X20.  What a call of [transliterateToMarathiAsync] leaves for the next.
    With an instance cached the call settles, leaves the page as it was and
    never looks at what loading the script would give.  A call that settles
    leaves the instance it found or, in a browser with none cached and the
    class at hand, what [new()] gave.  A first load that fails settles with
    the text unchanged and leaves its script element in the page; the next
    call for a text that needs the backend then never settles while the
    global stays unset: the element is found, no second one is added, and
    its events have already fired. *)
Theorem instance_cache_is_kept :
  (forall env page b (text : jsstring),
     aksharamukhaInstance page = Some b ->
     exists out, transliterateToMarathiAsync env page text = Settled (out, page))
  /\ (forall env env' page b (text : jsstring),
      aksharamukhaInstance page = Some b ->
      hasWindow env = hasWindow env' ->
      transliterateToMarathiAsync env page text
      = transliterateToMarathiAsync env' page text)
  /\ (forall env page (text out : jsstring) page',
      transliterateToMarathiAsync env page text = Settled (out, page') ->
      aksharamukhaInstance page' = aksharamukhaInstance page
      \/ (hasWindow env = true /\ aksharamukhaInstance page = None
          /\ library page' = true
          /\ aksharamukhaInstance page' = newInstance env))
  /\ (forall env env' (text text' : jsstring),
      text <> [] -> hasDevanagari text = false ->
      hasWindow env = true -> scriptLoads env = false ->
      text' <> [] -> hasDevanagari text' = false ->
      hasWindow env' = true -> scriptLoads env' = false ->
      exists page',
        transliterateToMarathiAsync env freshPage text = Settled (text, page')
        /\ scriptTag page' = ScriptDone
        /\ transliterateToMarathiAsync env' page' text' = Pending).
Proof.
  split; [exact cache_kept |]. split; [exact cached_ignores_loader |].
  split; [exact cache_filled |].
  intros env env' text text' Hne Hdev Hw Hs Hne' Hdev' Hw' Hs'.
  eexists. split; [apply failed_load_leaves_script; assumption |].
  split; [reflexivity |].
  apply stuck_pending; [repeat split; assumption | assumption | assumption].
Qed.

Lemma instance_cache_is_kept_witness :
  transliterateToMarathiAsync
    {| hasWindow := true; scriptLoads := false; newInstance := None |}
    {| scriptTag := ScriptDone; library := true;
       aksharamukhaInstance := Some {| processAsync := fun _ _ _ => Some (u "पुणे") |} |}
    (u "Pune")
  = transliterateToMarathiAsync
      {| hasWindow := true; scriptLoads := true;
         newInstance := Some {| processAsync := fun _ _ _ => None |} |}
      {| scriptTag := ScriptDone; library := true;
         aksharamukhaInstance := Some {| processAsync := fun _ _ _ => Some (u "पुणे") |} |}
      (u "Pune")
  /\ exists page',
       transliterateToMarathiAsync
         {| hasWindow := true; scriptLoads := false; newInstance := None |}
         freshPage (u "Pune")
       = Settled (u "Pune", page')
       /\ scriptTag page' = ScriptDone
       /\ transliterateToMarathiAsync
            {| hasWindow := true; scriptLoads := false; newInstance := None |}
            page' (u "Shop")
          = Pending.
Proof.
  destruct instance_cache_is_kept as (_ & Hsame & _ & Hfail).
  split.
  - eapply Hsame; reflexivity.
  - apply Hfail; try reflexivity; discriminate.
Defined.

(** ** The total an invoice counts for in the reports *)

Section ReportTotals.

Lemma parseUnsigned_points (t : jsstring) :
  Forall (fun c => c = ch "." \/ c = ch "-") t -> parseUnsigned t = NaN.
Proof.
  intros Ht. unfold parseUnsigned.
  let l := eval vm_compute in (u "Infinity") in change (u "Infinity") with l.
  destruct Ht as [| c r Hc Hr]; [reflexivity |].
  assert (Hhead : forall x (s : jsstring),
            x = ch "." \/ x = ch "-" -> takeDigits (x :: s) = ([], x :: s)).
  { intros x s [-> | ->]; reflexivity. }
  assert (Htail : takeDigits r = ([], r)).
  { destruct Hr as [| d r' Hd _]; [reflexivity | apply Hhead, Hd]. }
  cbn [startsWith]. rewrite (Hhead c r Hc).
  destruct Hc as [-> | ->].
  - change (73 =? ch ".") with false. cbn [andb]. cbv iota.
    change (ch "." =? ch ".") with true. cbv iota. rewrite Htail. reflexivity.
  - change (73 =? ch "-") with false. cbn [andb]. cbv iota.
    change (ch "-" =? ch ".") with false. reflexivity.
Qed.

Lemma parseFloat_points (t : jsstring) :
  Forall (fun c => c = ch "." \/ c = ch "-") t -> parseFloat t = NaN.
Proof.
  intros Ht. unfold parseFloat. destruct Ht as [| c r Hc Hr]; [reflexivity |].
  destruct Hc as [-> | ->].
  - change (trimStart (ch "." :: r)) with (ch "." :: r).
    change (ch "." =? ch "-") with false. change (ch "." =? ch "+") with false.
    cbv iota. apply parseUnsigned_points. constructor; [left; reflexivity | exact Hr].
  - change (trimStart (ch "-" :: r)) with (ch "-" :: r).
    change (ch "-" =? ch "-") with true. cbv iota.
    rewrite (parseUnsigned_points r Hr). reflexivity.
Qed.

Lemma cleaned_points (s : jsstring) :
  existsb isDigit s = false ->
  Forall (fun c => c = ch "." \/ c = ch "-") (List.filter keptInTotal s).
Proof.
  induction s as [| c s IH]; [constructor |].
  cbn [existsb List.filter]. intros H. apply orb_false_iff in H as [Hc Hs].
  unfold keptInTotal at 1. rewrite Hc. cbn [orb].
  destruct (N.eqb_spec c (ch ".")) as [-> | _];
    [constructor; [left; reflexivity | apply IH, Hs] |].
  cbn [orb]. destruct (N.eqb_spec c (ch "-")) as [-> | _];
    [constructor; [right; reflexivity | apply IH, Hs] | apply IH, Hs].
Qed.

Lemma no_digit_total (data : InvoiceTotals) (s : jsstring) :
  grandTotalRs data = Some (VString s) -> existsb isDigit s = false ->
  getGrandTotalFromInvoice data = ofZ 0.
Proof.
  intros Hraw Hs. unfold getGrandTotalFromInvoice. rewrite Hraw. cbv zeta.
  destruct (trim s); [reflexivity |].
  rewrite (parseFloat_points _ (cleaned_points s Hs)). reflexivity.
Qed.

Lemma saved_total netBalance (totalSalesValue netBalanceValue : jsstring) :
  getGrandTotalFromInvoice (savedTotals netBalance totalSalesValue netBalanceValue)
  = default (ofZ 0) (netRs netBalance).
Proof.
  unfold getGrandTotalFromInvoice, savedTotals. cbn [grandTotalRs].
  destruct (netRs netBalance); reflexivity.
Qed.

End ReportTotals.

(** X21.  The total an invoice counts for in the reports is decided by the
    first of [grandTotalRs], [grandTotal], [netAmount] and
    [totalCollection] that is present: when that is a text without an
    ASCII digit (blank, or written in Devanagari digits) the invoice
    counts for 0 whatever the other fields hold.  For the fields that the
    page saves, the total is the rupee component of the net balance, 0 when
    the balance is blank: with whole totals of [s] and [e] paise, below
    2^52 in magnitude so that their difference is exact, it is the whole
    rupees of the difference between them, without its sign and without its
    paise. *)
Theorem report_total_is_rupees_of_balance :
  (forall (data : InvoiceTotals) (s : jsstring),
     grandTotalRs data = Some (VString s) -> existsb isDigit s = false ->
     getGrandTotalFromInvoice data = ofZ 0)
  /\ (forall netBalance (totalSalesValue netBalanceValue : jsstring),
      getGrandTotalFromInvoice (savedTotals netBalance totalSalesValue netBalanceValue)
      = default (ofZ 0) (netRs netBalance))
  /\ (forall (sRs sPaise : number) (totalExpenses : MonetaryAmount) (s e : Z)
        (totalSalesValue netBalanceValue : jsstring),
      (Z.abs s < 2 ^ 52)%Z -> (Z.abs e < 2 ^ 52)%Z ->
      inPaise {| rs := Some sRs; paise := Some sPaise |} = ofZ s ->
      inPaise totalExpenses = ofZ e ->
      getGrandTotalFromInvoice
        (savedTotals (netBalanceOf {| rs := Some sRs; paise := Some sPaise |} totalExpenses)
           totalSalesValue netBalanceValue)
      = ofZ (Z.abs (s - e) / 100))
  /\ getGrandTotalFromInvoice
       {| grandTotalRs := Some (VString (u "१,२००")); grandTotal := None;
          netAmount := None; totalCollection := Some (VNumber (ofZ 1200)) |}
     = ofZ 0.
Proof.
  split; [exact no_digit_total |]. split; [exact saved_total |].
  split; [| vm_compute; reflexivity].
  intros sRs sPaise totalExpenses s e tsv nbv _ _ Hs He.
  rewrite saved_total, (netBalanceOf_whole sRs sPaise totalExpenses s e Hs He).
  reflexivity.
Qed.

Lemma report_total_is_rupees_of_balance_witness :
  getGrandTotalFromInvoice
    (savedTotals
       (netBalanceOf {| rs := Some (ofZ 50); paise := Some (ofZ 0) |}
                     {| rs := Some (ofZ 70); paise := Some (ofZ 50) |})
       (u "50.00") (u "20.50"))
  = ofZ (Z.abs (5000 - 7050) / 100)
  /\ getGrandTotalFromInvoice
       {| grandTotalRs := Some (VString (u "  ")); grandTotal := Some (VNumber (ofZ 20));
          netAmount := None; totalCollection := None |}
     = ofZ 0.
Proof.
  destruct report_total_is_rupees_of_balance as (Hblank & _ & Hsaved & _).
  split.
  - apply Hsaved; try lia; vm_compute; reflexivity.
  - apply (Hblank _ (u "  ")); reflexivity.
Defined.

(** ** Typing an expense amount *)

Section TypedAmount.

Local Open Scope Z_scope.

Lemma marathi_digit_index c :
  isMarathiDigit c = true ->
  decimal (indexOf (u "०१२३४५६७८९") c 0) = [toLatinUnit c]
  /\ 0 <= indexOf (u "०१२३४५६७८९") c 0 < 2 ^ 53.
Proof.
  unfold isMarathiDigit. intros H.
  apply andb_true_iff in H as [H1%N.leb_le H2%N.leb_le].
  assert (Hc : (c = 0x0966 \/ c = 0x0967 \/ c = 0x0968 \/ c = 0x0969 \/ c = 0x096A
                \/ c = 0x096B \/ c = 0x096C \/ c = 0x096D \/ c = 0x096E \/ c = 0x096F)%N)
    by lia.
  repeat (destruct Hc as [-> | Hc]; [split; [vm_compute; reflexivity |];
                                      vm_compute; split; discriminate || reflexivity |]).
  subst c. split; [vm_compute; reflexivity |]. vm_compute. split; discriminate || reflexivity.
Qed.

Lemma takeDigits_fst (s : jsstring) : forallb isDigit (fst (takeDigits s)) = true.
Proof.
  induction s as [| c s IH]; [reflexivity |]. cbn [takeDigits].
  destruct (isDigit c) eqn:E; [| reflexivity].
  destruct (takeDigits s) as [d r]. cbn [fst forallb] in *. rewrite E, IH. reflexivity.
Qed.

Lemma digitsValue_nonneg (ds : jsstring) : forallb isDigit ds = true -> 0 <= digitsValue ds.
Proof.
  unfold digitsValue.
  assert (H : forall acc, 0 <= acc -> forallb isDigit ds = true ->
            0 <= fold_left (fun a c => a * 10 + (Z.of_N c - 48)) ds acc).
  { induction ds as [| c ds IH]; intros acc Hacc Hd; [exact Hacc |].
    cbn [forallb] in Hd. apply andb_true_iff in Hd as [Hc Hds].
    cbn [fold_left]. apply IH; [| exact Hds].
    unfold isDigit in Hc. apply andb_true_iff in Hc as [H1%N.leb_le _]. lia. }
  apply H. lia.
Qed.

(** A literal without a sign is not read as a negative number. *)
Lemma parseUnsigned_nonneg (s : jsstring) q : parseUnsigned s = Fin q -> (0 <= q)%Q.
Proof.
  unfold parseUnsigned. destruct (startsWith (u "Infinity") s); [discriminate |].
  pose proof (takeDigits_fst s) as Hip. destruct (takeDigits s) as [ip r1].
  assert (Hfp : forallb isDigit
                  (fst match r1 with
                       | c :: r => if (c =? ch ".")%N then takeDigits r else ([], r1)
                       | [] => ([], r1)
                       end) = true).
  { destruct r1 as [| c r]; [reflexivity |].
    destruct (c =? ch ".")%N; [apply takeDigits_fst | reflexivity]. }
  destruct (match r1 with
            | c :: r => if (c =? ch ".")%N then takeDigits r else ([], r1)
            | [] => ([], r1)
            end) as [fp r2].
  cbn [fst] in Hip, Hfp.
  assert (Hv : 0 <= digitsValue (ip ++ fp))
    by (apply digitsValue_nonneg; rewrite forallb_app, Hip, Hfp; reflexivity).
  destruct (ip ++ fp) as [| d ds] eqn:E; [discriminate |].
  unfold fin. intros [= <-]. rewrite Qred_correct.
  apply Qmult_le_0_compat; [apply inject_Z_nonneg, Hv |].
  apply Qpower_0_le. discriminate.
Qed.

Lemma parseFloat_unsigned (t : jsstring) q :
  Forall (fun c => isDigit c = true \/ c = ch ".") t ->
  parseFloat t = Fin q -> (0 <= q)%Q.
Proof.
  intros Ht. unfold parseFloat. destruct Ht as [| c r Hc Hr]; [discriminate |].
  assert (Hs : isSpace c = false)
    by (destruct Hc as [Hc | ->]; [apply digit_not_space, Hc | reflexivity]).
  cbn [trimStart]. rewrite Hs.
  assert (Hm : (c =? ch "-")%N = false).
  { destruct Hc as [Hc | ->]; [| reflexivity].
    apply (digit_not_unit c (ch "-") Hc). left. reflexivity. }
  assert (Hp : (c =? ch "+")%N = false).
  { destruct Hc as [Hc | ->]; [| reflexivity].
    apply (digit_not_unit c (ch "+") Hc). left. reflexivity. }
  rewrite Hm, Hp. apply parseUnsigned_nonneg.
Qed.

Lemma filtered_digits_points (s : jsstring) :
  Forall (fun c => isDigit c = true \/ c = ch ".")
         (List.filter (fun c => isDigit c || (c =? ch ".")%N) s).
Proof.
  induction s as [| c s IH]; [constructor |]. cbn [List.filter].
  destruct (isDigit c) eqn:Hd; cbn [orb]; [constructor; [left; exact Hd | exact IH] |].
  destruct (N.eqb_spec c (ch ".")) as [-> | _]; [| exact IH].
  constructor; [right; reflexivity | exact IH].
Qed.

(** The paise of the split, by value. *)
Lemma paise_by_value q :
  paiseOf (Fin q) = ofZ (Qfloor (q * 100 + (1 # 2)) - 100 * Qfloor q).
Proof.
  unfold paiseOf, rupeesOf.
  change (jmul (jsub (Fin q) (Math_floor (Fin q))) (ofZ 100))
    with (fin (Qred (q + Qred (- inject_Z (Qfloor q))) * inject_Z 100)).
  rewrite Math_round_fin. f_equal.
  replace (Qfloor (q * 100 + (1 # 2)) - 100 * Qfloor q)
    with (Qfloor (q * 100 + (1 # 2)) + - (100 * Qfloor q)) by lia.
  rewrite <- Qfloor_add_Z. apply Qfloor_comp.
  rewrite !Qred_correct, inject_Z_opp, inject_Z_mult.
  change (inject_Z 100) with 100%Q. ring.
Qed.

Lemma round_hundredfold q :
  Math_round (jmul (Fin q) (ofZ 100)) = ofZ (Qfloor (q * 100 + (1 # 2))).
Proof.
  change (jmul (Fin q) (ofZ 100)) with (fin (q * inject_Z 100)).
  rewrite Math_round_fin. reflexivity.
Qed.

(** Decimal digits read back as the number. *)
Lemma parse_decimal n : 0 <= n -> parseMarathiNumber (decimal n) = ofZ n.
Proof.
  intros Hn. destruct (decimal_digits n Hn) as [Hd Hne].
  rewrite parseMarathiNumber_pipeline. cbv zeta.
  rewrite ascii_plain
    by (intros c Hc; apply digit_small; rewrite forallb_forall in Hd; apply Hd, Hc).
  rewrite (stripCommas_digits _ Hd).
  assert (Hparse : parseFloat (decimal n) = ofZ n).
  { destruct (decimal n) as [| c ds] eqn:E; [congruence |]. rewrite <- E in *.
    assert (Hc : isDigit c = true).
    { rewrite E in Hd. cbn [forallb] in Hd. apply andb_true_iff in Hd. tauto. }
    unfold parseFloat. rewrite E at 1. cbn [trimStart]. rewrite (digit_not_space c Hc).
    rewrite (proj1 (digit_not_unit c (ch "-") Hc ltac:(left; reflexivity))).
    rewrite (proj1 (digit_not_unit c (ch "+") Hc ltac:(left; reflexivity))).
    rewrite <- E. unfold parseUnsigned.
    assert (Hinf : startsWith (u "Infinity") (decimal n) = false).
    { rewrite E.
      let l := eval vm_compute in (u "Infinity") in change (u "Infinity") with l.
      cbn [startsWith].
      rewrite (proj2 (digit_not_unit c 73%N Hc ltac:(right; reflexivity))). reflexivity. }
    rewrite Hinf. rewrite <- (app_nil_r (decimal n)) at 1.
    rewrite (takeDigits_digits (decimal n) [] Hd I). rewrite app_nil_r.
    rewrite E at 1. rewrite <- E. cbn [parseExponent length].
    rewrite decimal_value by exact Hn.
    apply fin_ofZ. change (Qpower 10 (0 - Z.of_nat 0)) with 1%Q. ring. }
  rewrite Hparse. reflexivity.
Qed.

End TypedAmount.

Section TypedAmountSplit.

Variable Number_toString : number -> jsstring.
Hypothesis Hprints : printsWhole Number_toString.

Lemma englishStr_marathiToEnglish (amountStr : jsstring) :
  concat (map (fun char =>
                 if isMarathiDigit char
                 then Number_toString (ofZ (indexOf (u "०१२३४५६७८९") char 0))
                 else [char]) amountStr)
  = marathiToEnglish amountStr.
Proof.
  rewrite marathiToEnglish_map. induction amountStr as [| c s IH]; [reflexivity |].
  cbn [map concat]. rewrite IH.
  destruct (isMarathiDigit c) eqn:E.
  - destruct (marathi_digit_index c E) as [Hd Hr]. rewrite (Hprints _ Hr), Hd.
    reflexivity.
  - rewrite (toLatinUnit_id c E). reflexivity.
Qed.

Lemma parseFloat_cleaned (s : jsstring) :
  parseFloat (List.filter (fun c => isDigit c || (c =? ch ".")) s) = NaN
  \/ exists q, (0 <= q)%Q
       /\ parseFloat (List.filter (fun c => isDigit c || (c =? ch ".")) s) = Fin q.
Proof.
  pose proof (filtered_digits_points s) as Ht.
  set (t := List.filter (fun c => isDigit c || (c =? ch ".")) s) in *. clearbody t.
  destruct (parseFloat t) as [| | | q] eqn:E.
  - left. reflexivity.
  - exfalso. revert E. unfold parseFloat. destruct Ht as [| c r Hc Hr]; [discriminate |].
    assert (Hs : isSpace c = false)
      by (destruct Hc as [Hc | ->]; [apply digit_not_space, Hc | reflexivity]).
    cbn [trimStart]. rewrite Hs.
    assert (Hm : (c =? ch "-") = false).
    { destruct Hc as [Hc | ->]; [| reflexivity].
      apply (digit_not_unit c (ch "-") Hc). left. reflexivity. }
    assert (Hp : (c =? ch "+") = false).
    { destruct Hc as [Hc | ->]; [| reflexivity].
      apply (digit_not_unit c (ch "+") Hc). left. reflexivity. }
    rewrite Hm, Hp. unfold parseUnsigned.
    assert (Hinf : startsWith (u "Infinity") (c :: r) = false).
    { let l := eval vm_compute in (u "Infinity") in change (u "Infinity") with l.
      cbn [startsWith]. destruct Hc as [Hc | ->]; [| reflexivity].
      rewrite (proj2 (digit_not_unit c 73 Hc ltac:(right; reflexivity))). reflexivity. }
    rewrite Hinf. destruct (takeDigits (c :: r)) as [ip r1].
    destruct (match r1 with
              | c0 :: r0 => if c0 =? ch "." then takeDigits r0 else ([], r1)
              | [] => ([], r1)
              end) as [fp r2].
    destruct (ip ++ fp); discriminate.
  - exfalso. revert E. unfold parseFloat. destruct Ht as [| c r Hc Hr]; [discriminate |].
    assert (Hs : isSpace c = false)
      by (destruct Hc as [Hc | ->]; [apply digit_not_space, Hc | reflexivity]).
    cbn [trimStart]. rewrite Hs.
    assert (Hm : (c =? ch "-") = false).
    { destruct Hc as [Hc | ->]; [| reflexivity].
      apply (digit_not_unit c (ch "-") Hc). left. reflexivity. }
    assert (Hp : (c =? ch "+") = false).
    { destruct Hc as [Hc | ->]; [| reflexivity].
      apply (digit_not_unit c (ch "+") Hc). left. reflexivity. }
    rewrite Hm, Hp. unfold parseUnsigned.
    destruct (startsWith (u "Infinity") (c :: r)); [discriminate |].
    destruct (takeDigits (c :: r)) as [ip r1].
    destruct (match r1 with
              | c0 :: r0 => if c0 =? ch "." then takeDigits r0 else ([], r1)
              | [] => ([], r1)
              end) as [fp r2].
    destruct (ip ++ fp); discriminate.
  - right. exists q. split; [| reflexivity]. apply (parseFloat_unsigned t q Ht E).
Qed.

Lemma ofZ_inj (x y : Z) : ofZ x = ofZ y -> x = y.
Proof. unfold ofZ, inject_Z. intros [= H]. exact H. Qed.

Lemma parseDecimalAmount_value (amountStr : jsstring) q :
  trim amountStr <> [] ->
  parseFloat (List.filter (fun c => isDigit c || (c =? ch "."))
                (marathiToEnglish amountStr)) = Fin q ->
  parseDecimalAmount Number_toString amountStr
  = (Number_toString (ofZ (Qfloor q)),
     Number_toString (ofZ (Qfloor (q * 100 + (1 # 2)) - 100 * Qfloor q))).
Proof.
  intros Hne Hq. unfold parseDecimalAmount.
  destruct (trim amountStr); [congruence |].
  cbv zeta. rewrite englishStr_marathiToEnglish, Hq. cbn [isNaN].
  change (Math_round (jmul (jsub (Fin q) (Math_floor (Fin q))) (ofZ 100)))
    with (paiseOf (Fin q)).
  rewrite paise_by_value. reflexivity.
Qed.

Lemma parseDecimalAmount_split (amountStr : jsstring) :
  parseDecimalAmount Number_toString amountStr = ([], [])
  \/ exists q : Q,
       (0 <= q)%Q
       /\ parseFloat (List.filter (fun c => isDigit c || (c =? ch "."))
                        (marathiToEnglish amountStr)) = Fin q
       /\ parseDecimalAmount Number_toString amountStr
          = (Number_toString (ofZ (Qfloor q)),
             Number_toString (ofZ (Qfloor (q * 100 + (1 # 2)) - 100 * Qfloor q))).
Proof.
  unfold parseDecimalAmount. destruct (trim amountStr); [left; reflexivity |].
  cbv zeta. rewrite englishStr_marathiToEnglish.
  destruct (parseFloat_cleaned (marathiToEnglish amountStr)) as [-> | (q & Hq & ->)];
    [left; reflexivity | right].
  exists q. split; [exact Hq |]. split; [reflexivity |].
  cbn [isNaN].
  change (Math_round (jmul (jsub (Fin q) (Math_floor (Fin q))) (ofZ 100)))
    with (paiseOf (Fin q)).
  rewrite paise_by_value. reflexivity.
Qed.

End TypedAmountSplit.

(** X22.  What typing an expense amount stores.  [parseDecimalAmount] maps
    Devanagari digits to ASCII, drops every unit that is not a digit or a
    point (a minus sign and commas among them) and reads the rest as a
    decimal number; it stores nothing when that fails, and otherwise, for a
    text of at most 300 units (whose digits cannot overflow), the whole
    rupees and the paise, both not negative and the paise from 0 to 100.
    For an amount of up to 1e9 the two add up to the amount within
    half a paise (and 1e-4 of a paise for the rounding of the amount).
    Given that [toString] writes whole numbers below 2^53 as their decimal
    digits, the two texts read back with [parseMarathiNumber] as these
    numbers when the rupees are below 2^53; typing -1,234.5 in Devanagari
    digits stores 1234 and 50, typing 0.999 stores 0 and 100. *)
Theorem typed_amount_is_stored_in_paise :
  (forall (Number_toString : number -> jsstring) (amountStr : jsstring),
     printsWhole Number_toString ->
     (length amountStr <= 300)%nat ->
     parseDecimalAmount Number_toString amountStr = ([], [])
     \/ exists (q : Q) (r p : Z),
          parseFloat (List.filter (fun c => isDigit c || (c =? ch "."))
                        (marathiToEnglish amountStr)) = Fin q
          /\ (0 <= q)%Q /\ (0 <= r)%Z /\ (0 <= p <= 100)%Z
          /\ parseDecimalAmount Number_toString amountStr
             = (Number_toString (ofZ r), Number_toString (ofZ p))
          /\ ((q <= inject_Z (10 ^ 9))%Q ->
              (Qabs (inject_Z (100 * r + p) - q * 100) <= (1 # 2) + (1 # 10000))%Q)
          /\ ((r < 2 ^ 53)%Z ->
              parseMarathiNumber (Number_toString (ofZ r)) = ofZ r
              /\ parseMarathiNumber (Number_toString (ofZ p)) = ofZ p))
  /\ (forall Number_toString : number -> jsstring,
      printsWhole Number_toString ->
      parseDecimalAmount Number_toString (u "-१,२३४.५") = (u "1234", u "50")
      /\ parseDecimalAmount Number_toString (u "0.999") = (u "0", u "100")
      /\ parseDecimalAmount Number_toString (u "Rs.") = ([], [])).
Proof.
  split.
  { intros Number_toString amountStr Hprints _.
    destruct (parseDecimalAmount_split Number_toString Hprints amountStr)
      as [H | (q & Hq & Hamount & Hsplit)]; [left; exact H | right].
    destruct (paiseOf_range q Hq) as (p & Hp & Hrange & _).
    rewrite paise_by_value in Hp. apply ofZ_inj in Hp.
    assert (Hr : (0 <= Qfloor q)%Z).
    { change 0%Z with (Qfloor (inject_Z 0)). apply Qfloor_resp_le. exact Hq. }
    exists q, (Qfloor q), p. split; [exact Hamount |]. split; [exact Hq |].
    split; [exact Hr |]. split; [exact Hrange |].
    split; [rewrite Hsplit, Hp; reflexivity |].
    split.
    { intros _.
      replace (100 * Qfloor q + p)%Z with (Qfloor (q * 100 + (1 # 2))) by lia.
      pose proof (Qfloor_le (q * 100 + (1 # 2))) as H1.
      pose proof (Qlt_floor (q * 100 + (1 # 2))) as H2.
      rewrite inject_Z_plus in H2. change (inject_Z 1) with 1%Q in H2.
      apply Qabs_Qle_condition. split; lra. }
    intros Hsmall.
    rewrite !Hprints by (split; lia || (try (transitivity 101%Z; [lia | reflexivity]))).
    split; apply parse_decimal; lia. }
  intros Number_toString Hprints.
  split.
  { rewrite (parseDecimalAmount_value Number_toString Hprints _ (2469 # 2))
      by (vm_compute; discriminate || reflexivity).
    rewrite !Hprints by (vm_compute; split; discriminate || reflexivity).
    vm_compute. reflexivity. }
  split.
  { rewrite (parseDecimalAmount_value Number_toString Hprints _ (999 # 1000))
      by (vm_compute; discriminate || reflexivity).
    rewrite !Hprints by (vm_compute; split; discriminate || reflexivity).
    vm_compute. reflexivity. }
  vm_compute. reflexivity.
Qed.

Lemma typed_amount_is_stored_in_paise_witness :
  (parseDecimalAmount
     (fun x : number => match x with Fin q => decimal (Qfloor q) | _ => u "NaN" end)
     (u "१२.५") = ([], [])
   \/ exists (q : Q) (r p : Z),
        parseFloat (List.filter (fun c => isDigit c || (c =? ch "."))
                      (marathiToEnglish (u "१२.५"))) = Fin q
        /\ (0 <= q)%Q /\ (0 <= r)%Z /\ (0 <= p <= 100)%Z
        /\ parseDecimalAmount
             (fun x : number =>
                match x with Fin q => decimal (Qfloor q) | _ => u "NaN" end)
             (u "१२.५")
           = ((fun x : number =>
                 match x with Fin q => decimal (Qfloor q) | _ => u "NaN" end) (ofZ r),
              (fun x : number =>
                 match x with Fin q => decimal (Qfloor q) | _ => u "NaN" end) (ofZ p))
        /\ ((q <= inject_Z (10 ^ 9))%Q ->
            (Qabs (inject_Z (100 * r + p) - q * 100) <= (1 # 2) + (1 # 10000))%Q)
        /\ ((r < 2 ^ 53)%Z ->
            parseMarathiNumber
              ((fun x : number =>
                  match x with Fin q => decimal (Qfloor q) | _ => u "NaN" end) (ofZ r))
            = ofZ r
            /\ parseMarathiNumber
                 ((fun x : number =>
                     match x with Fin q => decimal (Qfloor q) | _ => u "NaN" end) (ofZ p))
               = ofZ p))
  /\ parseDecimalAmount
       (fun x : number => match x with Fin q => decimal (Qfloor q) | _ => u "NaN" end)
       (u "-१,२३४.५") = (u "1234", u "50").
Proof.
  destruct typed_amount_is_stored_in_paise as (Hany & Hshown).
  split.
  - apply Hany.
    + intros n Hn. cbn beta iota. unfold ofZ. rewrite Qfloor_Z. reflexivity.
    + vm_compute. lia.
  - apply Hshown.
    intros n Hn. cbn beta iota. unfold ofZ. rewrite Qfloor_Z. reflexivity.
Defined.

(** ** Amounts with two decimals as text *)

Section FixedText.

Variable Number_toString : number -> jsstring.

Local Open Scope Z_scope.

Lemma plain_two_decimals (neg : bool) (ds : jsstring) d1 d2 :
  forallb isDigit ds = true -> 0 <= d1 <= 9 -> 0 <= d2 <= 9 ->
  MarathiPage.plainDigits
    ((if neg then [ch "-"] else []) ++ ds ++ ch "." :: [digitUnit d1; digitUnit d2])
  = (if neg then [ch "-"] else []) ++ ds ++ ch "." :: [digitUnit d1; digitUnit d2].
Proof.
  intros Hd H1 H2.
  pose proof (digitUnit_digit d1 H1) as Hd1. pose proof (digitUnit_digit d2 H2) as Hd2.
  unfold MarathiPage.plainDigits. rewrite ascii_plain.
  - rewrite !stripCommas_app, (stripCommas_digits _ Hd).
    f_equal; [destruct neg; reflexivity |]. f_equal.
    unfold stripCommas. cbn [List.filter].
    rewrite (digit_not_comma _ Hd1), (digit_not_comma _ Hd2). reflexivity.
  - intros c Hin. apply in_app_iff in Hin as [Hin | Hin].
    { destruct neg; [| destruct Hin]. destruct Hin as [<- | []]. reflexivity. }
    apply in_app_iff in Hin as [Hin | Hin].
    { apply digit_small. rewrite forallb_forall in Hd. apply Hd, Hin. }
    destruct Hin as [<- | [<- | [<- | []]]];
      [reflexivity | apply digit_small, Hd1 | apply digit_small, Hd2].
Qed.

(** A sign, the digits of [n / 100], a point and the two digits of
    [n mod 100] read back as the hundredth of [n] with that sign. *)
Lemma parse_two_decimals (neg : bool) n :
  0 <= n ->
  parseMarathiNumber
    ((if neg then [ch "-"] else [])
     ++ decimal (n / 100)
     ++ ch "." :: [digitUnit (n mod 100 / 10); digitUnit (n mod 10)])
  = if neg then fin (- (inject_Z n / 100)) else fin (inject_Z n / 100).
Proof.
  intros Hn.
  destruct (decimal_digits (n / 100) ltac:(Z.div_mod_to_equations; lia)) as [Hd Hne].
  assert (H1 : 0 <= n mod 100 / 10 <= 9) by (Z.div_mod_to_equations; lia).
  assert (H2 : 0 <= n mod 10 <= 9) by (Z.div_mod_to_equations; lia).
  rewrite parseMarathiNumber_pipeline. cbv zeta.
  fold (MarathiPage.plainDigits
          ((if neg then [ch "-"] else [])
           ++ decimal (n / 100)
           ++ ch "." :: [digitUnit (n mod 100 / 10); digitUnit (n mod 10)])).
  rewrite (plain_two_decimals neg _ _ _ Hd H1 H2).
  assert (Hfp : forallb isDigit [digitUnit (n mod 100 / 10); digitUnit (n mod 10)] = true).
  { cbn [forallb]. rewrite !digitUnit_digit by assumption. reflexivity. }
  destruct (parseFloat_decimal (decimal (n / 100)) _ Hne Hd Hfp) as [Hpos Hneg].
  assert (Hval : digitsValue
                   (decimal (n / 100) ++ [digitUnit (n mod 100 / 10); digitUnit (n mod 10)])
                 = n).
  { rewrite digitsValue_two, decimal_value by (assumption || (Z.div_mod_to_equations; lia)).
    Z.div_mod_to_equations. lia. }
  rewrite Hval in Hpos, Hneg. cbn [length] in Hpos, Hneg.
  change (Qpower 10 (- Z.of_nat 2)) with (1 # 100)%Q in Hpos, Hneg.
  destruct neg; cbn [app].
  - rewrite Hneg. cbn [jneg isNaN]. apply fin_eq. rewrite Qred_correct. field.
  - rewrite Hpos. cbn [isNaN]. apply fin_eq. field.
Qed.

Lemma parse_toFixedText q :
  (Qabs q < inject_Z (10 ^ 21))%Q ->
  parseMarathiNumber (toFixedText Number_toString (Fin q)) = toFixed2 (Fin q).
Proof.
  intros Hsmall. unfold toFixedText, toFixed2.
  destruct (Qle_bool (inject_Z (10 ^ 21)) (Qabs q)) eqn:Ebig.
  { apply Qle_bool_iff in Ebig. lra. }
  cbv zeta. set (n := Qfloor (Qabs q * 100 + (1 # 2))).
  assert (Hn : 0 <= n).
  { change 0 with (Qfloor (inject_Z 0)). apply Qfloor_resp_le.
    change (inject_Z 0) with 0%Q. pose proof (Qabs_nonneg q). lra. }
  unfold Qltb.
  change (u "." ++ [digitUnit (n mod 100 / 10); digitUnit (n mod 10)])
    with (ch "." :: [digitUnit (n mod 100 / 10); digitUnit (n mod 10)]).
  destruct (Qle_bool 0 q); cbn [negb].
  - apply (parse_two_decimals false n Hn).
  - apply (parse_two_decimals true n Hn).
Qed.

Lemma toFixed2_zero q : Qeq_bool q 0 = true -> toFixed2 (Fin q) = ofZ 0.
Proof.
  intros Hz. apply Qeq_bool_iff in Hz. unfold toFixed2.
  destruct (Qle_bool (inject_Z (10 ^ 21)) (Qabs q)) eqn:Ebig.
  { apply Qle_bool_iff in Ebig. rewrite Hz in Ebig. vm_compute in Ebig.
    destruct Ebig. reflexivity. }
  assert (Hn : Qfloor (Qabs q * 100 + (1 # 2)) = 0).
  { apply Qfloor_unique; rewrite Hz; vm_compute; [discriminate | reflexivity]. }
  rewrite Hn. destruct (Qle_bool 0 q); reflexivity.
Qed.

Lemma toFixedText_hundredths k :
  0 <= k < 10 ^ 23 ->
  toFixedText Number_toString (fin (inject_Z k / 100))
  = decimal (k / 100) ++ ch "." :: [digitUnit (k mod 100 / 10); digitUnit (k mod 10)].
Proof.
  intros Hk. unfold fin, toFixedText.
  destruct (Qle_bool (inject_Z (10 ^ 21)) (Qabs (Qred (inject_Z k / 100)))) eqn:Ebig.
  { exfalso. apply Qle_bool_iff in Ebig. rewrite Qred_correct in Ebig.
    rewrite Qabs_pos in Ebig.
    - assert (Hd : (inject_Z k / 100 == inject_Z k * (1 # 100))%Q) by field.
      rewrite Hd in Ebig.
      assert (Hlt : (inject_Z k < inject_Z (10 ^ 23))%Q) by (rewrite <- Zlt_Qlt; lia).
      change (inject_Z (10 ^ 23)) with (inject_Z (10 ^ 21) * 100)%Q in Hlt.
      lra.
    - assert (Hd : (inject_Z k / 100 == inject_Z k * (1 # 100))%Q) by field.
      rewrite Hd. pose proof (inject_Z_nonneg k ltac:(lia)). lra. }
  cbv zeta. rewrite Qfloor_hundredths, Qltb_hundredths.
  destruct (Z.ltb_spec k 0); [lia |]. rewrite Z.abs_eq by lia. reflexivity.
Qed.

End FixedText.

(** X23.  What the formatters of utils/marathiDigits print,
    [parseMarathiNumber] reads back.  For a finite value below 1e21 in
    magnitude the text of [formatMarathiNumber], and of
    [formatMarathiCurrency], reads back as the value rounded to two
    decimals; and given that [toString] writes whole numbers from 0 up to
    2^53 as their decimal digits, the text of [numberToMarathi] for such a
    number reads back as the number. *)
Theorem marathi_formatters_read_back :
  (forall (Number_toString : number -> jsstring) (q : Q),
     (Qabs q < inject_Z (10 ^ 21))%Q ->
     parseMarathiNumber (formatMarathiNumber Number_toString (Some (Fin q)))
     = toFixed2 (Fin q)
     /\ parseMarathiNumber (formatMarathiCurrency Number_toString (Some (Fin q)))
        = toFixed2 (Fin q))
  /\ (forall (Number_toString : number -> jsstring) (n : Z),
      printsWhole Number_toString -> (0 <= n < 2 ^ 53)%Z ->
      parseMarathiNumber (numberToMarathi Number_toString (Some (ofZ n))) = ofZ n)
  /\ (forall Number_toString : number -> jsstring,
      formatMarathiCurrency Number_toString (Some (Fin (255 # 2))) = u "१२७.५०"
      /\ formatMarathiCurrency Number_toString (Some (ofZ 0)) = []
      /\ formatMarathiNumber Number_toString (Some (Fin (-1 # 1000))) = u "-०.००").
Proof.
  split.
  { intros Number_toString q Hsmall.
    assert (H : parseMarathiNumber (formatMarathiNumber Number_toString (Some (Fin q)))
                = toFixed2 (Fin q)).
    { unfold formatMarathiNumber.
      rewrite parseMarathiNumber_pipeline, marathiToEnglish_englishToMarathi,
        <- parseMarathiNumber_pipeline.
      apply parse_toFixedText, Hsmall. }
    split; [exact H |]. unfold formatMarathiCurrency.
    change (jeq (Fin q) (ofZ 0)) with (Qeq_bool q 0).
    destruct (Qeq_bool q 0) eqn:Ez; [| exact H].
    symmetry. apply toFixed2_zero, Ez. }
  split.
  { intros Number_toString n Hprints Hn. unfold numberToMarathi.
    rewrite (Hprints n Hn).
    rewrite parseMarathiNumber_pipeline, marathiToEnglish_englishToMarathi,
      <- parseMarathiNumber_pipeline.
    apply parse_decimal. lia. }
  intros Number_toString. repeat split; vm_compute; reflexivity.
Qed.

Lemma marathi_formatters_read_back_witness :
  parseMarathiNumber (formatMarathiCurrency (fun _ => []) (Some (Fin (1234567 # 1000))))
  = toFixed2 (Fin (1234567 # 1000))
  /\ parseMarathiNumber
       (numberToMarathi
          (fun x : number => match x with Fin q => decimal (Qfloor q) | _ => u "NaN" end)
          (Some (ofZ 127)))
     = ofZ 127.
Proof.
  destruct marathi_formatters_read_back as (Hfix & Hwhole & _).
  split.
  - apply Hfix. vm_compute. reflexivity.
  - apply Hwhole.
    + intros n Hn. cbn beta iota. unfold ofZ. rewrite Qfloor_Z. reflexivity.
    + vm_compute. split; discriminate || reflexivity.
Defined.

(** X24.  The amount shown again for stored rupees and paise.  For whole
    rupees [r] and paise [p] that are not negative and at most 1e12 each,
    so that their sum has an error far below half a paise, stored as their
    decimal digits, [combineAmount] gives the empty text when both are zero and
    otherwise the digits of the whole rupees of [100 r + p] paise, a point
    and two decimals, without sign or grouping; the text reads back as that
    amount, so paise of 100 or more are carried into the rupees. *)
Theorem combined_amount_carries_paise :
  (forall (Number_toString : number -> jsstring) (r p : Z),
     (0 <= r <= 10 ^ 12)%Z -> (0 <= p <= 10 ^ 12)%Z ->
     combineAmount Number_toString (decimal r) (decimal p)
     = (if (r =? 0)%Z && (p =? 0)%Z then []
        else decimal ((100 * r + p) / 100)
             ++ ch "." :: [digitUnit ((100 * r + p) mod 100 / 10);
                           digitUnit ((100 * r + p) mod 10)])
     /\ parseMarathiNumber (combineAmount Number_toString (decimal r) (decimal p))
        = fin (inject_Z (100 * r + p) / 100))
  /\ (forall Number_toString : number -> jsstring,
      combineAmount Number_toString (u "12") (u "5") = u "12.05"
      /\ combineAmount Number_toString (u "0") (u "100") = u "1.00"
      /\ combineAmount Number_toString (u "१,२००") (u "") = u "1200.00").
Proof.
  split; [| intros Number_toString; repeat split; vm_compute; reflexivity].
  intros Number_toString r p [Hr Hr'] [Hp Hp'].
  assert (Hsmall : (100 * r + p < 10 ^ 23)%Z) by lia.
  assert (Htext : combineAmount Number_toString (decimal r) (decimal p)
                  = if (r =? 0)%Z && (p =? 0)%Z then []
                    else toFixedText Number_toString (fin (inject_Z (100 * r + p) / 100))).
  { unfold combineAmount. cbv zeta. rewrite !parse_decimal by assumption.
    rewrite !jeq_ofZ. destruct ((r =? 0)%Z && (p =? 0)%Z); [reflexivity |].
    f_equal. unfold ofZ at 2. rewrite jdiv_Fin_ofZ by lia.
    unfold ofZ, fin. cbn [jadd]. apply fin_eq.
    rewrite Qred_correct, inject_Z_plus, inject_Z_mult.
    change (inject_Z 100) with 100%Q. field. }
  rewrite Htext.
  destruct (Z.eqb_spec r 0) as [-> | Hr0]; cbn [andb].
  - destruct (Z.eqb_spec p 0) as [-> | Hp0]; [split; reflexivity |].
    rewrite toFixedText_hundredths by lia. split; [reflexivity |].
    apply (parse_two_decimals false (100 * 0 + p)). lia.
  - rewrite toFixedText_hundredths by lia. split; [reflexivity |].
    apply (parse_two_decimals false (100 * r + p)). lia.
Qed.

Lemma combined_amount_carries_paise_witness :
  combineAmount (fun _ => []) (decimal 1234) (decimal 150)
  = (if (1234 =? 0)%Z && (150 =? 0)%Z then []
     else decimal ((100 * 1234 + 150) / 100)
          ++ ch "." :: [digitUnit ((100 * 1234 + 150) mod 100 / 10);
                        digitUnit ((100 * 1234 + 150) mod 10)])
  /\ parseMarathiNumber (combineAmount (fun _ => []) (decimal 1234) (decimal 150))
     = fin (inject_Z (100 * 1234 + 150) / 100).
Proof.
  apply (proj1 combined_amount_carries_paise); lia.
Defined.
